(** * Simple Socket Protocol (SSP): a shallow embedding of ssp_com.c and ssp.c

    The development follows the two C modules of the protocol core:

    - [ssp_com.c]: header checksum, packet serialisation ([SSPCOM_Send]), the
      byte-at-a-time parser ([Parse]) and the receive loop ([Receive]) with
      its parse history;
    - [ssp.c]: the per-port send list, ACK/NAK emission, listener
      notification, [ProcessSend], [ProcessReceive] and the public API
      ([SSP_Listen], [SSP_SendMultiple], [SSP_Process], ...).

    Conventions.  C integers are [Z] with the wrap-around of their width
    written out ([u8], [u16], [u32]).  C arrays indexed by a socket or port
    identifier are total functions [Z -> _] updated with [upd].  The singly
    linked send list is a Rocq [list], head first.  Function pointers
    (listeners) are opaque identifiers; an invocation is recorded in the
    [log] of the world.  The software lock is not modelled: the
    embedding is sequential, as is the cooperative scheduling of the
    program. *)

From Stdlib Require Import ZArith List Bool Lia.
Import ListNotations.
Local Open Scope Z_scope.

(** ** Machine integers *)

Definition u8 (x : Z) : Z := x mod 256.
Definition u16 (x : Z) : Z := x mod 65536.
Definition u32 (x : Z) : Z := x mod 4294967296.

(** Arrays indexed by an identifier. *)
Definition upd {A : Type} (f : Z -> A) (k : Z) (v : A) : Z -> A :=
  fun i => if i =? k then v else f i.

(** In-place store [a[i] = v] into a buffer; a store outside the buffer is
    never issued by the code paths modelled here (the index is bounded by
    the guards that precede each store), the model leaves the buffer as it
    is there. *)
Fixpoint store {A : Type} (l : list A) (i : nat) (v : A) : list A :=
  match l, i with
  | [], _ => []
  | _ :: t, O => v :: t
  | x :: t, S j => x :: store t j v
  end.

(** ** Build options (ssp_opt.h) and identifiers (ssp_common.h) *)

Definition SSP_ACK_TIMEOUT : Z := 200.
Definition SSP_MAX_RETRIES : Z := 4.
Definition SSP_MAX_MESSAGES : Z := 5.
Definition SSP_MAX_PACKET_SIZE : Z := 64.

Definition SSP_INVALID_PORT : Z := 0.
Definition SSP_PORT1 : Z := 1.
Definition SSP_PORT2 : Z := 2.
Definition SSP_MAX_PORTS : Z := 3.

Definition SSP_SOCKET_MAX : Z := 3.

Inductive SspDataType : Type := SSP_RECEIVE | SSP_SEND.

Inductive SspErr : Type :=
| SSP_SUCCESS
| SSP_BAD_SIGNATURE
| SSP_PARTIAL_PACKET
| SSP_PARTIAL_PACKET_HEADER_VALID
| SSP_PORT_OPEN_FAILED
| SSP_SOCKET_NOT_OPEN
| SSP_PORT_NOT_OPEN
| SSP_BAD_SOCKET_ID
| SSP_SOCKET_ALREADY_OPEN
| SSP_PACKET_TOO_LARGE
| SSP_DATA_SIZE_TOO_LARGE
| SSP_PARSE_ERROR
| SSP_CORRUPTED_PACKET
| SSP_BAD_HEADER_CHECKSUM
| SSP_SEND_RETRIES_FAILED
| SSP_QUEUE_FULL
| SSP_OUT_OF_MEMORY
| SSP_BAD_ARGUMENT
| SSP_SEND_FAILURE
| SSP_NOT_INITIALIZED
| SSP_DUPLICATE_LISTENER
| SSP_SOFTWARE_FAULT.

Definition SspErr_eqb (a b : SspErr) : bool :=
  match a, b with
  | SSP_SUCCESS, SSP_SUCCESS
  | SSP_BAD_SIGNATURE, SSP_BAD_SIGNATURE
  | SSP_PARTIAL_PACKET, SSP_PARTIAL_PACKET
  | SSP_PARTIAL_PACKET_HEADER_VALID, SSP_PARTIAL_PACKET_HEADER_VALID
  | SSP_PORT_OPEN_FAILED, SSP_PORT_OPEN_FAILED
  | SSP_SOCKET_NOT_OPEN, SSP_SOCKET_NOT_OPEN
  | SSP_PORT_NOT_OPEN, SSP_PORT_NOT_OPEN
  | SSP_BAD_SOCKET_ID, SSP_BAD_SOCKET_ID
  | SSP_SOCKET_ALREADY_OPEN, SSP_SOCKET_ALREADY_OPEN
  | SSP_PACKET_TOO_LARGE, SSP_PACKET_TOO_LARGE
  | SSP_DATA_SIZE_TOO_LARGE, SSP_DATA_SIZE_TOO_LARGE
  | SSP_PARSE_ERROR, SSP_PARSE_ERROR
  | SSP_CORRUPTED_PACKET, SSP_CORRUPTED_PACKET
  | SSP_BAD_HEADER_CHECKSUM, SSP_BAD_HEADER_CHECKSUM
  | SSP_SEND_RETRIES_FAILED, SSP_SEND_RETRIES_FAILED
  | SSP_QUEUE_FULL, SSP_QUEUE_FULL
  | SSP_OUT_OF_MEMORY, SSP_OUT_OF_MEMORY
  | SSP_BAD_ARGUMENT, SSP_BAD_ARGUMENT
  | SSP_SEND_FAILURE, SSP_SEND_FAILURE
  | SSP_NOT_INITIALIZED, SSP_NOT_INITIALIZED
  | SSP_DUPLICATE_LISTENER, SSP_DUPLICATE_LISTENER
  | SSP_SOFTWARE_FAULT, SSP_SOFTWARE_FAULT => true
  | _, _ => false
  end.

(** Packet types (ssp.c, [SspMsgType]); the header stores them in a byte. *)
Definition MSG_TYPE_DATA : Z := 0.
Definition MSG_TYPE_ACK : Z := 1.
Definition MSG_TYPE_NAK : Z := 2.

(** ** Packets (ssp_common_p.h) *)

Record SspPacketHeader : Type := mkHeader {
  sig0 : Z;
  sig1 : Z;
  destId : Z;
  srcId : Z;
  type : Z;
  bodySize : Z;
  transId : Z;
  checksum : Z
}.

(** The header as it lies in memory, one byte per field. *)
Definition header_bytes (h : SspPacketHeader) : list Z :=
  [sig0 h; sig1 h; destId h; srcId h; type h; bodySize h; transId h; checksum h].

Definition sizeof_SspPacketHeader : Z := 8.

Definition SSP_MAX_BODY_SIZE : Z :=
  SSP_MAX_PACKET_SIZE - sizeof_SspPacketHeader - 2.

Definition SSP_PACKET_SIZE (size : Z) : Z := sizeof_SspPacketHeader + size + 2.

(** [SspData]: [body] is the flexible array member as allocated by
    [SSPCOM_AllocateSspData] (its length is the allocation's data size), and
    [crc] is the 16-bit object the [crc] pointer designates, right behind
    the body. *)
Record SspData : Type := mkSspData {
  err : SspErr;
  dataType : SspDataType;
  crc : Z;
  packetSize : Z;
  header : SspPacketHeader;
  body : list Z
}.

Definition set_err (d : SspData) (e : SspErr) : SspData :=
  mkSspData e (dataType d) (crc d) (packetSize d) (header d) (body d).
Definition set_dataType (d : SspData) (t : SspDataType) : SspData :=
  mkSspData (err d) t (crc d) (packetSize d) (header d) (body d).
Definition set_crc (d : SspData) (c : Z) : SspData :=
  mkSspData (err d) (dataType d) c (packetSize d) (header d) (body d).
Definition set_header (d : SspData) (h : SspPacketHeader) : SspData :=
  mkSspData (err d) (dataType d) (crc d) (packetSize d) h (body d).
Definition set_body (d : SspData) (b : list Z) : SspData :=
  mkSspData (err d) (dataType d) (crc d) (packetSize d) (header d) b.

Definition set_sig (h : SspPacketHeader) (a b : Z) : SspPacketHeader :=
  mkHeader a b (destId h) (srcId h) (type h) (bodySize h) (transId h) (checksum h).
Definition set_destId (h : SspPacketHeader) (v : Z) : SspPacketHeader :=
  mkHeader (sig0 h) (sig1 h) v (srcId h) (type h) (bodySize h) (transId h) (checksum h).
Definition set_srcId (h : SspPacketHeader) (v : Z) : SspPacketHeader :=
  mkHeader (sig0 h) (sig1 h) (destId h) v (type h) (bodySize h) (transId h) (checksum h).
Definition set_type (h : SspPacketHeader) (v : Z) : SspPacketHeader :=
  mkHeader (sig0 h) (sig1 h) (destId h) (srcId h) v (bodySize h) (transId h) (checksum h).
Definition set_bodySize (h : SspPacketHeader) (v : Z) : SspPacketHeader :=
  mkHeader (sig0 h) (sig1 h) (destId h) (srcId h) (type h) v (transId h) (checksum h).
Definition set_transId (h : SspPacketHeader) (v : Z) : SspPacketHeader :=
  mkHeader (sig0 h) (sig1 h) (destId h) (srcId h) (type h) (bodySize h) v (checksum h).
Definition set_checksum (h : SspPacketHeader) (v : Z) : SspPacketHeader :=
  mkHeader (sig0 h) (sig1 h) (destId h) (srcId h) (type h) (bodySize h) (transId h) v.

(** [SSPCOM_InitSspData] on zeroed memory ([calloc]): all fields zero, the
    packet size set, the body [dataSize] bytes long. *)
Definition zero_header : SspPacketHeader := mkHeader 0 0 0 0 0 0 0 0.

Definition SSPCOM_AllocateSspData (dataSize : Z) : SspData :=
  mkSspData SSP_SUCCESS SSP_RECEIVE 0 (u16 (SSP_PACKET_SIZE dataSize))
            zero_header (repeat 0 (Z.to_nat dataSize)).

(** ** The platform: host byte order and the CRC routine

    [LE] and [bswap16] are ssp_util.c.  [Crc16CalcBlock] (ssp_crc.c) is not
    part of the sources at hand: the embedding takes it as a parameter of the
    platform, and every general theorem holds for whatever 16-bit function
    is plugged in. *)

Record Platform : Type := mkPlatform {
  LE : bool;
  Crc16CalcBlock : list Z -> Z -> Z
}.

Definition bswap16 (num : Z) : Z :=
  let b0 := u16 (Z.shiftl (Z.land num 255) 8) in
  let b1 := Z.shiftr (Z.land num 65280) 8 in
  Z.lor b0 b1.

(** The two bytes of a 16-bit object in memory, lowest address first. *)
Definition u16_mem (le : bool) (v : Z) : list Z :=
  if le then [v mod 256; (v / 256) mod 256] else [(v / 256) mod 256; v mod 256].

(** ** ssp_com.c: checksum *)

Definition SIG_1 : Z := 190.
Definition SIG_2 : Z := 239.

Definition Checksum (data : list Z) : Z :=
  fold_left (fun sum b => u8 (sum + b)) data 0.

(** The seven header bytes the checksum covers:
    [sizeof(SspPacketHeader) - sizeof(UINT8)]. *)
Definition header_checksum (h : SspPacketHeader) : Z :=
  Checksum (firstn 7 (header_bytes h)).

(** ** ssp_com.c: parser state *)

Inductive ParseState : Type :=
| PS_SIGNATURE_1
| PS_SIGNATURE_2
| PS_DESTINATION
| PS_SOURCE
| PS_TYPE
| PS_BODY_SIZE
| PS_TRANSACTION
| PS_CHECKSUM
| PS_BODY
| PS_FOOTER_1
| PS_FOOTER_2.

(** The parse fields of [SspComObj] together with the function-static
    history of [Receive]. *)
Record Parser : Type := mkParser {
  parseState : ParseState;
  currentFooter : Z;
  sspDataRecv : SspData;
  parseBytes : Z;
  parseHistory : list Z;
  parseHistoryIdx : Z
}.

Definition PARSE_HISTORY_SIZE : Z := sizeof_SspPacketHeader.

Definition set_parseState (p : Parser) (s : ParseState) : Parser :=
  mkParser s (currentFooter p) (sspDataRecv p) (parseBytes p)
           (parseHistory p) (parseHistoryIdx p).
Definition set_currentFooter (p : Parser) (f : Z) : Parser :=
  mkParser (parseState p) f (sspDataRecv p) (parseBytes p)
           (parseHistory p) (parseHistoryIdx p).
Definition set_sspDataRecv (p : Parser) (d : SspData) : Parser :=
  mkParser (parseState p) (currentFooter p) d (parseBytes p)
           (parseHistory p) (parseHistoryIdx p).
Definition set_parseBytes (p : Parser) (n : Z) : Parser :=
  mkParser (parseState p) (currentFooter p) (sspDataRecv p) n
           (parseHistory p) (parseHistoryIdx p).
Definition set_history (p : Parser) (h : list Z) (i : Z) : Parser :=
  mkParser (parseState p) (currentFooter p) (sspDataRecv p) (parseBytes p) h i.

Definition set_recv_err (p : Parser) (e : SspErr) : Parser :=
  set_sspDataRecv p (set_err (sspDataRecv p) e).
Definition set_recv_header (p : Parser) (h : SspPacketHeader) : Parser :=
  set_sspDataRecv p (set_header (sspDataRecv p) h).

Definition ParseReset (p : Parser) : Parser :=
  set_parseBytes (set_parseState p PS_SIGNATURE_1) 0.

(** The parser as [SSPCOM_Init] leaves it: the receive structure allocated
    for [SSP_MAX_BODY_SIZE] bytes and typed [SSP_RECEIVE], the history
    zeroed. *)
Definition Parser_init : Parser :=
  mkParser PS_SIGNATURE_1 0 (SSPCOM_AllocateSspData SSP_MAX_BODY_SIZE) 0
           (repeat 0 8) 0.

(** ** ssp_com.c: [Parse] and [Receive] *)

Section Codec.

Variable pf : Platform.

(** The CRC both directions compute over [header || body], converted
    "to little-endian" when the host is not. *)
Definition packet_crc (d : SspData) : Z :=
  let c := u16 (Crc16CalcBlock pf
                  (header_bytes (header d)
                   ++ firstn (Z.to_nat (bodySize (header d))) (body d))
                  65535) in
  if LE pf then c else bswap16 c.

(** One turn of the [for] loop of [Parse] on the byte [p]; the boolean is
    [parseComplete].  [packet.body] is an array member and never null, so
    the [SSP_PARSE_ERROR] branch of [PS_BODY] cannot be taken and is left
    out. *)
Definition Parse_byte (socketToPortIdMap : Z -> Z) (p : Z) (ps : Parser)
  : Parser * bool :=
  let h := header (sspDataRecv ps) in
  let footer_1 :=
    (set_parseState (set_currentFooter ps p) PS_FOOTER_2, false) in
  match parseState ps with
  | PS_SIGNATURE_1 =>
      let ps1 := set_recv_header (set_recv_err ps SSP_PARTIAL_PACKET)
                                 (set_sig h SIG_1 SIG_2) in
      if p =? SIG_1 then (set_parseState ps1 PS_SIGNATURE_2, false)
      else (ParseReset (set_recv_err ps1 SSP_BAD_SIGNATURE), false)
  | PS_SIGNATURE_2 =>
      if p =? SIG_2 then (set_parseState ps PS_DESTINATION, false)
      else if p =? SIG_1 then (set_parseState ps PS_SIGNATURE_2, false)
      else (ParseReset (set_recv_err ps SSP_BAD_SIGNATURE), false)
  | PS_DESTINATION =>
      (set_parseState (set_recv_header ps (set_destId h p)) PS_SOURCE, false)
  | PS_SOURCE =>
      (set_parseState (set_recv_header ps (set_srcId h p)) PS_TYPE, false)
  | PS_TYPE =>
      (set_parseState (set_recv_header ps (set_type h p)) PS_BODY_SIZE, false)
  | PS_BODY_SIZE =>
      (set_parseState (set_recv_header ps (set_bodySize h p)) PS_TRANSACTION,
       false)
  | PS_TRANSACTION =>
      (set_parseState (set_recv_header ps (set_transId h p)) PS_CHECKSUM, false)
  | PS_CHECKSUM =>
      let h1 := set_checksum h p in
      let ps1 := set_recv_header ps h1 in
      if p =? header_checksum h1 then
        let ps2 := set_recv_err ps1 SSP_PARTIAL_PACKET_HEADER_VALID in
        if bodySize h1 <=? SSP_MAX_BODY_SIZE then
          (set_parseState ps2 PS_BODY, false)
        else
          (ParseReset (set_recv_err ps2 SSP_PACKET_TOO_LARGE), true)
      else
        (ParseReset (set_recv_err ps1 SSP_BAD_HEADER_CHECKSUM), true)
  | PS_BODY =>
      if negb (bodySize h =? 0) then
        let d := sspDataRecv ps in
        let ps1 := set_sspDataRecv ps
                     (set_body d (store (body d) (Z.to_nat (parseBytes ps)) p)) in
        let n := u16 (parseBytes ps + 1) in
        let ps2 := set_parseBytes ps1 n in
        if n >=? bodySize h then (set_parseState ps2 PS_FOOTER_1, false)
        else (ps2, false)
      else
        (* no body: fall through to PS_FOOTER_1 with the same byte *)
        footer_1
  | PS_FOOTER_1 => footer_1
  | PS_FOOTER_2 =>
      let ps1 :=
        if destId h >=? SSP_SOCKET_MAX then
          set_recv_err ps SSP_BAD_SOCKET_ID
        else if socketToPortIdMap (destId h) =? SSP_INVALID_PORT then
          set_recv_err ps SSP_SOCKET_NOT_OPEN
        else
          let footer := u16 (currentFooter ps + Z.shiftl p 8) in
          let ps' := set_currentFooter ps footer in
          let c := packet_crc (sspDataRecv ps) in
          if footer =? c then
            set_sspDataRecv ps' (set_crc (set_err (sspDataRecv ps) SSP_SUCCESS) c)
          else
            set_recv_err ps' SSP_CORRUPTED_PACKET in
      (ParseReset ps1, true)
  end.

(** The [for] loop: bytes are consumed until the buffer ends or a packet
    (or a terminal error) completes; [n] counts [*bytesParsed]. *)
Fixpoint Parse_loop (socketToPortIdMap : Z -> Z) (buf : list Z) (n : Z)
         (ps : Parser) : bool * Z * Parser :=
  match buf with
  | [] => (false, n, ps)
  | p :: buf' =>
      let '(ps', complete) := Parse_byte socketToPortIdMap p ps in
      if complete then (true, n + 1, ps')
      else Parse_loop socketToPortIdMap buf' (n + 1) ps'
  end.

Definition Parse (socketToPortIdMap : Z -> Z) (buf : list Z) (ps : Parser)
  : bool * Z * Parser :=
  match buf with
  | [] => (true, 0, ps)
  | _ => Parse_loop socketToPortIdMap buf 0 ps
  end.

(** The history loop of [Receive]: bytes are appended until the history
    holds [PARSE_HISTORY_SIZE] of them; later bytes are dropped.  The loop
    touches the history buffer and its index only. *)
Definition history_push (hi : list Z * Z) (b : Z) : list Z * Z :=
  let '(hist, idx) := hi in
  if idx >=? PARSE_HISTORY_SIZE then (hist, idx)
  else (store hist (Z.to_nat idx) b, idx + 1).

Definition save_history (data : list Z) (ps : Parser) : Parser :=
  let '(hist, idx) :=
    fold_left history_push data (parseHistory ps, parseHistoryIdx ps) in
  set_history ps hist idx.

(** The body of the [do] loop once [parseData] is chosen and non-empty:
    parse, save the history, test for a rejected header checksum.  The
    result is [(complete, readFromPort, parser)]. *)
Definition Receive_pass (socketToPortIdMap : Z -> Z) (parseData : list Z)
           (ps : Parser) : bool * bool * Parser :=
  let '(complete, _, ps1) := Parse socketToPortIdMap parseData ps in
  let ps2 := save_history parseData ps1 in
  if complete
     && SspErr_eqb (err (sspDataRecv ps2)) SSP_BAD_HEADER_CHECKSUM
     && (parseHistoryIdx ps2 =? PARSE_HISTORY_SIZE)
  then (false, false, ps2)
  else (complete, true, ps2).

(** The pass that re-reads the history from offset 1 instead of the port
    ([PARSE_HISTORY_SIZE - 1] bytes, history index reset first).  The C
    code copies [parseHistory[i+1]] to [parseHistory[i]] in place, reads
    running ahead of writes, which is the copy of a snapshot. *)
Definition history_pass (socketToPortIdMap : Z -> Z) (ps : Parser)
  : bool * bool * Parser :=
  let parseData := firstn 7 (skipn 1 (parseHistory ps)) in
  Receive_pass socketToPortIdMap parseData
               (set_history ps (parseHistory ps) 0).

(** [Receive] with [MAX_PORT_RECV_BYTES = 1]: [rx] is the port's receive
    queue, each port read takes its first byte, an empty queue ends the
    loop.  A pass over the history is always followed by a port read (see
    [history_pass_reads_port]), so the loop is unrolled as one port read,
    optionally one history pass, and the next turn. *)
Fixpoint Receive_loop (socketToPortIdMap : Z -> Z) (rx : list Z) (ps : Parser)
  : Parser * list Z :=
  match rx with
  | [] => (ps, [])
  | b :: rx' =>
      let '(complete, readFromPort, ps1) :=
        Receive_pass socketToPortIdMap [b] ps in
      if readFromPort then
        if complete then (ps1, rx')
        else Receive_loop socketToPortIdMap rx' ps1
      else
        let '(complete2, _, ps2) := history_pass socketToPortIdMap ps1 in
        if complete2 then (ps2, rx')
        else Receive_loop socketToPortIdMap rx' ps2
  end.

(** [Receive]: the error of the receive structure, the parser and what is
    left in the port's queue. *)
Definition Receive (socketToPortIdMap : Z -> Z) (rx : list Z) (ps : Parser)
  : SspErr * Parser * list Z :=
  let '(ps', rx') := Receive_loop socketToPortIdMap rx ps in
  (err (sspDataRecv ps'), ps', rx').

(** ** ssp_com.c: what [SSPCOM_Send] puts on the wire *)

(** The header completion and CRC of [SSPCOM_Send]. *)
Definition seal (d : SspData) : SspData :=
  let h1 := set_sig (header d) SIG_1 SIG_2 in
  let h2 := set_checksum h1 (header_checksum h1) in
  let d1 := set_header d h2 in
  set_crc d1 (packet_crc d1).

(** The [packetSize] bytes handed to [SSPHAL_PortSend]: the packet as it
    lies in memory, header, body, CRC object. *)
Definition packet_bytes (d : SspData) : list Z :=
  firstn (Z.to_nat (packetSize d))
         (header_bytes (header d) ++ body d ++ u16_mem (LE pf) (crc d)).

End Codec.

(** ** The CRC of the reference platform

    Modelled from the spec: [Crc16CalcBlock] (ssp_crc.c is not among the
    sources).  The specification gives the variant as "CRC-16/IBM-style
    (poly 0xA001 reflected, init 0xFFFF, no final XOR)"; the initial value
    [0xFFFF] is the argument the callers pass. *)

Definition crc16_bit (c : Z) : Z :=
  if Z.testbit c 0 then Z.lxor (Z.shiftr c 1) 40961 else Z.shiftr c 1.

Definition crc16_byte (c b : Z) : Z :=
  crc16_bit (crc16_bit (crc16_bit (crc16_bit
    (crc16_bit (crc16_bit (crc16_bit (crc16_bit (Z.lxor c b)))))))).

Definition Crc16_spec (data : list Z) (init : Z) : Z :=
  fold_left crc16_byte data init.

(** A little-endian host (Arduino, x86) with the CRC of the specification,
    and its big-endian counterpart. *)
Definition host_le : Platform := mkPlatform true Crc16_spec.
Definition host_be : Platform := mkPlatform false Crc16_spec.

(** ** ssp.c: the send list and the module state *)

Inductive SendDataState : Type := SEND_STATE | RECEIVE_STATE.

(** [SendData]; the [next] link is the tail of the list the entry is in. *)
Record SendData : Type := mkSendData {
  sendTickStamp : Z;
  sendRetries : Z;
  state : SendDataState;
  sspData : SspData
}.

Definition set_state (e : SendData) (s : SendDataState) : SendData :=
  mkSendData (sendTickStamp e) (sendRetries e) s (sspData e).
Definition set_sendRetries (e : SendData) (n : Z) : SendData :=
  mkSendData (sendTickStamp e) n (state e) (sspData e).
Definition set_sendTickStamp (e : SendData) (t : Z) : SendData :=
  mkSendData t (sendRetries e) (state e) (sspData e).
Definition set_sspData (e : SendData) (d : SspData) : SendData :=
  mkSendData (sendTickStamp e) (sendRetries e) (state e) d.

(** What the outside observes, in order: a byte run accepted by
    [SSPHAL_PortSend], a listener invoked by [CallbackListener] (the data
    argument is the [bodySize] bytes of the body), the error handler
    invoked by [SSPCMN_ReportErr]. *)
Inductive Event : Type :=
| EvPortSend (portId : Z) (bytes : list Z)
| EvCallback (callback : Z) (socketId : Z) (data : list Z) (dataSize : Z)
             (dtype : SspDataType) (status : SspErr) (userData : Z)
| EvErrorHandler (handler : Z) (e : SspErr).

(** The state of the program: the private data of ssp_com.c, ssp.c and
    ssp_common_p.c, and the environment behind the HAL and OSAL
    interfaces.  [portSendOk] tells whether [SSPHAL_PortSend] currently
    succeeds on a port, [allocOk] whether the allocator has a block left,
    [tickCount] is the reading of [SSPOSAL_GetTickCount]; these three are
    set by the environment between calls. *)
Record World : Type := mkWorld {
  (* ssp_com.c *)
  socketToPortIdMap : Z -> Z;
  parser : Parser;
  (* ssp.c *)
  sendTransId : Z;
  socketToCallbackMap : Z -> option Z;
  socketToUserDataMap : Z -> Z;
  initOnce : bool;
  sendDataListHead : Z -> list SendData;
  lastReceivedTransId : Z -> Z * Z;
  sspDataForAckNak : option SspData;
  (* ssp_common_p.c *)
  errorHandlerFunc : option Z;
  lastErr : SspErr;
  (* HAL and OSAL *)
  portIsOpen : Z -> bool;
  recvQueue : Z -> list Z;
  portSendOk : Z -> bool;
  allocOk : bool;
  tickCount : Z;
  powerSave : bool;
  (* observations *)
  log : list Event
}.

Definition set_socketToPortIdMap (w : World) (m : Z -> Z) : World :=
  mkWorld m (parser w) (sendTransId w) (socketToCallbackMap w)
          (socketToUserDataMap w) (initOnce w) (sendDataListHead w)
          (lastReceivedTransId w) (sspDataForAckNak w) (errorHandlerFunc w)
          (lastErr w) (portIsOpen w) (recvQueue w) (portSendOk w) (allocOk w)
          (tickCount w) (powerSave w) (log w).
Definition set_parser (w : World) (p : Parser) : World :=
  mkWorld (socketToPortIdMap w) p (sendTransId w) (socketToCallbackMap w)
          (socketToUserDataMap w) (initOnce w) (sendDataListHead w)
          (lastReceivedTransId w) (sspDataForAckNak w) (errorHandlerFunc w)
          (lastErr w) (portIsOpen w) (recvQueue w) (portSendOk w) (allocOk w)
          (tickCount w) (powerSave w) (log w).
Definition set_sendTransId (w : World) (t : Z) : World :=
  mkWorld (socketToPortIdMap w) (parser w) t (socketToCallbackMap w)
          (socketToUserDataMap w) (initOnce w) (sendDataListHead w)
          (lastReceivedTransId w) (sspDataForAckNak w) (errorHandlerFunc w)
          (lastErr w) (portIsOpen w) (recvQueue w) (portSendOk w) (allocOk w)
          (tickCount w) (powerSave w) (log w).
Definition set_listener (w : World) (cb : Z -> option Z) (ud : Z -> Z) : World :=
  mkWorld (socketToPortIdMap w) (parser w) (sendTransId w) cb ud (initOnce w)
          (sendDataListHead w) (lastReceivedTransId w) (sspDataForAckNak w)
          (errorHandlerFunc w) (lastErr w) (portIsOpen w) (recvQueue w)
          (portSendOk w) (allocOk w) (tickCount w) (powerSave w) (log w).
Definition set_sendDataListHead (w : World) (l : Z -> list SendData) : World :=
  mkWorld (socketToPortIdMap w) (parser w) (sendTransId w)
          (socketToCallbackMap w) (socketToUserDataMap w) (initOnce w) l
          (lastReceivedTransId w) (sspDataForAckNak w) (errorHandlerFunc w)
          (lastErr w) (portIsOpen w) (recvQueue w) (portSendOk w) (allocOk w)
          (tickCount w) (powerSave w) (log w).
Definition set_lastReceivedTransId (w : World) (r : Z -> Z * Z) : World :=
  mkWorld (socketToPortIdMap w) (parser w) (sendTransId w)
          (socketToCallbackMap w) (socketToUserDataMap w) (initOnce w)
          (sendDataListHead w) r (sspDataForAckNak w) (errorHandlerFunc w)
          (lastErr w) (portIsOpen w) (recvQueue w) (portSendOk w) (allocOk w)
          (tickCount w) (powerSave w) (log w).
Definition set_sspDataForAckNak (w : World) (d : option SspData) : World :=
  mkWorld (socketToPortIdMap w) (parser w) (sendTransId w)
          (socketToCallbackMap w) (socketToUserDataMap w) (initOnce w)
          (sendDataListHead w) (lastReceivedTransId w) d (errorHandlerFunc w)
          (lastErr w) (portIsOpen w) (recvQueue w) (portSendOk w) (allocOk w)
          (tickCount w) (powerSave w) (log w).
Definition set_lastErr (w : World) (e : SspErr) : World :=
  mkWorld (socketToPortIdMap w) (parser w) (sendTransId w)
          (socketToCallbackMap w) (socketToUserDataMap w) (initOnce w)
          (sendDataListHead w) (lastReceivedTransId w) (sspDataForAckNak w)
          (errorHandlerFunc w) e (portIsOpen w) (recvQueue w) (portSendOk w)
          (allocOk w) (tickCount w) (powerSave w) (log w).
Definition set_recvQueue (w : World) (q : Z -> list Z) : World :=
  mkWorld (socketToPortIdMap w) (parser w) (sendTransId w)
          (socketToCallbackMap w) (socketToUserDataMap w) (initOnce w)
          (sendDataListHead w) (lastReceivedTransId w) (sspDataForAckNak w)
          (errorHandlerFunc w) (lastErr w) (portIsOpen w) q (portSendOk w)
          (allocOk w) (tickCount w) (powerSave w) (log w).
Definition set_tickCount (w : World) (t : Z) : World :=
  mkWorld (socketToPortIdMap w) (parser w) (sendTransId w)
          (socketToCallbackMap w) (socketToUserDataMap w) (initOnce w)
          (sendDataListHead w) (lastReceivedTransId w) (sspDataForAckNak w)
          (errorHandlerFunc w) (lastErr w) (portIsOpen w) (recvQueue w)
          (portSendOk w) (allocOk w) t (powerSave w) (log w).
Definition set_powerSave (w : World) (b : bool) : World :=
  mkWorld (socketToPortIdMap w) (parser w) (sendTransId w)
          (socketToCallbackMap w) (socketToUserDataMap w) (initOnce w)
          (sendDataListHead w) (lastReceivedTransId w) (sspDataForAckNak w)
          (errorHandlerFunc w) (lastErr w) (portIsOpen w) (recvQueue w)
          (portSendOk w) (allocOk w) (tickCount w) b (log w).
Definition emit (w : World) (e : Event) : World :=
  mkWorld (socketToPortIdMap w) (parser w) (sendTransId w)
          (socketToCallbackMap w) (socketToUserDataMap w) (initOnce w)
          (sendDataListHead w) (lastReceivedTransId w) (sspDataForAckNak w)
          (errorHandlerFunc w) (lastErr w) (portIsOpen w) (recvQueue w)
          (portSendOk w) (allocOk w) (tickCount w) (powerSave w)
          (log w ++ [e]).

(** The send list of one port replaced. *)
Definition set_list (w : World) (portId : Z) (l : list SendData) : World :=
  set_sendDataListHead w (upd (sendDataListHead w) portId l).

(** ** ssp_common_p.c *)

Definition SSPCMN_ReportErr (w : World) (e : SspErr) : World :=
  let w1 := set_lastErr w e in
  match errorHandlerFunc w1 with
  | Some handler => emit w1 (EvErrorHandler handler e)
  | None => w1
  end.

(** ** ssp_com.c: sockets *)

Definition SSPCOM_IsPortOpen (w : World) (portId : Z) : bool :=
  portIsOpen w portId.

Definition SSPCOM_IsSocketOpen (w : World) (socketId : Z) : bool :=
  if socketId >=? SSP_SOCKET_MAX then false
  else negb (socketToPortIdMap w socketId =? SSP_INVALID_PORT).

Definition SSPCOM_GetPortId (w : World) (socketId : Z) : SspErr * Z :=
  if socketId >=? SSP_SOCKET_MAX then (SSP_BAD_SOCKET_ID, SSP_INVALID_PORT)
  else if socketToPortIdMap w socketId =? SSP_INVALID_PORT
       then (SSP_SOCKET_NOT_OPEN, SSP_INVALID_PORT)
       else (SSP_SUCCESS, socketToPortIdMap w socketId).

Definition SSPCOM_CloseSocket (w : World) (socketId : Z) : SspErr * World :=
  if socketId >=? SSP_SOCKET_MAX then (SSP_BAD_SOCKET_ID, w)
  else (SSP_SUCCESS,
        set_socketToPortIdMap w
          (upd (socketToPortIdMap w) socketId SSP_INVALID_PORT)).

Definition SSPCOM_OpenSocket (w : World) (portId socketId : Z)
  : SspErr * World :=
  if negb (SSPCOM_IsPortOpen w portId) then (SSP_PORT_NOT_OPEN, w)
  else if socketId >=? SSP_SOCKET_MAX then (SSP_BAD_SOCKET_ID, w)
  else if SSPCOM_IsSocketOpen w socketId then (SSP_SOCKET_ALREADY_OPEN, w)
  else (SSP_SUCCESS,
        set_socketToPortIdMap w (upd (socketToPortIdMap w) socketId portId)).

(** ** ssp.c: list primitives

    A pointer to an entry of a port's list is its position in the list;
    a store through the pointer is [modify_at]. *)

Fixpoint modify_at {A : Type} (l : list A) (i : nat) (f : A -> A) : list A :=
  match l, i with
  | [], _ => []
  | x :: t, O => f x :: t
  | x :: t, S j => x :: modify_at t j f
  end.

Definition ListInsert (w : World) (portId : Z) (e : SendData) : World :=
  set_list w portId (sendDataListHead w portId ++ [e]).

(** The comparison of [ListErase]: the six header fields. *)
Definition same_header (a b : SspPacketHeader) : bool :=
  (transId a =? transId b) && (destId a =? destId b) && (srcId a =? srcId b)
  && (type a =? type b) && (checksum a =? checksum b)
  && (bodySize a =? bodySize b).

Fixpoint erase_first (l : list SendData) (h : SspPacketHeader)
  : list SendData :=
  match l with
  | [] => []
  | c :: t =>
      if same_header (header (sspData c)) h then t
      else c :: erase_first t h
  end.

Definition ListErase (w : World) (portId : Z) (e : SendData) : World :=
  set_list w portId
           (erase_first (sendDataListHead w portId) (header (sspData e))).

Definition ListFront (w : World) (portId : Z) : option SendData :=
  match sendDataListHead w portId with
  | [] => None
  | e :: _ => Some e
  end.

(** The comparison of [ListFind]: the entry against a received header. *)
Definition correlates (e : SendData) (h : SspPacketHeader) : bool :=
  (destId (header (sspData e)) =? srcId h)
  && (srcId (header (sspData e)) =? destId h)
  && (transId (header (sspData e)) =? transId h).

Fixpoint find_from (l : list SendData) (h : SspPacketHeader) (i : nat)
  : option nat :=
  match l with
  | [] => None
  | e :: t => if correlates e h then Some i else find_from t h (S i)
  end.

Definition ListFind (w : World) (portId : Z) (h : SspPacketHeader)
  : option nat :=
  find_from (sendDataListHead w portId) h 0.

Definition ListSize (w : World) (portId : Z) : Z :=
  fold_left (fun size _ => u16 (size + 1)) (sendDataListHead w portId) 0.

(** [AllocSendData]: a zeroed entry ([calloc]) owning a packet of
    [dataSize] body bytes, or nothing when the allocator is exhausted. *)
Definition AllocSendData (w : World) (dataSize : Z) : option SendData :=
  if allocOk w then
    Some (mkSendData 0 0 SEND_STATE (SSPCOM_AllocateSspData dataSize))
  else None.

Section Engine.

Variable pf : Platform.

(** ** ssp_com.c: [SSPCOM_Send] and [SSPCOM_ProcessReceive] *)

Definition SSPHAL_PortSend (w : World) (portId : Z) (bytes : list Z)
  : bool * World :=
  if portSendOk w portId then (true, emit w (EvPortSend portId bytes))
  else (false, w).

(** The packet is completed in place: the caller's structure comes back
    with signature, checksum and CRC filled in. *)
Definition SSPCOM_Send (w : World) (d : SspData) : SspErr * SspData * World :=
  if srcId (header d) >=? SSP_SOCKET_MAX then (SSP_BAD_SOCKET_ID, d, w)
  else if negb (SSPCOM_IsSocketOpen w (srcId (header d)))
  then (SSP_SOCKET_NOT_OPEN, d, w)
  else
    let '(e, portId) := SSPCOM_GetPortId w (srcId (header d)) in
    if negb (SspErr_eqb e SSP_SUCCESS) then (SSP_BAD_SOCKET_ID, d, w)
    else if negb (SSPCOM_IsPortOpen w portId) then (SSP_PORT_NOT_OPEN, d, w)
    else
      let d1 := seal pf d in
      let '(success, w1) := SSPHAL_PortSend w portId (packet_bytes pf d1) in
      if success then (SSP_SUCCESS, d1, w1) else (SSP_SEND_FAILURE, d1, w1).

(** The [sspData] out-parameter stays null when the port is closed. *)
Definition SSPCOM_ProcessReceive (w : World) (portId : Z)
  : SspErr * option SspData * World :=
  if negb (SSPCOM_IsPortOpen w portId) then (SSP_PORT_NOT_OPEN, None, w)
  else
    let '(e, ps, rx) :=
      Receive pf (socketToPortIdMap w) (recvQueue w portId) (parser w) in
    (e, Some (sspDataRecv ps),
     set_recvQueue (set_parser w ps) (upd (recvQueue w) portId rx)).

(** ** ssp.c: ACK and NAK *)

Definition reply_to (d : SspData) (h : SspPacketHeader) (msgType : Z)
  : SspData :=
  let d1 := set_dataType (set_err d SSP_SUCCESS) SSP_SEND in
  set_header d1
    (set_type (set_transId (set_bodySize
       (set_destId (set_srcId (header d1) (destId h)) (srcId h)) 0)
       (transId h)) msgType).

Definition send_reply (w : World) (h : SspPacketHeader) (msgType : Z) : World :=
  match sspDataForAckNak w with
  | None => w
  | Some d =>
      let '(_, d1, w1) := SSPCOM_Send w (reply_to d h msgType) in
      set_sspDataForAckNak w1 (Some d1)
  end.

Definition SendAck (w : World) (headerToAck : SspPacketHeader) : World :=
  send_reply w headerToAck MSG_TYPE_ACK.

Definition SendNak (w : World) (headerToNak : SspPacketHeader) : World :=
  send_reply w headerToNak MSG_TYPE_NAK.

(** ** ssp.c: listeners

    A listener is run to completion and is taken not to call back into the
    protocol: its invocation is an [EvCallback] in the log. *)

Definition GetCallbackListener (w : World) (socketId : Z) : option Z :=
  socketToCallbackMap w socketId.

Definition CallbackListener (w : World) (socketId : Z) (d : SspData) : World :=
  match GetCallbackListener w socketId with
  | Some callback =>
      emit w (EvCallback callback socketId
                (firstn (Z.to_nat (bodySize (header d))) (body d))
                (bodySize (header d)) (dataType d) (err d)
                (socketToUserDataMap w socketId))
  | None => w
  end.

Definition NotifyListener (w : World) (socketId : Z) (d : SspData) : World :=
  if negb (type (header d) =? MSG_TYPE_DATA) then w
  else if negb (SspErr_eqb (err d) SSP_SUCCESS) then
    CallbackListener w socketId d
  else
    let '(e, portId) := SSPCOM_GetPortId w (srcId (header d)) in
    if SspErr_eqb e SSP_SUCCESS then
      match dataType d with
      | SSP_SEND => CallbackListener w socketId d
      | SSP_RECEIVE =>
          let last := lastReceivedTransId w portId in
          if (fst last =? transId (header d)) && (snd last =? crc d) then
            (* duplicate: not forwarded *)
            w
          else
            let w1 := set_lastReceivedTransId w
                        (upd (lastReceivedTransId w) portId
                             (transId (header d), crc d)) in
            CallbackListener w1 socketId d
      end
    else
      (* bad received port id: message ignored *)
      w.

(** ** ssp.c: [ProcessSend] *)

Definition ProcessSend (w : World) (portId : Z) : World :=
  match sendDataListHead w portId with
  | e :: rest =>
      match state e with
      | SEND_STATE =>
          (* post-increment: the test reads the count before the increment *)
          let e1 := set_sendRetries e (u32 (sendRetries e + 1)) in
          if sendRetries e <=? SSP_MAX_RETRIES then
            let '(r, d1, w1) := SSPCOM_Send w (sspData e1) in
            let e2 := set_sspData e1 d1 in
            let e3 :=
              if SspErr_eqb r SSP_SUCCESS then
                set_state (set_sendTickStamp e2 (tickCount w1)) RECEIVE_STATE
              else e2 in
            set_list w1 portId (e3 :: rest)
          else
            let e2 := set_sspData e1
                        (set_err (sspData e1) SSP_SEND_RETRIES_FAILED) in
            let w1 := set_list w portId (e2 :: rest) in
            let w2 := NotifyListener w1 (srcId (header (sspData e2)))
                                     (sspData e2) in
            ListErase w2 portId e2
      | RECEIVE_STATE => w
      end
  | [] => w
  end.

(** ** ssp.c: [ProcessReceive] *)

(** The ACK branch: the correlated entry is marked successful, its source
    listener notified, the entry erased. *)
Definition handle_ack (w : World) (portId : Z) (h : SspPacketHeader) : World :=
  match ListFind w portId h with
  | Some i =>
      let l := modify_at (sendDataListHead w portId) i
                 (fun e => set_sspData e (set_err (sspData e) SSP_SUCCESS)) in
      let w1 := set_list w portId l in
      match nth_error l i with
      | Some e =>
          let w2 := NotifyListener w1 (srcId (header (sspData e))) (sspData e) in
          ListErase w2 portId e
      | None => w1
      end
  | None => w
  end.

(** The NAK branch: the correlated entry is put back into [SEND_STATE]. *)
Definition handle_nak (w : World) (portId : Z) (h : SspPacketHeader) : World :=
  match ListFind w portId h with
  | Some i =>
      set_list w portId
        (modify_at (sendDataListHead w portId) i (fun e => set_state e SEND_STATE))
  | None => w
  end.

(** The DATA branch. *)
Definition handle_data (w : World) (d : SspData) : World :=
  match GetCallbackListener w (destId (header d)) with
  | Some _ =>
      let w1 := SendAck w (header d) in
      NotifyListener w1 (destId (header d)) d
  | None => SendNak w (header d)
  end.

(** What [ProcessReceive] does with the outcome of
    [SSPCOM_ProcessReceive]. *)
Definition dispatch (w : World) (portId : Z) (e : SspErr)
           (received : option SspData) : World :=
  match received with
  | Some d =>
      if SspErr_eqb e SSP_SUCCESS then
        if type (header d) =? MSG_TYPE_ACK then handle_ack w portId (header d)
        else if type (header d) =? MSG_TYPE_NAK then
          handle_nak w portId (header d)
        else if type (header d) =? MSG_TYPE_DATA then handle_data w d
        else w
      else if (SspErr_eqb e SSP_CORRUPTED_PACKET
               || SspErr_eqb e SSP_PARTIAL_PACKET_HEADER_VALID)
              && (type (header d) =? MSG_TYPE_DATA)
      then SendNak w (header d)
      else w
  | None => w
  end.

(** The timeout walk: at most [MAX_SEND_DATA_BLOCKS] entries from the
    head. *)
Fixpoint timeout_walk (now : Z) (l : list SendData) (packetCnt : nat)
  : list SendData :=
  match l, packetCnt with
  | e :: t, S n =>
      (match state e with
       | RECEIVE_STATE =>
           if u32 (now - sendTickStamp e) >? SSP_ACK_TIMEOUT
           then set_state e SEND_STATE else e
       | SEND_STATE => e
       end) :: timeout_walk now t n
  | _, _ => l
  end.

Definition ProcessReceive (w : World) (portId : Z) : World :=
  let w1 :=
    match recvQueue w portId with
    | [] => w
    | _ :: _ =>
        let '(e, received, w') := SSPCOM_ProcessReceive w portId in
        dispatch w' portId e received
    end in
  set_list w1 portId
    (timeout_walk (tickCount w1) (sendDataListHead w1 portId)
                  (Z.to_nat SSP_MAX_MESSAGES)).

(** ** ssp.c: the public interface *)

Definition SSP_OpenSocket (w : World) (portId socketId : Z) : SspErr * World :=
  SSPCOM_OpenSocket w portId socketId.

Definition SSP_CloseSocket (w : World) (socketId : Z) : SspErr * World :=
  SSPCOM_CloseSocket w socketId.

(** [callback] is [None] for a null function pointer. *)
Definition SSP_Listen (w : World) (socketId : Z) (callback : option Z)
           (userData : Z) : SspErr * World :=
  if negb (initOnce w) then
    (SSP_NOT_INITIALIZED, SSPCMN_ReportErr w SSP_NOT_INITIALIZED)
  else
    match callback with
    | None => (SSP_BAD_ARGUMENT, SSPCMN_ReportErr w SSP_BAD_ARGUMENT)
    | Some cb =>
        if negb (SSPCOM_IsSocketOpen w socketId) then
          (SSP_SOCKET_NOT_OPEN, SSPCMN_ReportErr w SSP_SOCKET_NOT_OPEN)
        else
          match socketToCallbackMap w socketId with
          | None =>
              (SSP_SUCCESS,
               set_listener w (upd (socketToCallbackMap w) socketId (Some cb))
                              (upd (socketToUserDataMap w) socketId userData))
          | Some _ =>
              (SSP_DUPLICATE_LISTENER,
               SSPCMN_ReportErr w SSP_DUPLICATE_LISTENER)
          end
    end.

(** The first loop of [SSP_SendMultiple]: the 16-bit running total of the
    first [n] sizes.  Reading past the end of the size array is undefined
    ([None]). *)
Fixpoint total_size (n : nat) (i : nat) (dataSizeArray : list Z) (dataSize : Z)
  : option Z :=
  match n with
  | O => Some dataSize
  | S n' =>
      match nth_error dataSizeArray i with
      | Some sz => total_size n' (S i) dataSizeArray (u16 (dataSize + sz))
      | None => None
      end
  end.

(** [memcpy(dest, src, n)] at offset [at] of the body. *)
Fixpoint blit (l : list Z) (at_ : nat) (src : list Z) : list Z :=
  match src with
  | [] => l
  | b :: src' => blit (store l at_ b) (S at_) src'
  end.

(** The copy loop.  A [memcpy] that leaves the source buffer or the
    allocated body is undefined ([None]); otherwise the loop ends with
    [SSP_SUCCESS], or with [SSP_SOFTWARE_FAULT] when the remaining-size
    test fails. *)
Fixpoint copy_body (n : nat) (i : nat) (dataArray : list (option (list Z)))
         (dataSizeArray : list Z) (dataSize bytesCopied : Z) (dest : list Z)
  : option (SspErr * list Z) :=
  match n with
  | O => Some (SSP_SUCCESS, dest)
  | S n' =>
      let bufSize := u16 (dataSize - bytesCopied) in
      if bufSize <=? dataSize then
        match nth_error dataArray i, nth_error dataSizeArray i with
        | Some (Some src), Some sz =>
            if (sz <=? Z.of_nat (length src)) && (bytesCopied + sz <=? dataSize)
            then copy_body n' (S i) dataArray dataSizeArray dataSize
                           (u16 (bytesCopied + sz))
                           (blit dest (Z.to_nat bytesCopied)
                                 (firstn (Z.to_nat sz) src))
            else None
        | _, _ => None
        end
      else Some (SSP_SOFTWARE_FAULT, dest)
  end.

(** [dataArray] is the array of buffer pointers and [dataSizeArray] the
    array of sizes, [None] for a null pointer; [numData] is an [INT16].
    The result is [None] where the C code has no defined behaviour. *)
Definition SSP_SendMultiple (w : World) (srcSocketId destSocketId : Z)
           (numData : Z) (dataArray : option (list (option (list Z))))
           (dataSizeArray : option (list Z)) : option (SspErr * World) :=
  match dataArray, dataSizeArray with
  | Some [], Some _ => None
  | Some (Some first :: others), Some sizes =>
      let bufs := Some first :: others in
      match total_size (Z.to_nat numData) 0 sizes 0 with
      | None => None
      | Some dataSize =>
          if dataSize >? SSP_MAX_BODY_SIZE then
            Some (SSP_DATA_SIZE_TOO_LARGE,
                  SSPCMN_ReportErr w SSP_DATA_SIZE_TOO_LARGE)
          else
            let '(e, portId) := SSPCOM_GetPortId w srcSocketId in
            if negb (SspErr_eqb e SSP_SUCCESS) then
              Some (SSP_BAD_SOCKET_ID, SSPCMN_ReportErr w SSP_BAD_SOCKET_ID)
            else if ListSize w portId >=? SSP_MAX_MESSAGES then
              Some (SSP_QUEUE_FULL, SSPCMN_ReportErr w SSP_QUEUE_FULL)
            else
              match AllocSendData w dataSize with
              | None =>
                  Some (SSP_OUT_OF_MEMORY, SSPCMN_ReportErr w SSP_OUT_OF_MEMORY)
              | Some sendData =>
                  let copied :=
                    if dataSize >? 0 then
                      copy_body (Z.to_nat numData) 0 bufs sizes dataSize 0
                                (body (sspData sendData))
                    else Some (SSP_SUCCESS, body (sspData sendData)) in
                  match copied with
                  | None => None
                  | Some (SSP_SUCCESS, b) =>
                      let d := set_body (set_dataType (sspData sendData) SSP_SEND) b in
                      let h := set_type (set_transId (set_destId (set_srcId
                                 (set_bodySize (header d) (u8 dataSize))
                                 srcSocketId) destSocketId) (sendTransId w))
                                 MSG_TYPE_DATA in
                      let w1 := set_sendTransId w (u8 (sendTransId w + 1)) in
                      let w2 := ListInsert w1 portId
                                  (set_sspData sendData (set_header d h)) in
                      Some (SSP_SUCCESS, set_powerSave w2 false)
                  | Some (_, _) =>
                      (* the fault is reported and the entry freed *)
                      Some (SSP_SOFTWARE_FAULT,
                            SSPCMN_ReportErr w SSP_SOFTWARE_FAULT)
                  end
              end
      end
  | _, _ => Some (SSP_BAD_ARGUMENT, SSPCMN_ReportErr w SSP_BAD_ARGUMENT)
  end.

Definition SSP_Send (w : World) (srcSocketId destSocketId : Z)
           (data : option (list Z)) (dataSize : Z) : option (SspErr * World) :=
  SSP_SendMultiple w srcSocketId destSocketId 1 (Some [data]) (Some [dataSize]).

Definition SSP_GetSendQueueSize (w : World) (portId : Z) : Z :=
  ListSize w portId.

(** One turn of the port loop of [SSP_Process]; the boolean is the
    [powerSave] local. *)
Definition process_port (portId : Z) (acc : World * bool) : World * bool :=
  let '(w, ps) := acc in
  if SSPCOM_IsPortOpen w portId then
    let w1 := ProcessReceive w portId in
    let w2 := ProcessSend w1 portId in
    (w2, if ListSize w2 portId >? 0 then false else ps)
  else (w, ps).

Definition SSP_Process (w : World) : World :=
  let '(w1, ps) :=
    process_port SSP_PORT2 (process_port SSP_PORT1 (w, true)) in
  if ps then set_powerSave w1 true else w1.

End Engine.

(** ** Start-up

    The zero-initialised module data, with the receive structure of
    [SSPCOM_Init] already in place, and [SSP_Init] over a HAL whose
    [SSPHAL_PortOpen] always succeeds (the memory-buffer HAL). *)

Definition World_zero : World :=
  mkWorld (fun _ => SSP_INVALID_PORT) Parser_init 0 (fun _ => None)
          (fun _ => 0) false (fun _ => []) (fun _ => (0, 0)) None None
          SSP_SUCCESS (fun _ => false) (fun _ => []) (fun _ => true) true 0
          true [].

Definition SSP_Init (w : World) (portId : Z) : SspErr * World :=
  let w1 :=
    if initOnce w then w
    else
      mkWorld (socketToPortIdMap w) Parser_init (sendTransId w)
              (socketToCallbackMap w) (socketToUserDataMap w) true
              (sendDataListHead w) (lastReceivedTransId w)
              (Some (SSPCOM_AllocateSspData 0)) (errorHandlerFunc w)
              (lastErr w) (portIsOpen w) (recvQueue w) (portSendOk w)
              (allocOk w) (tickCount w) (powerSave w) (log w) in
  (SSP_SUCCESS,
   mkWorld (socketToPortIdMap w1) (parser w1) (sendTransId w1)
           (socketToCallbackMap w1) (socketToUserDataMap w1) (initOnce w1)
           (sendDataListHead w1) (lastReceivedTransId w1)
           (sspDataForAckNak w1) (errorHandlerFunc w1) (lastErr w1)
           (upd (portIsOpen w1) portId true) (recvQueue w1) (portSendOk w1)
           (allocOk w1) (tickCount w1) (powerSave w1) (log w1)).

(** ** Vocabulary of the properties *)

(** The packet [SSP_SendMultiple] queues for a payload: zeroed allocation,
    then type, sizes, identifiers and transaction number filled in. *)
Definition frame (src dst msgType trans : Z) (p : list Z) : SspData :=
  mkSspData SSP_SUCCESS SSP_SEND 0 (u16 (SSP_PACKET_SIZE (Z.of_nat (length p))))
            (mkHeader 0 0 dst src msgType (u8 (Z.of_nat (length p))) trans 0) p.

Definition data_frame (src dst trans : Z) (p : list Z) : SspData :=
  frame src dst MSG_TYPE_DATA trans p.

Definition is_byte (b : Z) : Prop := 0 <= b < 256.


(** A parser between packets, as [SSPCOM_Init] or a completed packet
    leaves it, with the receive structure of [SSP_MAX_BODY_SIZE] bytes. *)
Definition idle (ps : Parser) : Prop :=
  parseState ps = PS_SIGNATURE_1 /\ parseBytes ps = 0
  /\ length (body (sspDataRecv ps)) = Z.to_nat SSP_MAX_BODY_SIZE.


Definition is_callback (e : Event) : bool :=
  match e with EvCallback _ _ _ _ _ _ _ => true | _ => false end.
Definition callbacks (w : World) : list Event := filter is_callback (log w).

(** The parser once a header has been accepted. *)
Definition after_header (ps : Parser) (h : SspPacketHeader) : Parser :=
  mkParser PS_BODY (currentFooter ps)
           (set_header (set_err (sspDataRecv ps) SSP_PARTIAL_PACKET_HEADER_VALID) h)
           (parseBytes ps) (parseHistory ps) (parseHistoryIdx ps).

(** The receive structure at the moment the second footer byte is due. *)
Definition before_footer_2 (ps : Parser) (h : SspPacketHeader) (p : list Z)
           (lo : Z) : Parser :=
  mkParser PS_FOOTER_2 lo
           (set_body
              (set_header
                 (set_err (sspDataRecv ps) SSP_PARTIAL_PACKET_HEADER_VALID) h)
              (blit (body (sspDataRecv ps)) 0 p))
           (Z.of_nat (length p)) (parseHistory ps) (parseHistoryIdx ps).

(** A packet ready to be sent: the body size of the header is the length of
    the body, within the maximum, and the packet size is the allocation's. *)
Definition sendable (d : SspData) : Prop :=
  bodySize (header d) = Z.of_nat (length (body d))
  /\ Z.of_nat (length (body d)) <= SSP_MAX_BODY_SIZE
  /\ packetSize d = SSP_PACKET_SIZE (Z.of_nat (length (body d))).

(** The parser after it accepted the packet [d1] (sealed), starting from
    [ps]. *)
Definition accepted (pf : Platform) (ps : Parser) (d1 : SspData) : Parser :=
  save_history (packet_bytes pf d1)
    (mkParser PS_SIGNATURE_1 (crc d1)
       (mkSspData SSP_SUCCESS (dataType (sspDataRecv ps)) (crc d1)
                  (packetSize (sspDataRecv ps)) (header d1)
                  (blit (body (sspDataRecv ps)) 0 (body d1)))
       0 (parseHistory ps) (parseHistoryIdx ps)).

(** The set-up of the example program: both ports initialised, socket 0
    opened on port 1 and socket 1 on port 2, a listener on each (the
    listeners are the function pointers 100 and 101, without user data). *)
Definition testbed : World :=
  let w := snd (SSP_Init World_zero SSP_PORT1) in
  let w := snd (SSP_Init w SSP_PORT2) in
  let w := snd (SSP_OpenSocket w SSP_PORT1 0) in
  let w := snd (SSP_OpenSocket w SSP_PORT2 1) in
  let w := snd (SSP_Listen w 0 (Some 100) 0) in
  snd (SSP_Listen w 1 (Some 101) 0).

(** Bytes arriving on a port: appended to its receive queue. *)
Definition arrive (w : World) (portId : Z) (bytes : list Z) : World :=
  set_recvQueue w (upd (recvQueue w) portId (recvQueue w portId ++ bytes)).

(** [f] holds on the [n] integers from [c] upwards. *)
Fixpoint all_from (n : nat) (c : Z) (f : Z -> bool) : bool :=
  match n with
  | O => true
  | S n' => f c && all_from n' (c + 1) f
  end.



(** The CRC of a header and payload as the parser computes it. *)
Definition wire_crc (pf : Platform) (h : SspPacketHeader) (p : list Z) : Z :=
  let c := u16 (Crc16CalcBlock pf (header_bytes h ++ p) 65535) in
  if LE pf then c else bswap16 c.

(** The header [SSPCOM_Send] completes for the given fields and payload
    length. *)
Definition sealed_header (d s t tr : Z) (p : list Z) : SspPacketHeader :=
  let h0 := mkHeader SIG_1 SIG_2 d s t (Z.of_nat (length p)) tr 0 in
  set_checksum h0 (header_checksum h0).

(** The verdict of [PS_FOOTER_2]. *)
Definition footer_verdict (pf : Platform) (m : Z -> Z) (h : SspPacketHeader)
           (p : list Z) (lo hi : Z) : SspErr :=
  if destId h >=? SSP_SOCKET_MAX then SSP_BAD_SOCKET_ID
  else if m (destId h) =? SSP_INVALID_PORT then SSP_SOCKET_NOT_OPEN
  else if u16 (lo + Z.shiftl hi 8) =? wire_crc pf h p then SSP_SUCCESS
  else SSP_CORRUPTED_PACKET.

(** A signature pair at position [i] of a byte stream, followed by a
    valid header: the eight bytes from [i] are a header whose checksum
    byte is right. *)
Definition header_at (l : list Z) (i : nat) : bool :=
  match skipn i l with
  | a :: b :: d :: s :: t :: z :: tr :: ck :: _ =>
      (a =? SIG_1) && (b =? SIG_2) && (ck =? Checksum [a; b; d; s; t; z; tr])
  | _ => false
  end.

(** No signature pair that starts in the prefix of the stream is followed
    by a valid header. *)
Definition no_header_in (prefix stream : list Z) : bool :=
  forallb (fun i => negb (header_at stream i)) (seq 0 (length prefix)).

(** Port 1 initialised and socket 0 opened on it, no listener yet. *)
Definition bound_socket : World :=
  snd (SSP_OpenSocket (snd (SSP_Init World_zero SSP_PORT1)) SSP_PORT1 0).

(** Every port's send list holds at most [SSP_MAX_MESSAGES] entries. *)
Definition queues_bounded (w : World) : Prop :=
  forall portId,
    Z.of_nat (length (sendDataListHead w portId)) <= SSP_MAX_MESSAGES.

(** The arguments pass the checks that precede the queue test: arrays and
    first buffer non-null, the 16-bit total defined and within the
    maximum body size. *)
Definition passes_argument_checks (numData : Z)
           (dataArray : option (list (option (list Z))))
           (dataSizeArray : option (list Z)) : Prop :=
  exists first others sizes dataSize,
    dataArray = Some (Some first :: others)
    /\ dataSizeArray = Some sizes
    /\ total_size (Z.to_nat numData) 0 sizes 0 = Some dataSize
    /\ dataSize <= SSP_MAX_BODY_SIZE.

(** No port's send list grows from [w] to [w']. *)
Definition queues_shrink (w w' : World) : Prop :=
  forall portId,
    (length (sendDataListHead w' portId) <= length (sendDataListHead w portId))%nat.

(** One one-byte message queued from socket 0 to socket 1. *)
Definition send1 (w : World) : World :=
  match SSP_Send w 0 1 (Some [120]) 1 with
  | Some (_, w') => w'
  | None => w
  end.

(** The example set-up with five messages queued on port 1. *)
Definition full_queue : World := send1 (send1 (send1 (send1 (send1 testbed)))).

(** The sum of the sizes, without wrap-around. *)
Definition true_total (sizes : list Z) : Z := fold_right Z.add 0 sizes.

(** The example set-up with one message of socket 0 transmitted and
    awaiting its acknowledgement. *)
Definition awaiting_ack : World :=
  ProcessSend host_le
    (match SSP_Send testbed 0 1 (Some [120]) 1 with
     | Some (_, w') => w'
     | None => testbed
     end) SSP_PORT1.

(** The structure reserved for ACK and NAK is in place, as [SSP_Init]
    made it: no body, ten bytes on the wire. *)
Definition reply_frame_ready (w : World) : Prop :=
  exists ack,
    sspDataForAckNak w = Some ack
    /\ body ack = [] /\ packetSize ack = SSP_PACKET_SIZE 0.

(** The receiving side is ready for a packet addressed to [dst] on
    [portId]: little-endian host, port open, parser idle with a receive
    structure typed [SSP_RECEIVE], destination socket in range and bound
    to an open port that accepts bytes, reply structure in place. *)
Definition receiver_ready (pf : Platform) (w : World) (portId dst : Z) : Prop :=
  LE pf = true
  /\ portIsOpen w portId = true
  /\ idle (parser w)
  /\ dataType (sspDataRecv (parser w)) = SSP_RECEIVE
  /\ 0 <= dst < SSP_SOCKET_MAX
  /\ socketToPortIdMap w dst <> SSP_INVALID_PORT
  /\ portIsOpen w (socketToPortIdMap w dst) = true
  /\ portSendOk w (socketToPortIdMap w dst) = true
  /\ reply_frame_ready w.

(** The bytes of the ACK or NAK that answers a packet from [src] to [dst]
    with transaction identifier [trans]. *)
Definition reply_bytes (pf : Platform) (msgType src dst trans : Z) : list Z :=
  packet_bytes pf (seal pf (frame dst src msgType trans [])).


(** What [SSP_Process] does for one open port. *)
Definition port_round (pf : Platform) (w : World) (portId : Z) : World :=
  ProcessSend pf (ProcessReceive pf w portId) portId.

(** Successive calls, the tick counter reading [t] at each of them. *)
Definition pump (pf : Platform) (portId : Z) (ticks : list Z) (w : World)
  : World :=
  fold_left (fun w t => port_round pf (set_tickCount w t) portId) ticks w.

(** What the protocol is set up with stays as it is from [w] to [w'], and
    nothing arrives. *)
Definition same_setup (w w' : World) : Prop :=
  socketToPortIdMap w' = socketToPortIdMap w
  /\ socketToCallbackMap w' = socketToCallbackMap w
  /\ socketToUserDataMap w' = socketToUserDataMap w
  /\ portIsOpen w' = portIsOpen w
  /\ portSendOk w' = portSendOk w
  /\ recvQueue w' = recvQueue w.

(** The entry is transmitted at the next call: it is in [SEND_STATE], or
    it waits for an ACK since more than [SSP_ACK_TIMEOUT] ticks. *)
Definition due (e : SendData) (now : Z) : Prop :=
  state e = SEND_STATE
  \/ (state e = RECEIVE_STATE
      /\ u32 (now - sendTickStamp e) > SSP_ACK_TIMEOUT).

(** The source socket of the packet can transmit and has the listener
    [cb]. *)
Definition sender_ready (w : World) (d : SspData) (cb : Z) : Prop :=
  0 <= srcId (header d) < SSP_SOCKET_MAX
  /\ socketToPortIdMap w (srcId (header d)) <> SSP_INVALID_PORT
  /\ portIsOpen w (socketToPortIdMap w (srcId (header d))) = true
  /\ portSendOk w (socketToPortIdMap w (srcId (header d))) = true
  /\ socketToCallbackMap w (srcId (header d)) = Some cb
  /\ type (header d) = MSG_TYPE_DATA.

(** The transmission of the packet and the notification of its failure,
    as they appear in the log. *)
Definition transmission (pf : Platform) (w : World) (d : SspData) : Event :=
  EvPortSend (socketToPortIdMap w (srcId (header d)))
             (packet_bytes pf (seal pf d)).

Definition failure_notice (w : World) (d : SspData) (cb : Z) : Event :=
  EvCallback cb (srcId (header d))
             (firstn (Z.to_nat (bodySize (header d))) (body d))
             (bodySize (header d)) (dataType d) SSP_SEND_RETRIES_FAILED
             (socketToUserDataMap w (srcId (header d))).





(** ** ssp_common_p.c and ssp.c: the error handler and the last error *)

Definition SSPCMN_GetLastErr (w : World) : SspErr := lastErr w.

(** [handler] is [None] for a null function pointer. *)
Definition SSPCMN_SetErrorHandler (w : World) (handler : option Z) : World :=
  mkWorld (socketToPortIdMap w) (parser w) (sendTransId w)
          (socketToCallbackMap w) (socketToUserDataMap w) (initOnce w)
          (sendDataListHead w) (lastReceivedTransId w) (sspDataForAckNak w)
          handler (lastErr w) (portIsOpen w) (recvQueue w) (portSendOk w)
          (allocOk w) (tickCount w) (powerSave w) (log w).

Definition SSP_SetErrorHandler (w : World) (handler : option Z) : World :=
  SSPCMN_SetErrorHandler w handler.

Definition SSP_GetLastErr (w : World) : SspErr := SSPCMN_GetLastErr w.

(** ** ssp.c and ssp_com.c: the receive queue of a port *)

Definition SSP_IsRecvQueueEmpty (w : World) (portId : Z) : bool :=
  match recvQueue w portId with
  | [] => true
  | _ :: _ => false
  end.

Definition SSPCOM_Flush (w : World) (portId : Z) : SspErr * World :=
  (SSP_SUCCESS, set_recvQueue w (upd (recvQueue w) portId [])).

(** What [SSPCMN_ReportErr] adds to the log. *)
Definition report_events (w : World) (e : SspErr) : list Event :=
  match errorHandlerFunc w with
  | Some handler => [EvErrorHandler handler e]
  | None => []
  end.

(** ** Vocabulary of [SSP_SendMultiple] *)

(** The bytes the copy loop gathers: the first [size] bytes of each
    buffer, in the order of the arrays. *)
Fixpoint gather (dataArray : list (option (list Z))) (dataSizeArray : list Z)
  : list Z :=
  match dataArray, dataSizeArray with
  | Some src :: bufs, sz :: sizes =>
      firstn (Z.to_nat sz) src ++ gather bufs sizes
  | _, _ => []
  end.

(** Every buffer is non-null and holds at least as many bytes as its
    size says. *)
Definition buffers_fit (dataArray : list (option (list Z)))
           (dataSizeArray : list Z) : Prop :=
  Forall2 (fun buf sz =>
             exists src, buf = Some src /\ 0 <= sz <= Z.of_nat (length src))
          dataArray dataSizeArray.

(** The entry [SSP_SendMultiple] queues. *)
Definition queued_entry (src dst trans : Z) (p : list Z) : SendData :=
  mkSendData 0 0 SEND_STATE (data_frame src dst trans p).

(** ** Vocabulary of the acknowledgement and of the timeouts *)

(** What the listener of the source socket is told when the entry's
    packet has been acknowledged. *)
Definition success_notice (w : World) (d : SspData) (cb : Z) : Event :=
  EvCallback cb (srcId (header d))
             (firstn (Z.to_nat (bodySize (header d))) (body d))
             (bodySize (header d)) SSP_SEND SSP_SUCCESS
             (socketToUserDataMap w (srcId (header d))).

(** The entry as the timeout walk leaves it at tick [now]. *)
Definition expire (now : Z) (e : SendData) : SendData :=
  match state e with
  | RECEIVE_STATE =>
      if u32 (now - sendTickStamp e) >? SSP_ACK_TIMEOUT
      then set_state e SEND_STATE else e
  | SEND_STATE => e
  end.

(** The packet of socket [s] cannot be handed to a port: the socket
    identifier is out of range, the socket is not open, its port is not
    open, or the port refuses the bytes. *)
Definition send_blocked (w : World) (s : Z) : Prop :=
  SSP_SOCKET_MAX <= s
  \/ SSPCOM_IsSocketOpen w s = false
  \/ portIsOpen w (socketToPortIdMap w s) = false
  \/ portSendOk w (socketToPortIdMap w s) = false.

(** The lone entry queued as [e0] of a port after [k] calls of the process
    step none of which could hand the packet to the port: still to be
    sent with [k] retries used up to [SSP_MAX_RETRIES + 1] calls, given up
    with one failure notice after that. *)
Definition blocked_after (pf : Platform) (w0 : World) (portId : Z)
           (e0 : SendData) (cb : Z) (k : nat) (w : World) : Prop :=
  same_setup w0 w
  /\ if (k <=? Z.to_nat (SSP_MAX_RETRIES + 1))%nat then
       log w = log w0
       /\ exists e,
            sendDataListHead w portId = [e]
            /\ state e = SEND_STATE
            /\ sendRetries e = Z.of_nat k
            /\ (sspData e = sspData e0 \/ sspData e = seal pf (sspData e0))
     else
       log w = log w0 ++ [failure_notice w0 (sspData e0) cb]
       /\ sendDataListHead w portId = [].

(** One message queued on socket 0 of the example set-up, and the socket
    closed before the message went out. *)
Definition closed_sender : World := snd (SSP_CloseSocket (send1 testbed) 0).

(** ** Vocabulary of the parser's progress *)

(** The header-field bytes the parser still takes before the checksum
    byte. *)
Definition fields_left (s : ParseState) : nat :=
  match s with
  | PS_DESTINATION => 5
  | PS_SOURCE => 4
  | PS_TYPE => 3
  | PS_BODY_SIZE => 2
  | PS_TRANSACTION => 1
  | _ => 0
  end.

(** The parser is past the header: in the body or in the trailer. *)
Definition in_payload (s : ParseState) : bool :=
  match s with
  | PS_BODY | PS_FOOTER_1 | PS_FOOTER_2 => true
  | _ => false
  end.

(** The parser's body index is where the code may store: the receive
    structure has its [SSP_MAX_BODY_SIZE] body bytes, and while the body
    is being read the announced size is within the maximum and the index
    is below it. *)
Definition parser_safe (ps : Parser) : Prop :=
  length (body (sspDataRecv ps)) = Z.to_nat SSP_MAX_BODY_SIZE
  /\ match parseState ps with
     | PS_BODY =>
         bodySize (header (sspDataRecv ps)) <= SSP_MAX_BODY_SIZE
         /\ (0 <= parseBytes ps < bodySize (header (sspDataRecv ps))
             \/ parseBytes ps = 0)
     | PS_FOOTER_1 | PS_FOOTER_2 => True
     | _ => parseBytes ps = 0
     end.

(** The store [body[parseBytes] = *p] of [PS_BODY], when the state is
    [PS_BODY], lands inside the body array. *)
Definition body_write_in_bounds (ps : Parser) : Prop :=
  parseState ps = PS_BODY ->
  0 <= parseBytes ps
  /\ (Z.to_nat (parseBytes ps) < length (body (sspDataRecv ps)))%nat.

(** ** Vocabulary of a delivery between two nodes *)

(** The sending node: socket [src] bound to the open port [pa] that
    accepts bytes, a listener [cba] on it, nothing queued and nothing
    arriving on the port, the parser between packets, a block left in the
    allocator. *)
Definition sender_node (pf : Platform) (A : World) (pa src cba : Z) : Prop :=
  LE pf = true
  /\ 0 <= src < SSP_SOCKET_MAX
  /\ socketToPortIdMap A src = pa
  /\ pa <> SSP_INVALID_PORT
  /\ portIsOpen A pa = true
  /\ portSendOk A pa = true
  /\ allocOk A = true
  /\ sendDataListHead A pa = []
  /\ recvQueue A pa = []
  /\ idle (parser A)
  /\ socketToCallbackMap A src = Some cba.

(** The receiving node: ready for packets to [dst] on port [pb], a
    listener [cbb] on [dst], the socket identifier [src] bound on this
    side as well, nothing queued and nothing waiting on the port. *)
Definition receiver_node (pf : Platform) (B : World) (pb src dst cbb : Z)
  : Prop :=
  receiver_ready pf B pb dst
  /\ socketToCallbackMap B dst = Some cbb
  /\ 0 <= src < SSP_SOCKET_MAX
  /\ socketToPortIdMap B src <> SSP_INVALID_PORT
  /\ recvQueue B pb = []
  /\ sendDataListHead B pb = [].

(** One call of the process step for a port at tick [t], after [bytes]
    came in on the port. *)
Definition process_after (pf : Platform) (w : World) (portId : Z)
           (bytes : list Z) (t : Z) : World :=
  port_round pf (set_tickCount (arrive w portId bytes) t) portId.

(** ** Vocabulary of power saving *)



(** ** ssp_hal_mem_buf.c: the memory-buffer HAL

    One ring buffer of [RECV_BUF_SIZE] bytes per port, filled by
    [SSPHAL_PortSend] of the peer port and emptied by [SSPHAL_PortRecv].
    The buffer of a call is the list of its [bytesToSend] bytes ([None]
    for a null pointer); bytes are their unsigned values.  The critical
    sections are not modelled. *)

Module MemBuf.

Definition RECV_BUF_SIZE : Z := 1024.

Record Hal : Type := mkHal {
  recvDataBuf : Z -> Z -> Z;
  recvDataHead : Z -> Z;
  recvDataTail : Z -> Z;
  powerSave : bool
}.

(** The static data as the program starts. *)
Definition Hal_zero : Hal :=
  mkHal (fun _ _ => 0) (fun _ => 0) (fun _ => 0) true.

Definition SSPHAL_PortOpen (h : Hal) (portId : Z) : bool := true.

Definition SSPHAL_PortIsOpen (h : Hal) (portId : Z) : bool := true.

(** "Loopback port 1 to port 2": the port whose buffer a send fills. *)
Definition loopback (portId : Z) : Z :=
  if portId =? SSP_PORT1 then SSP_PORT2 else SSP_PORT1.

(** The "Buffer full?" test. *)
Definition buffer_full (h : Hal) (portId : Z) : bool :=
  (recvDataHead h portId - recvDataTail h portId =? -1)
  || ((recvDataHead h portId =? RECV_BUF_SIZE - 1)
      && (recvDataTail h portId =? 0)).

(** One byte stored at the head, the head moved on with wrap-around. *)
Definition put (h : Hal) (portId : Z) (b : Z) : Hal :=
  let head := recvDataHead h portId in
  mkHal (upd (recvDataBuf h) portId (upd (recvDataBuf h portId) head b))
        (upd (recvDataHead h) portId
             (if head + 1 >=? RECV_BUF_SIZE then 0 else head + 1))
        (recvDataTail h) (powerSave h).

(** The copy loop of [SSPHAL_PortSend]: it stops at the first byte that
    finds the buffer full and keeps what it stored before. *)
Fixpoint send_loop (h : Hal) (portId : Z) (buf : list Z) : bool * Hal :=
  match buf with
  | [] => (true, h)
  | b :: buf' =>
      if buffer_full h portId then (false, h)
      else send_loop (put h portId b) portId buf'
  end.

Definition SSPHAL_PortSend (h : Hal) (portId : Z) (buf : option (list Z))
  : bool * Hal :=
  match buf with
  | None => (false, h)
  | Some [] => (false, h)
  | Some bytes => send_loop h (loopback portId) bytes
  end.

(** The tail moved on with wrap-around. *)
Definition drop (h : Hal) (portId : Z) : Hal :=
  let tail := recvDataTail h portId in
  mkHal (recvDataBuf h) (recvDataHead h)
        (upd (recvDataTail h) portId
             (if tail + 1 >=? RECV_BUF_SIZE then 0 else tail + 1))
        (powerSave h).

(** The copy loop of [SSPHAL_PortRecv]: at most [maxLen] bytes, fewer when
    the buffer runs empty. *)
Fixpoint recv_loop (h : Hal) (portId : Z) (maxLen : nat) : list Z * Hal :=
  match maxLen with
  | O => ([], h)
  | S n =>
      if recvDataHead h portId =? recvDataTail h portId then ([], h)
      else
        let b := recvDataBuf h portId (recvDataTail h portId) in
        let '(bytes, h') := recv_loop (drop h portId) portId n in
        (b :: bytes, h')
  end.

(** [SSPHAL_PortRecv] with non-null [buf] and [bytesRead]: the bytes
    copied into [buf] ([*bytesRead] is their number). *)
Definition SSPHAL_PortRecv (h : Hal) (portId : Z) (maxLen : Z)
  : bool * list Z * Hal :=
  let '(bytes, h') := recv_loop h portId (Z.to_nat maxLen) in
  (true, bytes, h').

Definition SSPHAL_IsRecvQueueEmpty (h : Hal) (portId : Z) : bool :=
  recvDataHead h portId =? recvDataTail h portId.

Definition SSPHAL_PortFlush (h : Hal) (portId : Z) : Hal :=
  mkHal (recvDataBuf h)
        (upd (recvDataHead h) portId (recvDataTail h portId))
        (recvDataTail h) (powerSave h).

Definition SSPHAL_PowerSave (h : Hal) (enable : bool) : Hal :=
  mkHal (recvDataBuf h) (recvDataHead h) (recvDataTail h) enable.

Definition SSPHAL_IsPowerSave (h : Hal) : bool := powerSave h.

(** Both indices of the port's ring are inside the buffer. *)
Definition indices_ok (h : Hal) (portId : Z) : Prop :=
  0 <= recvDataHead h portId < RECV_BUF_SIZE
  /\ 0 <= recvDataTail h portId < RECV_BUF_SIZE.

(** The number of bytes between tail and head. *)
Definition count (h : Hal) (portId : Z) : Z :=
  (recvDataHead h portId - recvDataTail h portId) mod RECV_BUF_SIZE.

(** The bytes waiting on the port, oldest first. *)
Definition contents (h : Hal) (portId : Z) : list Z :=
  map (fun i => recvDataBuf h portId
                  ((recvDataTail h portId + Z.of_nat i) mod RECV_BUF_SIZE))
      (seq 0 (Z.to_nat (count h portId))).

(** The room left: the ring holds one byte less than its size. *)
Definition room (h : Hal) (portId : Z) : Z :=
  RECV_BUF_SIZE - 1 - count h portId.

End MemBuf.

(** * Properties of the codec *)

Section CodecFacts.

Variable pf : Platform.
Variable m : Z -> Z.

Ltac break_ifs :=
  repeat match goal with
         | |- context [if ?c then _ else _] => destruct c
         end.

Lemma Parse_byte_history b ps h i :
  Parse_byte pf m b (set_history ps h i)
  = (set_history (fst (Parse_byte pf m b ps)) h i,
     snd (Parse_byte pf m b ps)).
Proof.
  destruct ps as [st cf d pb hh ii].
  unfold Parse_byte; destruct st; cbn; break_ifs; reflexivity.
Qed.

Lemma Parse_loop_history buf : forall n ps h i,
  Parse_loop pf m buf n (set_history ps h i)
  = let '(c, k, ps') := Parse_loop pf m buf n ps in (c, k, set_history ps' h i).
Proof.
  induction buf as [|b buf IH]; intros n ps h i; simpl; [reflexivity|].
  rewrite Parse_byte_history.
  destruct (Parse_byte pf m b ps) as [ps1 c]; simpl.
  destruct c; [reflexivity|]. apply IH.
Qed.

Lemma Parse_byte_keeps_history b ps :
  parseHistory (fst (Parse_byte pf m b ps)) = parseHistory ps
  /\ parseHistoryIdx (fst (Parse_byte pf m b ps)) = parseHistoryIdx ps.
Proof.
  destruct ps as [st cf d pb hh ii].
  unfold Parse_byte; destruct st; cbn; break_ifs; split; reflexivity.
Qed.

Lemma save_history_set data ps :
  save_history data ps
  = set_history ps
      (fst (fold_left history_push data (parseHistory ps, parseHistoryIdx ps)))
      (snd (fold_left history_push data (parseHistory ps, parseHistoryIdx ps))).
Proof.
  unfold save_history.
  destruct (fold_left history_push data (parseHistory ps, parseHistoryIdx ps));
    reflexivity.
Qed.

Lemma set_history_twice ps h i h' i' :
  set_history (set_history ps h i) h' i' = set_history ps h' i'.
Proof. reflexivity. Qed.

Lemma save_history_app l1 l2 ps :
  save_history (l1 ++ l2) ps = save_history l2 (save_history l1 ps).
Proof.
  rewrite !save_history_set. simpl. rewrite fold_left_app.
  destruct (fold_left history_push l1 (parseHistory ps, parseHistoryIdx ps));
    reflexivity.
Qed.

End CodecFacts.

Section ReceiveFacts.

Variable pf : Platform.
Variable m : Z -> Z.

Lemma save_history_nil ps : save_history [] ps = ps.
Proof. destruct ps; reflexivity. Qed.

Lemma Parse_loop_keeps_history buf : forall n ps c k ps',
  Parse_loop pf m buf n ps = (c, k, ps') ->
  parseHistory ps' = parseHistory ps /\ parseHistoryIdx ps' = parseHistoryIdx ps.
Proof.
  induction buf as [|b buf IH]; intros n ps c k ps' H; simpl in H.
  - inversion H; subst; split; reflexivity.
  - pose proof (Parse_byte_keeps_history pf m b ps) as [Hh Hi].
    destruct (Parse_byte pf m b ps) as [ps1 c1]; simpl in *.
    destruct c1.
    + inversion H; subst; split; assumption.
    + apply IH in H. destruct H as [H1 H2]. split; congruence.
Qed.

Lemma Parse_loop_app l1 : forall l2 n ps n1 ps1,
  Parse_loop pf m l1 n ps = (false, n1, ps1) ->
  Parse_loop pf m (l1 ++ l2) n ps = Parse_loop pf m l2 n1 ps1.
Proof.
  induction l1 as [|b l1 IH]; intros l2 n ps n1 ps1 H; simpl in *.
  - inversion H; reflexivity.
  - destruct (Parse_byte pf m b ps) as [ps' c]. destruct c; [discriminate|].
    apply IH; assumption.
Qed.

Lemma save_history_same_history data ps qs :
  parseHistory qs = parseHistory ps ->
  parseHistoryIdx qs = parseHistoryIdx ps ->
  save_history data qs
  = set_history qs (parseHistory (save_history data ps))
                (parseHistoryIdx (save_history data ps)).
Proof.
  intros Hh Hi. rewrite !save_history_set, Hh, Hi. reflexivity.
Qed.

(** A run of bytes that completes nothing is consumed by the receive loop
    one port read at a time, the history filling up on the way. *)
Lemma Receive_loop_incomplete l : forall n ps n' ps' rx,
  Parse_loop pf m l n ps = (false, n', ps') ->
  Receive_loop pf m (l ++ rx) ps = Receive_loop pf m rx (save_history l ps').
Proof.
  induction l as [|b l IH]; intros n ps n' ps' rx H.
  - simpl in H. inversion H; subst. rewrite save_history_nil. reflexivity.
  - simpl in H.
    destruct (Parse_byte pf m b ps) as [ps1 c] eqn:Hb.
    destruct c; [discriminate|].
    change ((b :: l) ++ rx) with (b :: (l ++ rx)).
    cbn [Receive_loop]. unfold Receive_pass, Parse. cbn [Parse_loop].
    rewrite Hb. cbn [andb].
    pose proof (Parse_loop_keeps_history _ _ _ _ _ _ H) as [Hh Hi].
    rewrite (save_history_set [b] ps1).
    pose proof (Parse_loop_history pf m l (n + 1) ps1
                  (fst (fold_left history_push [b]
                          (parseHistory ps1, parseHistoryIdx ps1)))
                  (snd (fold_left history_push [b]
                          (parseHistory ps1, parseHistoryIdx ps1)))) as Hl.
    rewrite H in Hl.
    rewrite (IH _ _ _ _ rx Hl).
    change (b :: l) with ([b] ++ l). rewrite save_history_app.
    f_equal. f_equal.
    rewrite (save_history_set [b] ps'), Hh, Hi. reflexivity.
Qed.

Lemma Parse_byte_save b l ps :
  Parse_byte pf m b (save_history l ps)
  = (save_history l (fst (Parse_byte pf m b ps)), snd (Parse_byte pf m b ps)).
Proof.
  rewrite (save_history_set l ps), Parse_byte_history.
  pose proof (Parse_byte_keeps_history pf m b ps) as [Hh Hi].
  rewrite (save_history_set l (fst _)), Hh, Hi. reflexivity.
Qed.

Lemma save_history_sspDataRecv l ps :
  sspDataRecv (save_history l ps) = sspDataRecv ps.
Proof. rewrite save_history_set. reflexivity. Qed.

Lemma save_history_parseState l ps :
  parseState (save_history l ps) = parseState ps.
Proof. rewrite save_history_set. reflexivity. Qed.

Lemma save_history_parseBytes l ps :
  parseBytes (save_history l ps) = parseBytes ps.
Proof. rewrite save_history_set. reflexivity. Qed.

Lemma SspErr_eqb_eq a b : SspErr_eqb a b = true <-> a = b.
Proof. split; [destruct a, b; simpl; congruence | intros ->; destruct b; reflexivity]. Qed.

Lemma SspErr_eqb_neq a b : a <> b -> SspErr_eqb a b = false.
Proof.
  intros H. destruct (SspErr_eqb a b) eqn:E; [|reflexivity].
  apply SspErr_eqb_eq in E. contradiction.
Qed.

(** The byte that completes a packet with anything but a rejected header
    checksum ends the receive loop. *)
Lemma Receive_loop_last l b : forall n ps n0 ps0 ps' rx,
  Parse_loop pf m l n ps = (false, n0, ps0) ->
  Parse_byte pf m b ps0 = (ps', true) ->
  err (sspDataRecv ps') <> SSP_BAD_HEADER_CHECKSUM ->
  Receive_loop pf m (l ++ b :: rx) ps = (save_history (l ++ [b]) ps', rx).
Proof.
  intros n ps n0 ps0 ps' rx Hl Hb He.
  rewrite (Receive_loop_incomplete _ _ _ _ _ (b :: rx) Hl).
  cbn [Receive_loop]. unfold Receive_pass, Parse. cbn [Parse_loop].
  rewrite Parse_byte_save, Hb. cbn [fst snd].
  rewrite <- save_history_app, save_history_sspDataRecv.
  rewrite (SspErr_eqb_neq _ _ He). reflexivity.
Qed.

End ReceiveFacts.

Section PacketFacts.

Variable pf : Platform.
Variable m : Z -> Z.

Lemma Parse_byte_sig1 p ps :
  parseState ps = PS_SIGNATURE_1 ->
  Parse_byte pf m p ps
  = let ps1 := set_recv_header (set_recv_err ps SSP_PARTIAL_PACKET)
                               (set_sig (header (sspDataRecv ps)) SIG_1 SIG_2) in
    if p =? SIG_1 then (set_parseState ps1 PS_SIGNATURE_2, false)
    else (ParseReset (set_recv_err ps1 SSP_BAD_SIGNATURE), false).
Proof. intros H. unfold Parse_byte. rewrite H. reflexivity. Qed.

Lemma Parse_byte_sig2 p ps :
  parseState ps = PS_SIGNATURE_2 ->
  Parse_byte pf m p ps
  = if p =? SIG_2 then (set_parseState ps PS_DESTINATION, false)
    else if p =? SIG_1 then (set_parseState ps PS_SIGNATURE_2, false)
    else (ParseReset (set_recv_err ps SSP_BAD_SIGNATURE), false).
Proof. intros H. unfold Parse_byte. rewrite H. reflexivity. Qed.

Lemma Parse_byte_destination p ps :
  parseState ps = PS_DESTINATION ->
  Parse_byte pf m p ps
  = (set_parseState (set_recv_header ps (set_destId (header (sspDataRecv ps)) p))
                    PS_SOURCE, false).
Proof. intros H. unfold Parse_byte. rewrite H. reflexivity. Qed.

Lemma Parse_byte_source p ps :
  parseState ps = PS_SOURCE ->
  Parse_byte pf m p ps
  = (set_parseState (set_recv_header ps (set_srcId (header (sspDataRecv ps)) p))
                    PS_TYPE, false).
Proof. intros H. unfold Parse_byte. rewrite H. reflexivity. Qed.

Lemma Parse_byte_type p ps :
  parseState ps = PS_TYPE ->
  Parse_byte pf m p ps
  = (set_parseState (set_recv_header ps (set_type (header (sspDataRecv ps)) p))
                    PS_BODY_SIZE, false).
Proof. intros H. unfold Parse_byte. rewrite H. reflexivity. Qed.

Lemma Parse_byte_body_size p ps :
  parseState ps = PS_BODY_SIZE ->
  Parse_byte pf m p ps
  = (set_parseState (set_recv_header ps (set_bodySize (header (sspDataRecv ps)) p))
                    PS_TRANSACTION, false).
Proof. intros H. unfold Parse_byte. rewrite H. reflexivity. Qed.

Lemma Parse_byte_transaction p ps :
  parseState ps = PS_TRANSACTION ->
  Parse_byte pf m p ps
  = (set_parseState (set_recv_header ps (set_transId (header (sspDataRecv ps)) p))
                    PS_CHECKSUM, false).
Proof. intros H. unfold Parse_byte. rewrite H. reflexivity. Qed.

Lemma Parse_byte_checksum p ps :
  parseState ps = PS_CHECKSUM ->
  Parse_byte pf m p ps
  = let h1 := set_checksum (header (sspDataRecv ps)) p in
    let ps1 := set_recv_header ps h1 in
    if p =? header_checksum h1 then
      let ps2 := set_recv_err ps1 SSP_PARTIAL_PACKET_HEADER_VALID in
      if bodySize h1 <=? SSP_MAX_BODY_SIZE then
        (set_parseState ps2 PS_BODY, false)
      else (ParseReset (set_recv_err ps2 SSP_PACKET_TOO_LARGE), true)
    else (ParseReset (set_recv_err ps1 SSP_BAD_HEADER_CHECKSUM), true).
Proof. intros H. unfold Parse_byte. rewrite H. reflexivity. Qed.

Ltac pstep L := erewrite L by reflexivity; cbv zeta.

Lemma Parse_header d s t b tr ck n ps :
  parseState ps = PS_SIGNATURE_1 ->
  let h := mkHeader SIG_1 SIG_2 d s t b tr ck in
  Parse_loop pf m (header_bytes h) n ps
  = if ck =? header_checksum h then
      if b <=? SSP_MAX_BODY_SIZE then (false, n + 8, after_header ps h)
      else (true, n + 8,
            ParseReset (set_recv_err (set_recv_header ps h) SSP_PACKET_TOO_LARGE))
    else (true, n + 8,
          ParseReset (set_recv_err (set_recv_header ps h) SSP_BAD_HEADER_CHECKSUM)).
Proof.
  intros Hs h.
  unfold h, header_bytes.
  cbn [Parse_loop sig0 sig1 destId srcId type bodySize transId checksum].
  rewrite (Parse_byte_sig1 _ _ Hs). cbv zeta. rewrite Z.eqb_refl.
  pstep Parse_byte_sig2. rewrite Z.eqb_refl.
  pstep Parse_byte_destination. pstep Parse_byte_source.
  pstep Parse_byte_type. pstep Parse_byte_body_size.
  pstep Parse_byte_transaction. pstep Parse_byte_checksum.
  replace (n + 1 + 1 + 1 + 1 + 1 + 1 + 1 + 1) with (n + 8) by lia.
  destruct ps as [st cf [e ty c psz [a0 a1 a2 a3 a4 a5 a6 a7] bd] pb hh ii].
  simpl in Hs; subst st.
  cbn [parseState set_parseState set_recv_header set_recv_err set_sspDataRecv set_err set_header set_sig sspDataRecv header currentFooter parseBytes parseHistory parseHistoryIdx
    err dataType crc packetSize body set_destId set_srcId set_type set_bodySize set_transId set_checksum sig0 sig1 destId srcId type bodySize transId checksum].
  destruct (ck =? _); [destruct (b <=? _)|]; reflexivity.
Qed.

Lemma Parse_byte_body p ps :
  parseState ps = PS_BODY ->
  Parse_byte pf m p ps
  = if negb (bodySize (header (sspDataRecv ps)) =? 0) then
      let d := sspDataRecv ps in
      let ps1 := set_sspDataRecv ps
                   (set_body d (store (body d) (Z.to_nat (parseBytes ps)) p)) in
      let n := u16 (parseBytes ps + 1) in
      let ps2 := set_parseBytes ps1 n in
      if n >=? bodySize (header (sspDataRecv ps))
      then (set_parseState ps2 PS_FOOTER_1, false)
      else (ps2, false)
    else (set_parseState (set_currentFooter ps p) PS_FOOTER_2, false).
Proof. intros H. unfold Parse_byte. rewrite H. reflexivity. Qed.

Lemma Parse_byte_footer_1 p ps :
  parseState ps = PS_FOOTER_1 ->
  Parse_byte pf m p ps
  = (set_parseState (set_currentFooter ps p) PS_FOOTER_2, false).
Proof. intros H. unfold Parse_byte. rewrite H. reflexivity. Qed.

Lemma Parse_byte_footer_2 p ps :
  parseState ps = PS_FOOTER_2 ->
  Parse_byte pf m p ps
  = (ParseReset
       (if destId (header (sspDataRecv ps)) >=? SSP_SOCKET_MAX then
          set_recv_err ps SSP_BAD_SOCKET_ID
        else if m (destId (header (sspDataRecv ps))) =? SSP_INVALID_PORT then
          set_recv_err ps SSP_SOCKET_NOT_OPEN
        else
          let footer := u16 (currentFooter ps + Z.shiftl p 8) in
          let ps' := set_currentFooter ps footer in
          let c := packet_crc pf (sspDataRecv ps) in
          if footer =? c then
            set_sspDataRecv ps'
              (set_crc (set_err (sspDataRecv ps) SSP_SUCCESS) c)
          else set_recv_err ps' SSP_CORRUPTED_PACKET), true).
Proof. intros H. unfold Parse_byte. rewrite H. reflexivity. Qed.

(** The body phase: the bytes land in the receive buffer one after the
    other, the last one moves the parser to the footer. *)
Lemma Parse_body p : forall k n cf d hh ii,
  p <> [] ->
  bodySize (header d) = k + Z.of_nat (length p) ->
  0 <= k -> k + Z.of_nat (length p) < 65536 ->
  Parse_loop pf m p n (mkParser PS_BODY cf d k hh ii)
  = (false, n + Z.of_nat (length p),
     mkParser PS_FOOTER_1 cf (set_body d (blit (body d) (Z.to_nat k) p))
              (k + Z.of_nat (length p)) hh ii).
Proof.
  induction p as [|b p IH]; intros k n cf d hh ii Hne Hsz Hk Hlt; [congruence|].
  cbn [Parse_loop]. pstep Parse_byte_body.
  cbn [sspDataRecv parseBytes].
  assert (Hnz : (bodySize (header d) =? 0) = false).
  { apply Z.eqb_neq. rewrite Hsz. simpl length. lia. }
  rewrite Hnz. cbn [negb].
  assert (Hu : u16 (k + 1) = k + 1).
  { unfold u16. apply Z.mod_small. simpl length in Hlt. lia. }
  rewrite Hu.
  destruct p as [|b' p'].
  - simpl length in *.
    replace (k + 1 >=? bodySize (header d)) with true
      by (symmetry; apply Z.geb_le; lia).
    cbn. replace (k + 1) with (k + Z.of_nat 1) by lia. reflexivity.
  - replace (k + 1 >=? bodySize (header d)) with false.
    2:{ symmetry. rewrite Z.geb_leb. apply Z.leb_gt. rewrite Hsz.
        simpl length. lia. }
    unfold set_parseBytes, set_sspDataRecv.
    cbn [parseState currentFooter sspDataRecv parseBytes parseHistory
         parseHistoryIdx].
    rewrite IH.
    + cbn [set_body body header err dataType crc packetSize].
      replace (Z.to_nat (k + 1)) with (S (Z.to_nat k)) by lia.
      cbn [blit].
      f_equal; [f_equal|].
      * simpl length. lia.
      * f_equal. simpl length. lia.
    + discriminate.
    + cbn [set_body header]. rewrite Hsz. simpl length. lia.
    + lia.
    + simpl length in *. lia.
Qed.


Lemma store_spec {A} (l : list A) : forall k v,
  (k < length l)%nat -> store l k v = firstn k l ++ v :: skipn (S k) l.
Proof.
  induction l as [|x l IH]; intros k v Hk; simpl in Hk; [lia|].
  destruct k as [|k]; [reflexivity|].
  cbn [store firstn skipn]. rewrite IH by lia. reflexivity.
Qed.

Lemma store_length {A} (l : list A) : forall k v, length (store l k v) = length l.
Proof.
  induction l as [|x l IH]; intros k v; [reflexivity|].
  destruct k; simpl; [reflexivity|]. rewrite IH. reflexivity.
Qed.

Lemma blit_length p : forall l k, length (blit l k p) = length l.
Proof.
  induction p as [|b p IH]; intros l k; simpl; [reflexivity|].
  rewrite IH, store_length. reflexivity.
Qed.

Lemma blit_spec p : forall l k,
  (k + length p <= length l)%nat ->
  blit l k p = firstn k l ++ p ++ skipn (k + length p) l.
Proof.
  induction p as [|b p IH]; intros l k Hk; simpl in *.
  - rewrite Nat.add_0_r, firstn_skipn. reflexivity.
  - rewrite IH by (rewrite store_length; lia).
    rewrite store_spec by lia.
    replace (S k) with (k + 1)%nat by lia.
    rewrite firstn_app, firstn_firstn.
    replace (Nat.min (k + 1) k) with k by lia.
    rewrite length_firstn. replace (Nat.min k (length l)) with k by lia.
    replace (k + 1 - k)%nat with 1%nat by lia. cbn [firstn].
    rewrite <- app_assoc. cbn [app]. f_equal. f_equal. f_equal.
    rewrite skipn_app, length_firstn.
    replace (Nat.min k (length l)) with k by lia.
    rewrite skipn_all2 by (rewrite length_firstn; lia).
    replace (k + 1 + length p - k)%nat with (S (length p)) by lia.
    cbn [skipn app]. rewrite skipn_skipn. f_equal. lia.
Qed.

Lemma firstn_blit p l :
  (length p <= length l)%nat -> firstn (length p) (blit l 0 p) = p.
Proof.
  intros H. rewrite blit_spec by lia. cbn [firstn app Nat.add].
  rewrite firstn_app, Nat.sub_diag, firstn_all. cbn [firstn].
  apply app_nil_r.
Qed.

Lemma Parse_until_footer_2 d s t tr p lo n ps :
  parseState ps = PS_SIGNATURE_1 -> parseBytes ps = 0 ->
  Z.of_nat (length p) <= SSP_MAX_BODY_SIZE ->
  let h0 := mkHeader SIG_1 SIG_2 d s t (Z.of_nat (length p)) tr 0 in
  let h := set_checksum h0 (header_checksum h0) in
  Parse_loop pf m (header_bytes h ++ p ++ [lo]) n ps
  = (false, n + 8 + Z.of_nat (length p) + 1, before_footer_2 ps h p lo).
Proof.
  intros Hs Hb Hp h0 h.
  pose proof (Parse_header d s t (Z.of_nat (length p)) tr (header_checksum h0)
                           n ps Hs) as Hh.
  cbv zeta in Hh.
  change (mkHeader SIG_1 SIG_2 d s t (Z.of_nat (length p)) tr
                   (header_checksum h0)) with h in Hh.
  replace (header_checksum h) with (header_checksum h0) in Hh by reflexivity.
  rewrite Z.eqb_refl in Hh.
  replace (Z.of_nat (length p) <=? SSP_MAX_BODY_SIZE) with true in Hh
    by (symmetry; apply Z.leb_le; exact Hp).
  rewrite (Parse_loop_app pf m _ _ _ _ _ _ Hh).
  unfold after_header. rewrite Hb.
  destruct p as [|b p].
  - cbn [app Parse_loop length].
    pstep Parse_byte_body. cbn [sspDataRecv set_header set_err header].
    cbn [bodySize h set_checksum]. cbn [Z.of_nat Z.eqb negb].
    unfold before_footer_2, set_parseState, set_currentFooter.
    cbn [parseState currentFooter sspDataRecv parseBytes parseHistory
         parseHistoryIdx blit length Z.of_nat].
    destruct ps as [st cf [e ty c psz hd bd] pb hh ii].
    cbn. f_equal. f_equal. lia.
  - erewrite Parse_loop_app.
    2:{ apply Parse_body.
        - discriminate.
        - reflexivity.
        - lia.
        - unfold SSP_MAX_BODY_SIZE, SSP_MAX_PACKET_SIZE, sizeof_SspPacketHeader in Hp.
          lia. }
    cbn [Parse_loop]. pstep Parse_byte_footer_1.
    unfold before_footer_2, set_parseState, set_currentFooter.
    cbn [parseState currentFooter sspDataRecv parseBytes parseHistory
         parseHistoryIdx].
    cbn [set_header set_err header body bodySize h set_checksum].
    repeat (f_equal; try lia).
Qed.


Lemma u16_range x : 0 <= u16 x < 65536.
Proof. unfold u16. apply Z.mod_pos_bound. lia. Qed.

Lemma footer_roundtrip c :
  0 <= c < 65536 ->
  u16 (c mod 256 + Z.shiftl ((c / 256) mod 256) 8) = c.
Proof.
  intros H. rewrite Z.shiftl_mul_pow2 by lia. change (2 ^ 8) with 256.
  rewrite (Z.mod_small (c / 256)).
  2:{ split; [apply Z.div_pos; lia | apply Z.div_lt_upper_bound; lia]. }
  unfold u16. rewrite Z.mod_small; [|].
  - pose proof (Z.div_mod c 256 ltac:(lia)). lia.
  - pose proof (Z.div_mod c 256 ltac:(lia)).
    pose proof (Z.mod_pos_bound c 256 ltac:(lia)). lia.
Qed.

Lemma packet_crc_range d : LE pf = true -> 0 <= packet_crc pf d < 65536.
Proof. intros H. unfold packet_crc. rewrite H. apply u16_range. Qed.

Lemma seal_header d :
  header (seal pf d)
  = let h0 := mkHeader SIG_1 SIG_2 (destId (header d)) (srcId (header d))
                       (type (header d)) (bodySize (header d))
                       (transId (header d)) 0 in
    set_checksum h0 (header_checksum h0).
Proof. destruct d as [e ty c psz [a0 a1 a2 a3 a4 a5 a6 a7] bd]. reflexivity. Qed.

Lemma seal_body d : body (seal pf d) = body d.
Proof. reflexivity. Qed.

Lemma seal_crc d :
  crc (seal pf d) = packet_crc pf (set_header d (header (seal pf d))).
Proof. reflexivity. Qed.

Lemma packet_bytes_sealed d :
  sendable d ->
  packet_bytes pf (seal pf d)
  = header_bytes (header (seal pf d)) ++ body d
    ++ u16_mem (LE pf) (crc (seal pf d)).
Proof.
  intros (Hb & Hm & Hp). unfold packet_bytes.
  apply firstn_all2.
  rewrite !length_app.
  replace (packetSize (seal pf d)) with (packetSize d) by reflexivity.
  rewrite Hp. unfold SSP_PACKET_SIZE, sizeof_SspPacketHeader.
  replace (length (u16_mem (LE pf) (crc (seal pf d)))) with 2%nat
    by (unfold u16_mem; destruct (LE pf); reflexivity).
  cbn [header_bytes length]. change (body (seal pf d)) with (body d). lia.
Qed.

(** The receive loop accepts a sealed packet addressed to an open socket,
    on a little-endian host, and leaves what follows it in the queue. *)
Lemma Receive_loop_sealed d ps rx :
  LE pf = true ->
  parseState ps = PS_SIGNATURE_1 -> parseBytes ps = 0 ->
  (length (body d) <= length (body (sspDataRecv ps)))%nat ->
  sendable d ->
  destId (header d) < SSP_SOCKET_MAX ->
  m (destId (header d)) <> SSP_INVALID_PORT ->
  Receive_loop pf m (packet_bytes pf (seal pf d) ++ rx) ps
  = (accepted pf ps (seal pf d), rx).
Proof.
  intros Hle Hs Hb Hlen Hd Hdst Hopen.
  pose proof Hd as (Hbs & Hmax & Hpsz).
  rewrite packet_bytes_sealed by assumption.
  unfold accepted. rewrite packet_bytes_sealed by assumption.
  set (c := crc (seal pf d)).
  assert (Hc : 0 <= c < 65536).
  { unfold c. rewrite seal_crc. apply packet_crc_range, Hle. }
  rewrite Hle. unfold u16_mem.
  rewrite seal_header. cbv zeta. rewrite Hbs.
  set (h0 := mkHeader SIG_1 SIG_2 (destId (header d)) (srcId (header d))
                      (type (header d)) (Z.of_nat (length (body d)))
                      (transId (header d)) 0).
  set (h := set_checksum h0 (header_checksum h0)).
  assert (Hh : header (seal pf d) = h).
  { rewrite seal_header. cbv zeta. rewrite Hbs. reflexivity. }
  pose proof (Parse_until_footer_2 (destId (header d)) (srcId (header d))
                (type (header d)) (transId (header d)) (body d) (c mod 256)
                0 ps Hs Hb Hmax) as Hp.
  cbv zeta in Hp. fold h0 in Hp. fold h in Hp.
  replace (header_bytes h ++ body d ++ [c mod 256; (c / 256) mod 256])
    with ((header_bytes h ++ body d ++ [c mod 256]) ++ [(c / 256) mod 256])
    by (rewrite <- !app_assoc; reflexivity).
  rewrite <- app_assoc.
  change ([(c / 256) mod 256] ++ rx) with ((c / 256) mod 256 :: rx).
  erewrite (Receive_loop_last pf m _ _ _ _ _ _ _ rx Hp).
  - reflexivity.
  - erewrite Parse_byte_footer_2 by reflexivity.
    unfold before_footer_2.
    cbn [sspDataRecv currentFooter header set_body set_header set_err destId].
    replace (destId h >=? SSP_SOCKET_MAX) with false.
    2:{ symmetry. rewrite Z.geb_leb. apply Z.leb_gt. exact Hdst. }
    replace (m (destId h) =? SSP_INVALID_PORT) with false.
    2:{ symmetry. apply Z.eqb_neq. exact Hopen. }
    cbv zeta. rewrite footer_roundtrip by assumption.
    set (dr := set_body _ _).
    assert (Hcrc : packet_crc pf dr = c).
    { unfold c. rewrite seal_crc, Hh. unfold packet_crc, dr.
      cbn [header body set_header set_body bodySize h set_checksum h0].
      rewrite Nat2Z.id, firstn_blit by assumption.
      rewrite firstn_all. reflexivity. }
    rewrite Hcrc, Z.eqb_refl.
    unfold ParseReset, set_parseBytes, set_parseState, set_sspDataRecv,
      set_currentFooter, set_crc, set_err, dr.
    cbn [parseState currentFooter sspDataRecv parseBytes parseHistory
         parseHistoryIdx err dataType crc packetSize header body set_body
         set_header set_err].
    reflexivity.
  - cbn. discriminate.
Qed.

End PacketFacts.

Section More.
Variable pf : Platform.
Variable m : Z -> Z.

Ltac pstep L := erewrite L by reflexivity; cbv zeta.

(** Any packet whose header checksum is right runs the parser to the
    second footer byte, which delivers the verdict. *)
Lemma Receive_loop_packet d s t tr p lo hi ps rx :
  parseState ps = PS_SIGNATURE_1 -> parseBytes ps = 0 ->
  Z.of_nat (length p) <= SSP_MAX_BODY_SIZE ->
  (length p <= length (body (sspDataRecv ps)))%nat ->
  let h := sealed_header d s t tr p in
  exists ps',
    Receive_loop pf m (header_bytes h ++ p ++ lo :: hi :: rx) ps = (ps', rx)
    /\ header (sspDataRecv ps') = h
    /\ err (sspDataRecv ps') = footer_verdict pf m h p lo hi
    /\ firstn (length p) (body (sspDataRecv ps')) = p
    /\ dataType (sspDataRecv ps') = dataType (sspDataRecv ps)
    /\ (err (sspDataRecv ps') = SSP_SUCCESS ->
        crc (sspDataRecv ps') = wire_crc pf h p)
    /\ parseState ps' = PS_SIGNATURE_1 /\ parseBytes ps' = 0
    /\ length (body (sspDataRecv ps')) = length (body (sspDataRecv ps)).
Proof.
  intros Hs Hb Hmax Hfit h.
  pose proof (Parse_until_footer_2 pf m d s t tr p lo 0 ps Hs Hb Hmax) as Hp.
  cbv zeta in Hp. fold (sealed_header d s t tr p) in Hp. fold h in Hp.
  replace (header_bytes h ++ p ++ lo :: hi :: rx)
    with ((header_bytes h ++ p ++ [lo]) ++ hi :: rx)
    by (rewrite <- !app_assoc; reflexivity).
  set (q := before_footer_2 ps h p lo) in *.
  assert (Hcrc : packet_crc pf (sspDataRecv q) = wire_crc pf h p).
  { unfold packet_crc, wire_crc, q, before_footer_2.
    cbn [sspDataRecv header body set_body set_header].
    replace (bodySize h) with (Z.of_nat (length p)) by reflexivity.
    rewrite Nat2Z.id, firstn_blit by assumption. reflexivity. }
  assert (Hb2 : Parse_byte pf m hi q
                = (fst (Parse_byte pf m hi q), true)).
  { pstep Parse_byte_footer_2. reflexivity. }
  assert (He : err (sspDataRecv (fst (Parse_byte pf m hi q)))
               = footer_verdict pf m h p lo hi).
  { pstep Parse_byte_footer_2. cbn [fst]. unfold footer_verdict.
    rewrite Hcrc.
    replace (header (sspDataRecv q)) with h by reflexivity.
    replace (currentFooter q) with lo by reflexivity.
    destruct (destId h >=? SSP_SOCKET_MAX); [reflexivity|].
    destruct (m (destId h) =? SSP_INVALID_PORT); [reflexivity|].
    destruct (u16 (lo + Z.shiftl hi 8) =? wire_crc pf h p); reflexivity. }
  assert (Hrest : header (sspDataRecv (fst (Parse_byte pf m hi q))) = h
                  /\ body (sspDataRecv (fst (Parse_byte pf m hi q)))
                     = blit (body (sspDataRecv ps)) 0 p
                  /\ dataType (sspDataRecv (fst (Parse_byte pf m hi q)))
                     = dataType (sspDataRecv ps)
                  /\ (err (sspDataRecv (fst (Parse_byte pf m hi q))) = SSP_SUCCESS
                      -> crc (sspDataRecv (fst (Parse_byte pf m hi q)))
                         = wire_crc pf h p)
                  /\ parseState (fst (Parse_byte pf m hi q)) = PS_SIGNATURE_1
                  /\ parseBytes (fst (Parse_byte pf m hi q)) = 0).
  { pstep Parse_byte_footer_2. cbn [fst]. rewrite Hcrc.
    destruct (destId (header (sspDataRecv q)) >=? SSP_SOCKET_MAX);
      [repeat split; try reflexivity; cbn; discriminate|].
    destruct (m (destId (header (sspDataRecv q))) =? SSP_INVALID_PORT);
      [repeat split; try reflexivity; cbn; discriminate|].
    destruct (u16 (currentFooter q + Z.shiftl hi 8) =? wire_crc pf h p);
      repeat split; try reflexivity; cbn; discriminate. }
  destruct Hrest as (R1 & R2 & R3 & R4 & R5 & R6).
  exists (save_history ((header_bytes h ++ p ++ [lo]) ++ [hi])
                       (fst (Parse_byte pf m hi q))).
  split.
  - apply (Receive_loop_last pf m _ _ _ _ _ _ _ rx Hp Hb2).
    rewrite He. unfold footer_verdict.
    destruct (destId h >=? SSP_SOCKET_MAX); [discriminate|].
    destruct (m (destId h) =? SSP_INVALID_PORT); [discriminate|].
    destruct (u16 (lo + Z.shiftl hi 8) =? wire_crc pf h p); discriminate.
  - rewrite save_history_sspDataRecv, save_history_parseState,
      save_history_parseBytes.
    repeat split; try assumption.
    + rewrite R2. apply firstn_blit. assumption.
    + rewrite R2. apply blit_length.
Qed.

End More.

Section Scan.
Variable pf : Platform.
Variable m : Z -> Z.

Ltac pstep L := erewrite L by reflexivity; cbv zeta.

(** Bytes that are not the first signature byte leave the parser hunting,
    each one reported as [SSP_BAD_SIGNATURE]. *)
Lemma Parse_loop_hunt l : forall n ps,
  parseState ps = PS_SIGNATURE_1 ->
  Forall (fun b => b <> SIG_1) l ->
  exists ps',
    Parse_loop pf m l n ps = (false, n + Z.of_nat (length l), ps')
    /\ parseState ps' = PS_SIGNATURE_1
    /\ parseBytes ps' = match l with [] => parseBytes ps | _ => 0 end
    /\ err (sspDataRecv ps')
       = match l with [] => err (sspDataRecv ps) | _ => SSP_BAD_SIGNATURE end.
Proof.
  induction l as [|b l IH]; intros n ps Hs Hl.
  - exists ps. cbn. rewrite Z.add_0_r. repeat split; assumption.
  - inversion Hl as [|? ? Hb Hl']; subst.
    cbn [Parse_loop]. rewrite (Parse_byte_sig1 pf m b ps Hs). cbv zeta.
    replace (b =? SIG_1) with false by (symmetry; apply Z.eqb_neq; exact Hb).
    destruct (IH (n + 1)
                 (ParseReset
                    (set_recv_err
                       (set_recv_header (set_recv_err ps SSP_PARTIAL_PACKET)
                          (set_sig (header (sspDataRecv ps)) SIG_1 SIG_2))
                       SSP_BAD_SIGNATURE)) eq_refl Hl')
      as (ps' & E & S1 & S2 & S3).
    exists ps'. rewrite E. repeat split.
    + f_equal. f_equal. cbn [length]. lia.
    + exact S1.
    + rewrite S2. destruct l; reflexivity.
    + rewrite S3. destruct l; reflexivity.
Qed.

Lemma Receive_loop_hunt l ps :
  parseState ps = PS_SIGNATURE_1 ->
  Forall (fun b => b <> SIG_1) l ->
  exists ps',
    Receive_loop pf m l ps = (ps', [])
    /\ parseState ps' = PS_SIGNATURE_1
    /\ err (sspDataRecv ps')
       = match l with [] => err (sspDataRecv ps) | _ => SSP_BAD_SIGNATURE end.
Proof.
  intros Hs Hl.
  destruct (Parse_loop_hunt l 0 ps Hs Hl) as (ps' & E & S1 & S2 & S3).
  exists (save_history l ps').
  rewrite <- (app_nil_r l) at 1.
  rewrite (Receive_loop_incomplete pf m _ _ _ _ _ [] E).
  rewrite save_history_parseState, save_history_sspDataRecv.
  repeat split; assumption.
Qed.


End Scan.

(** * Framing round trip *)

Lemma sendable_frame src dst msgType trans p :
  Z.of_nat (length p) <= SSP_MAX_BODY_SIZE ->
  sendable (frame src dst msgType trans p).
Proof.
  intros H. unfold SSP_MAX_BODY_SIZE, SSP_MAX_PACKET_SIZE,
    sizeof_SspPacketHeader in H.
  repeat split; cbn [frame header body bodySize packetSize].
  - unfold u8. apply Z.mod_small. lia.
  - unfold SSP_MAX_BODY_SIZE, SSP_MAX_PACKET_SIZE, sizeof_SspPacketHeader. lia.
  - unfold u16, SSP_PACKET_SIZE, sizeof_SspPacketHeader. apply Z.mod_small. lia.
Qed.

(** [SSPCOM_Send] on a source socket bound to an open port whose driver
    accepts the bytes: the packet is sealed and handed over whole. *)
Lemma SSPCOM_Send_ok pf w d :
  0 <= srcId (header d) < SSP_SOCKET_MAX ->
  socketToPortIdMap w (srcId (header d)) <> SSP_INVALID_PORT ->
  portIsOpen w (socketToPortIdMap w (srcId (header d))) = true ->
  portSendOk w (socketToPortIdMap w (srcId (header d))) = true ->
  SSPCOM_Send pf w d
  = (SSP_SUCCESS, seal pf d,
     emit w (EvPortSend (socketToPortIdMap w (srcId (header d)))
                        (packet_bytes pf (seal pf d)))).
Proof.
  intros Hs Hb Ho Hk. unfold SSPCOM_Send, SSPCOM_IsSocketOpen, SSPCOM_GetPortId,
    SSPCOM_IsPortOpen, SSPHAL_PortSend.
  replace (srcId (header d) >=? SSP_SOCKET_MAX) with false
    by (symmetry; rewrite Z.geb_leb; apply Z.leb_gt; lia).
  replace (socketToPortIdMap w (srcId (header d)) =? SSP_INVALID_PORT)
    with false by (symmetry; apply Z.eqb_neq; assumption).
  cbn [negb SspErr_eqb]. rewrite Ho. cbn [negb]. rewrite Hk. reflexivity.
Qed.

(** C2, amended.  On a little-endian host, for a source socket bound to an
    open port at the sender, a destination socket identifier that is in
    range and bound at the receiver, any transaction identifier and any
    payload [p] of at most [SSP_MAX_BODY_SIZE] bytes: [SSPCOM_Send] hands
    the sealed packet to the port, and the receive loop of an idle parser
    fed these bytes returns [SSP_SUCCESS] with the same source,
    destination, transaction identifier and payload, consumes exactly the
    packet and is idle again. *)
Theorem framing_round_trip :
  forall pf w src dst trans p m ps rx,
    LE pf = true ->
    0 <= src < SSP_SOCKET_MAX ->
    socketToPortIdMap w src <> SSP_INVALID_PORT ->
    portIsOpen w (socketToPortIdMap w src) = true ->
    portSendOk w (socketToPortIdMap w src) = true ->
    Z.of_nat (length p) <= SSP_MAX_BODY_SIZE ->
    0 <= dst < SSP_SOCKET_MAX ->
    m dst <> SSP_INVALID_PORT ->
    idle ps ->
    exists bytes d1 w1,
      SSPCOM_Send pf w (data_frame src dst trans p) = (SSP_SUCCESS, d1, w1)
      /\ log w1 = log w ++ [EvPortSend (socketToPortIdMap w src) bytes]
      /\ exists ps',
          Receive pf m (bytes ++ rx) ps = (SSP_SUCCESS, ps', rx)
          /\ srcId (header (sspDataRecv ps')) = src
          /\ destId (header (sspDataRecv ps')) = dst
          /\ transId (header (sspDataRecv ps')) = trans
          /\ type (header (sspDataRecv ps')) = MSG_TYPE_DATA
          /\ bodySize (header (sspDataRecv ps')) = Z.of_nat (length p)
          /\ firstn (length p) (body (sspDataRecv ps')) = p
          /\ crc (sspDataRecv ps') = crc d1
          /\ idle ps'.
Proof.
  intros pf w src dst trans p m ps rx Hle Hsrc Hbound Hopen Hok Hp Hdst Hm
         (Hst & Hpb & Hlen).
  set (d := data_frame src dst trans p).
  pose proof (sendable_frame src dst MSG_TYPE_DATA trans p Hp) as Hsd.
  fold (data_frame src dst trans p) in Hsd. fold d in Hsd.
  exists (packet_bytes pf (seal pf d)), (seal pf d),
    (emit w (EvPortSend (socketToPortIdMap w src) (packet_bytes pf (seal pf d)))).
  split; [apply (SSPCOM_Send_ok pf w d); assumption|].
  split; [reflexivity|].
  exists (accepted pf ps (seal pf d)).
  assert (Hfit : (length (body d) <= length (body (sspDataRecv ps)))%nat).
  { rewrite Hlen. cbn [d data_frame frame body]. lia. }
  unfold Receive.
  rewrite (Receive_loop_sealed pf m d ps rx Hle Hst Hpb Hfit Hsd);
    [| cbn; lia | exact Hm].
  unfold accepted. rewrite !save_history_sspDataRecv.
  cbn [sspDataRecv err header body crc].
  rewrite seal_header. cbv zeta.
  cbn [set_checksum srcId destId transId type bodySize d data_frame frame header].
  assert (Hu : u8 (Z.of_nat (length p)) = Z.of_nat (length p)).
  { unfold u8. apply Z.mod_small.
    unfold SSP_MAX_BODY_SIZE, SSP_MAX_PACKET_SIZE, sizeof_SspPacketHeader in Hp.
    lia. }
  repeat split; try reflexivity; try exact Hu.
  all: try (rewrite save_history_parseState; reflexivity).
  all: try (rewrite save_history_parseBytes; reflexivity).
  - change (body (seal pf d)) with p. apply firstn_blit. rewrite Hlen.
    unfold SSP_MAX_BODY_SIZE, SSP_MAX_PACKET_SIZE, sizeof_SspPacketHeader in *.
    lia.
  - rewrite save_history_sspDataRecv. cbn [body sspDataRecv].
    rewrite blit_length. exact Hlen.
Qed.

Lemma framing_round_trip_witness :
  exists bytes d1 w1,
    SSPCOM_Send host_le testbed (data_frame 0 1 7 [104; 105; 0])
    = (SSP_SUCCESS, d1, w1)
    /\ log w1 = log testbed ++ [EvPortSend (socketToPortIdMap testbed 0) bytes]
    /\ exists ps',
        Receive host_le (socketToPortIdMap testbed) (bytes ++ []) Parser_init
        = (SSP_SUCCESS, ps', [])
        /\ srcId (header (sspDataRecv ps')) = 0
        /\ destId (header (sspDataRecv ps')) = 1
        /\ transId (header (sspDataRecv ps')) = 7
        /\ type (header (sspDataRecv ps')) = MSG_TYPE_DATA
        /\ bodySize (header (sspDataRecv ps')) = Z.of_nat (length [104; 105; 0])
        /\ firstn (length [104; 105; 0]) (body (sspDataRecv ps')) = [104; 105; 0]
        /\ crc (sspDataRecv ps') = crc d1
        /\ idle ps'.
Proof.
  apply (framing_round_trip host_le testbed 0 1 7 [104; 105; 0]
           (socketToPortIdMap testbed) Parser_init []).
  - reflexivity.
  - unfold SSP_SOCKET_MAX; lia.
  - vm_compute; discriminate.
  - reflexivity.
  - reflexivity.
  - vm_compute; discriminate.
  - unfold SSP_SOCKET_MAX; lia.
  - vm_compute; discriminate.
  - repeat split; reflexivity.
Defined.

(** C2 as stated fails: the destination identifier 5 is not a socket of
    the receiver (all of whose sockets are bound), and the packet that
    [SSPCOM_Send] serialised is rejected with [SSP_BAD_SOCKET_ID]. *)
Lemma framing_round_trip_counterexample :
  exists bytes d1 w1,
    SSPCOM_Send host_le testbed (data_frame 0 5 7 [104; 105; 0])
    = (SSP_SUCCESS, d1, w1)
    /\ log w1 = [EvPortSend 1 bytes]
    /\ fst (fst (Receive host_le (fun _ => SSP_PORT1) bytes Parser_init))
       = SSP_BAD_SOCKET_ID
    /\ fst (fst (Receive host_le (fun _ => SSP_PORT1) bytes Parser_init))
       <> SSP_SUCCESS.
Proof.
  eexists _, _, _. split; [vm_compute; reflexivity|].
  split; [reflexivity|]. split; [vm_compute; reflexivity|].
  vm_compute. discriminate.
Qed.

(** * Single-bit corruption *)

Lemma all_from_spec n : forall c f,
  all_from n c f = true -> forall x, c <= x < c + Z.of_nat n -> f x = true.
Proof.
  induction n as [|n IH]; intros c f H x Hx; [lia|].
  cbn [all_from] in H. apply andb_prop in H. destruct H as [H0 H1].
  destruct (Z.eq_dec x c) as [->|Hne]; [assumption|].
  apply (IH (c + 1) f H1). lia.
Qed.















Lemma modify_at_length {A} (f : A -> A) (l : list A) : forall i,
  length (modify_at l i f) = length l.
Proof.
  induction l as [|x l IH]; intros i; [destruct i; reflexivity|].
  destruct i; cbn; [reflexivity|]. rewrite IH. reflexivity.
Qed.



Lemma header_checksum_sum a b d s t z tr c :
  header_checksum (mkHeader a b d s t z tr c)
  = (a + b + d + s + t + z + tr) mod 256.
Proof.
  unfold header_checksum, header_bytes, Checksum, u8. cbn [firstn fold_left
    sig0 sig1 destId srcId type bodySize transId checksum].
  rewrite Z.add_0_l.
  rewrite (Zplus_mod_idemp_l a b), (Zplus_mod_idemp_l (a + b) d),
    (Zplus_mod_idemp_l (a + b + d) s), (Zplus_mod_idemp_l (a + b + d + s) t),
    (Zplus_mod_idemp_l (a + b + d + s + t) z),
    (Zplus_mod_idemp_l (a + b + d + s + t + z) tr).
  reflexivity.
Qed.



Section Flip.
Variable pf : Platform.
Variable m : Z -> Z.

Ltac pstep L := erewrite L by reflexivity; cbv zeta.


(** The seven bytes in front of the checksum byte. *)
Lemma Parse_header_prefix d s t b tr n ps :
  parseState ps = PS_SIGNATURE_1 ->
  Parse_loop pf m [SIG_1; SIG_2; d; s; t; b; tr] n ps
  = (false, n + 7,
     mkParser PS_CHECKSUM (currentFooter ps)
       (set_header (set_err (sspDataRecv ps) SSP_PARTIAL_PACKET)
          (mkHeader SIG_1 SIG_2 d s t b tr
                    (checksum (header (sspDataRecv ps)))))
       (parseBytes ps) (parseHistory ps) (parseHistoryIdx ps)).
Proof.
  intros Hs.
  cbn [Parse_loop].
  rewrite (Parse_byte_sig1 _ _ _ _ Hs). cbv zeta. rewrite Z.eqb_refl.
  pstep Parse_byte_sig2. rewrite Z.eqb_refl.
  pstep Parse_byte_destination. pstep Parse_byte_source.
  pstep Parse_byte_type. pstep Parse_byte_body_size.
  pstep Parse_byte_transaction.
  replace (n + 1 + 1 + 1 + 1 + 1 + 1 + 1) with (n + 7) by lia.
  destruct ps as [st cf [e ty c psz [a0 a1 a2 a3 a4 a5 a6 a7] bd] pb hh ii].
  reflexivity.
Qed.



End Flip.

Section Flip2.
Variable pf : Platform.
Variable m : Z -> Z.


Lemma packet_bytes_data_frame src dst trans p :
  Z.of_nat (length p) <= SSP_MAX_BODY_SIZE ->
  let h := sealed_header dst src MSG_TYPE_DATA trans p in
  header (seal pf (data_frame src dst trans p)) = h
  /\ crc (seal pf (data_frame src dst trans p)) = wire_crc pf h p
  /\ packet_bytes pf (seal pf (data_frame src dst trans p))
     = header_bytes h ++ p ++ u16_mem (LE pf) (wire_crc pf h p).
Proof.
  intros Hp h.
  pose proof (sendable_frame src dst MSG_TYPE_DATA trans p Hp) as Hs.
  assert (Hu : u8 (Z.of_nat (length p)) = Z.of_nat (length p)).
  { unfold u8. apply Z.mod_small.
    unfold SSP_MAX_BODY_SIZE, SSP_MAX_PACKET_SIZE, sizeof_SspPacketHeader in Hp.
    lia. }
  assert (Hh : header (seal pf (data_frame src dst trans p)) = h).
  { rewrite seal_header. cbv zeta.
    cbn [data_frame frame header destId srcId type bodySize transId].
    rewrite Hu. reflexivity. }
  assert (Hc : crc (seal pf (data_frame src dst trans p)) = wire_crc pf h p).
  { rewrite seal_crc, Hh. unfold packet_crc, wire_crc.
    cbn [set_header header body data_frame frame].
    replace (bodySize h) with (Z.of_nat (length p)) by reflexivity.
    rewrite Nat2Z.id, firstn_all. reflexivity. }
  repeat split; try assumption.
  fold (data_frame src dst trans p) in Hs.
  rewrite (packet_bytes_sealed pf _ Hs), Hh, Hc. reflexivity.
Qed.




End Flip2.





(** * Resynchronisation after a rejected header *)

(** C6 fails on the code.  The message is the packet of [data_frame 0 1 7]
    with payload "hi\0"; the prefix [00 BE EF] holds one signature pair,
    and what follows the pair is not a valid header.  Alone, and behind the
    two-byte prefix [BE EF], the packet is received; behind [00 BE EF] the
    header that starts in the prefix is rejected while the history (which
    began one byte earlier, and keeps the first eight bytes only) no longer
    holds the rejected checksum byte: that byte, the body-size byte of the
    message, is lost, the receive loop drains the port and ends with
    [SSP_BAD_SIGNATURE], the message never delivered. *)
Theorem resync_loses_message :
  let enc := packet_bytes host_le (seal host_le (data_frame 0 1 7 [104; 105; 0])) in
  let m := socketToPortIdMap testbed in
  no_header_in [0; 190; 239] ([0; 190; 239] ++ enc) = true
  /\ no_header_in [190; 239] ([190; 239] ++ enc) = true
  /\ fst (fst (Receive host_le m enc Parser_init)) = SSP_SUCCESS
  /\ fst (fst (Receive host_le m ([190; 239] ++ enc) Parser_init)) = SSP_SUCCESS
  /\ fst (fst (Receive host_le m ([0; 190; 239] ++ enc) Parser_init))
     = SSP_BAD_SIGNATURE
  /\ snd (Receive host_le m ([0; 190; 239] ++ enc) Parser_init) = [].
Proof. vm_compute. repeat split; reflexivity. Qed.

(** * Listener registration *)

Lemma ReportErr_listeners w e :
  socketToCallbackMap (SSPCMN_ReportErr w e) = socketToCallbackMap w
  /\ socketToUserDataMap (SSPCMN_ReportErr w e) = socketToUserDataMap w.
Proof.
  unfold SSPCMN_ReportErr. cbn [errorHandlerFunc set_lastErr].
  destruct (errorHandlerFunc w); split; reflexivity.
Qed.

Lemma ReportErr_sockets w e :
  socketToPortIdMap (SSPCMN_ReportErr w e) = socketToPortIdMap w
  /\ initOnce (SSPCMN_ReportErr w e) = initOnce w
  /\ portIsOpen (SSPCMN_ReportErr w e) = portIsOpen w.
Proof.
  unfold SSPCMN_ReportErr. cbn [errorHandlerFunc set_lastErr].
  destruct (errorHandlerFunc w); repeat split; reflexivity.
Qed.

Lemma upd_same {A} (f : Z -> A) k v : upd f k v k = v.
Proof. unfold upd. rewrite Z.eqb_refl. reflexivity. Qed.

Lemma upd_other {A} (f : Z -> A) k v i : i <> k -> upd f k v i = f i.
Proof. intros H. unfold upd. apply Z.eqb_neq in H. rewrite H. reflexivity. Qed.

(** A registered listener makes every further [SSP_Listen] on the socket
    fail and stays as it is. *)
Lemma SSP_Listen_registered w s cb0 cb ud :
  socketToCallbackMap w s = Some cb0 ->
  fst (SSP_Listen w s cb ud) <> SSP_SUCCESS
  /\ socketToCallbackMap (snd (SSP_Listen w s cb ud)) = socketToCallbackMap w
  /\ socketToUserDataMap (snd (SSP_Listen w s cb ud)) = socketToUserDataMap w.
Proof.
  intros H. unfold SSP_Listen.
  destruct (initOnce w); cbn [negb];
    [|split; [discriminate | apply ReportErr_listeners]].
  destruct cb as [c|]; [|split; [discriminate | apply ReportErr_listeners]].
  destruct (SSPCOM_IsSocketOpen w s); cbn [negb];
    [|split; [discriminate | apply ReportErr_listeners]].
  rewrite H. split; [discriminate | apply ReportErr_listeners].
Qed.

(** Closing a socket and opening it again on an open port succeeds and
    touches neither the listener tables nor the initialisation flag. *)
Lemma close_open_keeps_listener w s portId :
  (s >=? SSP_SOCKET_MAX) = false ->
  portIsOpen w portId = true -> portId <> SSP_INVALID_PORT ->
  let w2 := snd (SSP_CloseSocket w s) in
  let w3 := snd (SSP_OpenSocket w2 portId s) in
  fst (SSP_CloseSocket w s) = SSP_SUCCESS
  /\ fst (SSP_OpenSocket w2 portId s) = SSP_SUCCESS
  /\ SSPCOM_IsSocketOpen w3 s = true
  /\ socketToCallbackMap w3 = socketToCallbackMap w
  /\ socketToUserDataMap w3 = socketToUserDataMap w
  /\ initOnce w3 = initOnce w.
Proof.
  intros Hs Hp Hne w2 w3.
  assert (E2 : SSP_CloseSocket w s
               = (SSP_SUCCESS,
                  set_socketToPortIdMap w
                    (upd (socketToPortIdMap w) s SSP_INVALID_PORT))).
  { unfold SSP_CloseSocket, SSPCOM_CloseSocket. rewrite Hs. reflexivity. }
  assert (E3 : SSP_OpenSocket w2 portId s
               = (SSP_SUCCESS,
                  set_socketToPortIdMap w2
                    (upd (socketToPortIdMap w2) s portId))).
  { unfold w2. rewrite E2. cbn [snd].
    unfold SSP_OpenSocket, SSPCOM_OpenSocket, SSPCOM_IsPortOpen,
      SSPCOM_IsSocketOpen.
    cbn [portIsOpen set_socketToPortIdMap socketToPortIdMap].
    rewrite Hp, Hs, upd_same. reflexivity. }
  unfold w3. rewrite E3. unfold w2. rewrite E2. cbn [fst snd].
  repeat split.
  unfold SSPCOM_IsSocketOpen. rewrite Hs.
  cbn [set_socketToPortIdMap socketToPortIdMap]. rewrite upd_same.
  apply negb_true_iff, Z.eqb_neq. exact Hne.
Qed.

(** C9, amended.  Once the module is initialised, the first [SSP_Listen]
    with a callback on an open socket that has no listener installs the
    callback and the user data and returns [SSP_SUCCESS]; every later
    [SSP_Listen] on that socket returns [SSP_DUPLICATE_LISTENER] and leaves
    the registration as it is, also after the socket was closed and opened
    again: the registration belongs to the socket identifier, not to the
    binding, and nothing removes it. *)
Theorem listen_once_per_socket :
  forall w s cb ud,
    initOnce w = true ->
    SSPCOM_IsSocketOpen w s = true ->
    socketToCallbackMap w s = None ->
    let w1 := snd (SSP_Listen w s (Some cb) ud) in
    fst (SSP_Listen w s (Some cb) ud) = SSP_SUCCESS
    /\ socketToCallbackMap w1 s = Some cb
    /\ socketToUserDataMap w1 s = ud
    /\ (forall cb' ud',
           fst (SSP_Listen w1 s (Some cb') ud') = SSP_DUPLICATE_LISTENER
           /\ socketToCallbackMap (snd (SSP_Listen w1 s (Some cb') ud')) s
              = Some cb
           /\ socketToUserDataMap (snd (SSP_Listen w1 s (Some cb') ud')) s = ud)
    /\ (forall portId cb' ud',
           portIsOpen w portId = true -> portId <> SSP_INVALID_PORT ->
           let w2 := snd (SSP_CloseSocket w1 s) in
           let w3 := snd (SSP_OpenSocket w2 portId s) in
           fst (SSP_CloseSocket w1 s) = SSP_SUCCESS
           /\ fst (SSP_OpenSocket w2 portId s) = SSP_SUCCESS
           /\ SSPCOM_IsSocketOpen w3 s = true
           /\ fst (SSP_Listen w3 s (Some cb') ud') = SSP_DUPLICATE_LISTENER
           /\ socketToCallbackMap (snd (SSP_Listen w3 s (Some cb') ud')) s
              = Some cb
           /\ socketToUserDataMap (snd (SSP_Listen w3 s (Some cb') ud')) s = ud).
Proof.
  intros w s cb ud Hinit Hopen Hnone w1.
  assert (Hs : (s >=? SSP_SOCKET_MAX) = false).
  { unfold SSPCOM_IsSocketOpen in Hopen.
    destruct (s >=? SSP_SOCKET_MAX); [discriminate | reflexivity]. }
  assert (E1 : SSP_Listen w s (Some cb) ud
               = (SSP_SUCCESS,
                  set_listener w (upd (socketToCallbackMap w) s (Some cb))
                                 (upd (socketToUserDataMap w) s ud))).
  { unfold SSP_Listen. rewrite Hinit, Hopen, Hnone. reflexivity. }
  unfold w1. rewrite E1. cbn [fst snd].
  set (wl := set_listener w _ _).
  assert (Hcb : socketToCallbackMap wl s = Some cb) by apply upd_same.
  assert (Hud : socketToUserDataMap wl s = ud) by apply upd_same.
  assert (Hdup : forall w', initOnce w' = true ->
                   SSPCOM_IsSocketOpen w' s = true ->
                   socketToCallbackMap w' s = Some cb ->
                   socketToUserDataMap w' s = ud ->
                   forall cb' ud',
                     fst (SSP_Listen w' s (Some cb') ud') = SSP_DUPLICATE_LISTENER
                     /\ socketToCallbackMap (snd (SSP_Listen w' s (Some cb') ud')) s
                        = Some cb
                     /\ socketToUserDataMap (snd (SSP_Listen w' s (Some cb') ud')) s
                        = ud).
  { intros w' Hi Ho Hc Hu cb' ud'. unfold SSP_Listen. rewrite Hi, Ho, Hc.
    cbn [negb fst snd].
    destruct (ReportErr_listeners w' SSP_DUPLICATE_LISTENER) as [-> ->].
    repeat split; assumption. }
  split; [reflexivity|]. split; [assumption|]. split; [assumption|].
  split.
  - intros cb' ud'.
    apply (Hdup wl); [exact Hinit | exact Hopen | exact Hcb | exact Hud].
  - intros portId cb' ud' Hp Hne.
    destruct (close_open_keeps_listener wl s portId Hs Hp Hne)
      as (C1 & C2 & C3 & C4 & C5 & C6).
    split; [exact C1|]. split; [exact C2|]. split; [exact C3|].
    apply Hdup.
    + rewrite C6. exact Hinit.
    + exact C3.
    + rewrite C4. exact Hcb.
    + rewrite C5. exact Hud.
Qed.

Lemma listen_once_per_socket_witness :
    let w := bound_socket in
    let w1 := snd (SSP_Listen w 0 (Some 100) 0) in
    fst (SSP_Listen w 0 (Some 100) 0) = SSP_SUCCESS
    /\ socketToCallbackMap w1 0 = Some 100
    /\ socketToUserDataMap w1 0 = 0
    /\ (forall cb' ud',
           fst (SSP_Listen w1 0 (Some cb') ud') = SSP_DUPLICATE_LISTENER
           /\ socketToCallbackMap (snd (SSP_Listen w1 0 (Some cb') ud')) 0
              = Some 100
           /\ socketToUserDataMap (snd (SSP_Listen w1 0 (Some cb') ud')) 0 = 0)
    /\ (forall portId cb' ud',
           portIsOpen w portId = true -> portId <> SSP_INVALID_PORT ->
           let w2 := snd (SSP_CloseSocket w1 0) in
           let w3 := snd (SSP_OpenSocket w2 portId 0) in
           fst (SSP_CloseSocket w1 0) = SSP_SUCCESS
           /\ fst (SSP_OpenSocket w2 portId 0) = SSP_SUCCESS
           /\ SSPCOM_IsSocketOpen w3 0 = true
           /\ fst (SSP_Listen w3 0 (Some cb') ud') = SSP_DUPLICATE_LISTENER
           /\ socketToCallbackMap (snd (SSP_Listen w3 0 (Some cb') ud')) 0
              = Some 100
           /\ socketToUserDataMap (snd (SSP_Listen w3 0 (Some cb') ud')) 0 = 0).
Proof.
  apply (listen_once_per_socket bound_socket 0 100 0); reflexivity.
Defined.

Lemma listen_per_binding_counterexample :
  let w1 := snd (SSP_Listen bound_socket 0 (Some 100) 0) in
  let w2 := snd (SSP_CloseSocket w1 0) in
  let w3 := snd (SSP_OpenSocket w2 SSP_PORT1 0) in
  fst (SSP_Listen bound_socket 0 (Some 100) 0) = SSP_SUCCESS
  /\ fst (SSP_CloseSocket w1 0) = SSP_SUCCESS
  /\ fst (SSP_OpenSocket w2 SSP_PORT1 0) = SSP_SUCCESS
  /\ fst (SSP_Listen w3 0 (Some 200) 0) = SSP_DUPLICATE_LISTENER
  /\ socketToCallbackMap (snd (SSP_Listen w3 0 (Some 200) 0)) 0 = Some 100.
Proof. vm_compute. repeat split; reflexivity. Qed.

(** * Send queue capacity *)

Lemma count_fold {A} (l : list A) : forall c,
  fold_left (fun size _ => u16 (size + 1)) l (u16 c)
  = u16 (c + Z.of_nat (length l)).
Proof.
  induction l as [|x l IH]; intros c.
  - cbn. rewrite Z.add_0_r. reflexivity.
  - cbn [fold_left length]. rewrite IH. unfold u16.
    rewrite <- Z.add_assoc, Zplus_mod_idemp_l. f_equal. lia.
Qed.

Lemma ListSize_length w portId :
  ListSize w portId = u16 (Z.of_nat (length (sendDataListHead w portId))).
Proof.
  unfold ListSize. change 0 with (u16 0) at 1. rewrite count_fold. reflexivity.
Qed.

Lemma ReportErr_queues w e :
  sendDataListHead (SSPCMN_ReportErr w e) = sendDataListHead w
  /\ sendTransId (SSPCMN_ReportErr w e) = sendTransId w.
Proof.
  unfold SSPCMN_ReportErr. cbn [errorHandlerFunc set_lastErr].
  destruct (errorHandlerFunc w); split; reflexivity.
Qed.

(** With the port's list at capacity, [SSP_SendMultiple] never reaches the
    allocation. *)
Lemma SendMultiple_at_capacity w src dst numData dataArray dataSizeArray portId
      e w' :
  SSPCOM_GetPortId w src = (SSP_SUCCESS, portId) ->
  Z.of_nat (length (sendDataListHead w portId)) = SSP_MAX_MESSAGES ->
  SSP_SendMultiple w src dst numData dataArray dataSizeArray = Some (e, w') ->
  sendDataListHead w' = sendDataListHead w
  /\ sendTransId w' = sendTransId w
  /\ (e = SSP_QUEUE_FULL \/ e = SSP_BAD_ARGUMENT \/ e = SSP_DATA_SIZE_TOO_LARGE)
  /\ (passes_argument_checks numData dataArray dataSizeArray ->
      e = SSP_QUEUE_FULL).
Proof.
  intros Hport Hfull Hcall.
  assert (Hsize : (ListSize w portId >=? SSP_MAX_MESSAGES) = true).
  { rewrite ListSize_length, Hfull. reflexivity. }
  unfold SSP_SendMultiple in Hcall.
  destruct dataArray as [[|[first|] others]|]; destruct dataSizeArray as [sizes|];
    try discriminate.
  all: try (match type of Hcall with
            | Some (SSP_BAD_ARGUMENT, _) = _ => idtac
            end;
        inversion Hcall; subst; clear Hcall;
        destruct (ReportErr_queues w SSP_BAD_ARGUMENT) as [Q1 Q2];
        split; [exact Q1|]; split; [exact Q2|];
        split; [right; left; reflexivity|];
        intros (f & o & s & n & E1 & E2 & _); discriminate).
  destruct (total_size (Z.to_nat numData) 0 sizes 0) as [dataSize|] eqn:Ht;
    [|discriminate].
  destruct (dataSize >? SSP_MAX_BODY_SIZE) eqn:Hbig.
  - inversion Hcall; subst; clear Hcall.
    destruct (ReportErr_queues w SSP_DATA_SIZE_TOO_LARGE) as [Q1 Q2].
    split; [exact Q1|]. split; [exact Q2|].
    split; [right; right; reflexivity|].
    intros (f & o & s & n & E1 & E2 & E3 & E4).
    inversion E2; subst. rewrite Ht in E3. inversion E3; subst.
    apply Z.gtb_lt in Hbig. lia.
  - rewrite Hport in Hcall. cbn [SspErr_eqb negb] in Hcall.
    rewrite Hsize in Hcall.
    inversion Hcall; subst; clear Hcall.
    destruct (ReportErr_queues w SSP_QUEUE_FULL) as [Q1 Q2].
    split; [exact Q1|]. split; [exact Q2|].
    split; [left; reflexivity|].
    intros _. reflexivity.
Qed.

(** With the list at capacity and arguments that pass the checks, the
    call returns, and what it returns is [SSP_QUEUE_FULL]. *)
Lemma SendMultiple_full w src dst numData dataArray dataSizeArray portId :
  SSPCOM_GetPortId w src = (SSP_SUCCESS, portId) ->
  Z.of_nat (length (sendDataListHead w portId)) = SSP_MAX_MESSAGES ->
  passes_argument_checks numData dataArray dataSizeArray ->
  SSP_SendMultiple w src dst numData dataArray dataSizeArray
  = Some (SSP_QUEUE_FULL, SSPCMN_ReportErr w SSP_QUEUE_FULL).
Proof.
  intros Hport Hfull (f & o & s & n & E1 & E2 & E3 & E4).
  assert (Hsize : (ListSize w portId >=? SSP_MAX_MESSAGES) = true).
  { rewrite ListSize_length, Hfull. reflexivity. }
  unfold SSP_SendMultiple. rewrite E1, E2, E3.
  replace (n >? SSP_MAX_BODY_SIZE) with false
    by (symmetry; rewrite Z.gtb_ltb; apply Z.ltb_ge; exact E4).
  rewrite Hport. cbn [SspErr_eqb negb]. rewrite Hsize. reflexivity.
Qed.

Lemma queues_shrink_refl w : queues_shrink w w.
Proof. intros p. lia. Qed.

Lemma queues_shrink_trans w1 w2 w3 :
  queues_shrink w1 w2 -> queues_shrink w2 w3 -> queues_shrink w1 w3.
Proof. intros H1 H2 p. specialize (H1 p). specialize (H2 p). lia. Qed.

Lemma queues_shrink_eq w w' :
  sendDataListHead w' = sendDataListHead w -> queues_shrink w w'.
Proof. intros H p. rewrite H. lia. Qed.

Lemma queues_shrink_set_list w portId l :
  (length l <= length (sendDataListHead w portId))%nat ->
  queues_shrink w (set_list w portId l).
Proof.
  intros H p. unfold set_list. cbn [sendDataListHead set_sendDataListHead].
  unfold upd. destruct (p =? portId) eqn:E; [|lia].
  apply Z.eqb_eq in E. subst. exact H.
Qed.

Lemma erase_first_length l h : (length (erase_first l h) <= length l)%nat.
Proof.
  induction l as [|c l IH]; [cbn; lia|].
  cbn [erase_first]. destruct (same_header _ _); cbn [length]; lia.
Qed.

Lemma timeout_walk_length now l : forall n,
  length (timeout_walk now l n) = length l.
Proof.
  induction l as [|e l IH]; intros n; [destruct n; reflexivity|].
  destruct n; [reflexivity|]. cbn [timeout_walk length]. rewrite IH.
  reflexivity.
Qed.

Section QueueFrames.

Variable pf : Platform.

Lemma SSPCOM_Send_queues w d :
  sendDataListHead (snd (SSPCOM_Send pf w d)) = sendDataListHead w.
Proof.
  unfold SSPCOM_Send, SSPHAL_PortSend.
  destruct (srcId (header d) >=? SSP_SOCKET_MAX); [reflexivity|].
  destruct (negb (SSPCOM_IsSocketOpen w (srcId (header d)))); [reflexivity|].
  destruct (SSPCOM_GetPortId w (srcId (header d))) as [e portId].
  destruct (negb (SspErr_eqb e SSP_SUCCESS)); [reflexivity|].
  destruct (negb (SSPCOM_IsPortOpen w portId)); [reflexivity|].
  destruct (portSendOk w portId); reflexivity.
Qed.

Lemma send_reply_queues w h t :
  sendDataListHead (send_reply pf w h t) = sendDataListHead w.
Proof.
  unfold send_reply. destruct (sspDataForAckNak w) as [d|]; [|reflexivity].
  pose proof (SSPCOM_Send_queues w (reply_to d h t)) as H.
  destruct (SSPCOM_Send pf w (reply_to d h t)) as [[r d1] w1].
  cbn [snd] in H. exact H.
Qed.

Lemma CallbackListener_queues w s d :
  sendDataListHead (CallbackListener w s d) = sendDataListHead w.
Proof.
  unfold CallbackListener. destruct (GetCallbackListener w s); reflexivity.
Qed.

Lemma NotifyListener_queues w s d :
  sendDataListHead (NotifyListener w s d) = sendDataListHead w.
Proof.
  unfold NotifyListener.
  destruct (negb (type (header d) =? MSG_TYPE_DATA)); [reflexivity|].
  destruct (negb (SspErr_eqb (err d) SSP_SUCCESS));
    [apply CallbackListener_queues|].
  destruct (SSPCOM_GetPortId w (srcId (header d))) as [e portId].
  destruct (SspErr_eqb e SSP_SUCCESS); [|reflexivity].
  destruct (dataType d); [|apply CallbackListener_queues].
  destruct (_ && _); [reflexivity|].
  rewrite CallbackListener_queues. reflexivity.
Qed.

Lemma ListErase_shrinks w portId e : queues_shrink w (ListErase w portId e).
Proof. apply queues_shrink_set_list, erase_first_length. Qed.

Lemma handle_ack_shrinks w portId h : queues_shrink w (handle_ack w portId h).
Proof.
  unfold handle_ack. destruct (ListFind w portId h) as [i|];
    [|apply queues_shrink_refl].
  set (l := modify_at _ _ _).
  assert (H1 : queues_shrink w (set_list w portId l)).
  { apply queues_shrink_set_list. unfold l. rewrite modify_at_length. lia. }
  destruct (nth_error l i) as [e|]; [|exact H1].
  eapply queues_shrink_trans; [exact H1|].
  eapply queues_shrink_trans; [|apply ListErase_shrinks].
  apply queues_shrink_eq, NotifyListener_queues.
Qed.

Lemma handle_nak_shrinks w portId h : queues_shrink w (handle_nak w portId h).
Proof.
  unfold handle_nak. destruct (ListFind w portId h) as [i|];
    [|apply queues_shrink_refl].
  apply queues_shrink_set_list. rewrite modify_at_length. lia.
Qed.

Lemma handle_data_shrinks w d : queues_shrink w (handle_data pf w d).
Proof.
  unfold handle_data, SendAck, SendNak.
  destruct (GetCallbackListener w (destId (header d))).
  - apply queues_shrink_eq. rewrite NotifyListener_queues.
    apply send_reply_queues.
  - apply queues_shrink_eq, send_reply_queues.
Qed.

Lemma dispatch_shrinks w portId e r : queues_shrink w (dispatch pf w portId e r).
Proof.
  unfold dispatch. destruct r as [d|]; [|apply queues_shrink_refl].
  destruct (SspErr_eqb e SSP_SUCCESS).
  - destruct (type (header d) =? MSG_TYPE_ACK); [apply handle_ack_shrinks|].
    destruct (type (header d) =? MSG_TYPE_NAK); [apply handle_nak_shrinks|].
    destruct (type (header d) =? MSG_TYPE_DATA); [apply handle_data_shrinks|].
    apply queues_shrink_refl.
  - destruct (_ && _); [|apply queues_shrink_refl].
    apply queues_shrink_eq, send_reply_queues.
Qed.

Lemma SSPCOM_ProcessReceive_queues w portId :
  sendDataListHead (snd (SSPCOM_ProcessReceive pf w portId)) = sendDataListHead w.
Proof.
  unfold SSPCOM_ProcessReceive.
  destruct (negb (SSPCOM_IsPortOpen w portId)); [reflexivity|].
  destruct (Receive pf (socketToPortIdMap w) (recvQueue w portId) (parser w))
    as [[e ps] rx].
  reflexivity.
Qed.

Lemma ProcessReceive_shrinks w portId : queues_shrink w (ProcessReceive pf w portId).
Proof.
  unfold ProcessReceive.
  set (w1 := match recvQueue w portId with [] => w | _ :: _ => _ end).
  assert (H1 : queues_shrink w w1).
  { unfold w1. destruct (recvQueue w portId); [apply queues_shrink_refl|].
    pose proof (SSPCOM_ProcessReceive_queues w portId) as H.
    destruct (SSPCOM_ProcessReceive pf w portId) as [[e r] w'].
    cbn [snd] in H.
    eapply queues_shrink_trans; [apply queues_shrink_eq; exact H|].
    apply dispatch_shrinks. }
  eapply queues_shrink_trans; [exact H1|].
  apply queues_shrink_set_list. rewrite timeout_walk_length. lia.
Qed.

Lemma ProcessSend_shrinks w portId : queues_shrink w (ProcessSend pf w portId).
Proof.
  unfold ProcessSend.
  destruct (sendDataListHead w portId) as [|e rest] eqn:El;
    [apply queues_shrink_refl|].
  destruct (state e); [|apply queues_shrink_refl].
  destruct (sendRetries e <=? SSP_MAX_RETRIES).
  - pose proof (SSPCOM_Send_queues w
                  (sspData (set_sendRetries e (u32 (sendRetries e + 1))))) as H.
    destruct (SSPCOM_Send pf w _) as [[r d1] w1]. cbn [snd] in H.
    eapply queues_shrink_trans; [apply queues_shrink_eq; exact H|].
    apply queues_shrink_set_list. rewrite H, El. cbn [length]. lia.
  - set (e2 := set_sspData _ _).
    assert (H1 : queues_shrink w (set_list w portId (e2 :: rest))).
    { apply queues_shrink_set_list. rewrite El. cbn [length]. lia. }
    eapply queues_shrink_trans; [exact H1|].
    eapply queues_shrink_trans; [|apply ListErase_shrinks].
    apply queues_shrink_eq, NotifyListener_queues.
Qed.

Lemma SSP_Process_shrinks w : queues_shrink w (SSP_Process pf w).
Proof.
  assert (Hp : forall portId w0 b,
             queues_shrink w0 (fst (process_port pf portId (w0, b)))).
  { intros portId w0 b. unfold process_port.
    destruct (SSPCOM_IsPortOpen w0 portId); [|apply queues_shrink_refl].
    cbn [fst].
    eapply queues_shrink_trans;
      [apply ProcessReceive_shrinks | apply ProcessSend_shrinks]. }
  unfold SSP_Process.
  pose proof (Hp SSP_PORT1 w true) as H1.
  destruct (process_port pf SSP_PORT1 (w, true)) as [wa ba].
  pose proof (Hp SSP_PORT2 wa ba) as H2.
  destruct (process_port pf SSP_PORT2 (wa, ba)) as [wb bb].
  cbn [fst] in *.
  eapply queues_shrink_trans; [exact H1|].
  eapply queues_shrink_trans; [exact H2|].
  destruct bb; apply queues_shrink_eq; reflexivity.
Qed.

End QueueFrames.

Lemma queues_bounded_shrink w w' :
  queues_bounded w -> queues_shrink w w' -> queues_bounded w'.
Proof. intros Hb Hs p. specialize (Hb p). specialize (Hs p). lia. Qed.

Lemma SendMultiple_bounded w src dst numData dataArray dataSizeArray e w' :
  queues_bounded w ->
  SSP_SendMultiple w src dst numData dataArray dataSizeArray = Some (e, w') ->
  queues_bounded w'.
Proof.
  intros Hb Hcall.
  assert (Herr : forall x, queues_bounded (SSPCMN_ReportErr w x)).
  { intros x p. destruct (ReportErr_queues w x) as [-> _]. apply Hb. }
  unfold SSP_SendMultiple in Hcall.
  destruct dataArray as [[|[first|] others]|]; destruct dataSizeArray as [sizes|];
    try discriminate;
    try (inversion Hcall; subst; apply Herr).
  destruct (total_size (Z.to_nat numData) 0 sizes 0) as [dataSize|];
    [|discriminate].
  destruct (dataSize >? SSP_MAX_BODY_SIZE);
    [inversion Hcall; subst; apply Herr|].
  destruct (SSPCOM_GetPortId w src) as [r portId].
  destruct (negb (SspErr_eqb r SSP_SUCCESS));
    [inversion Hcall; subst; apply Herr|].
  destruct (ListSize w portId >=? SSP_MAX_MESSAGES) eqn:Hfull;
    [inversion Hcall; subst; apply Herr|].
  destruct (AllocSendData w dataSize) as [sendData|];
    [|inversion Hcall; subst; apply Herr].
  destruct (if dataSize >? 0 then _ else _) as [[[] b]|];
    try discriminate; try (inversion Hcall; subst; apply Herr).
  inversion Hcall; subst; clear Hcall.
  intros p. unfold ListInsert, set_list.
  cbn [sendDataListHead set_powerSave set_sendDataListHead set_sendTransId].
  unfold upd. destruct (p =? portId) eqn:E; [|apply Hb].
  apply Z.eqb_eq in E. subst p.
  rewrite length_app. cbn [length].
  rewrite ListSize_length in Hfull.
  specialize (Hb portId). unfold SSP_MAX_MESSAGES in *.
  unfold u16 in Hfull. rewrite Z.mod_small in Hfull by lia.
  rewrite Z.geb_leb in Hfull. apply Z.leb_gt in Hfull. lia.
Qed.

Lemma api_keeps_queues w portId socketId cb ud :
  sendDataListHead (snd (SSP_Init w portId)) = sendDataListHead w
  /\ sendDataListHead (snd (SSP_OpenSocket w portId socketId)) = sendDataListHead w
  /\ sendDataListHead (snd (SSP_CloseSocket w socketId)) = sendDataListHead w
  /\ sendDataListHead (snd (SSP_Listen w socketId cb ud)) = sendDataListHead w.
Proof.
  repeat split.
  - unfold SSP_Init. destruct (initOnce w); reflexivity.
  - unfold SSP_OpenSocket, SSPCOM_OpenSocket.
    destruct (negb (SSPCOM_IsPortOpen w portId)); [reflexivity|].
    destruct (socketId >=? SSP_SOCKET_MAX); [reflexivity|].
    destruct (SSPCOM_IsSocketOpen w socketId); reflexivity.
  - unfold SSP_CloseSocket, SSPCOM_CloseSocket.
    destruct (socketId >=? SSP_SOCKET_MAX); reflexivity.
  - unfold SSP_Listen.
    destruct (negb (initOnce w)); [apply ReportErr_queues|].
    destruct cb; [|apply ReportErr_queues].
    destruct (negb (SSPCOM_IsSocketOpen w socketId)); [apply ReportErr_queues|].
    destruct (socketToCallbackMap w socketId);
      [apply ReportErr_queues | reflexivity].
Qed.

(** C7, amended.  When the send list of the port a socket is bound to
    holds [SSP_MAX_MESSAGES] entries, every [SSP_SendMultiple] (hence
    every [SSP_Send]) on that socket whose behaviour is defined fails and
    leaves the send lists and the transaction counter as they are; it
    returns [SSP_QUEUE_FULL] when the arguments pass the checks that come
    first (non-null arrays, 16-bit total within [SSP_MAX_BODY_SIZE]) and
    [SSP_BAD_ARGUMENT] or [SSP_DATA_SIZE_TOO_LARGE] otherwise.  The bound
    of [SSP_MAX_MESSAGES] entries per port holds at start-up and is kept by
    [SSP_SendMultiple], [SSP_Process], [SSP_Init], [SSP_OpenSocket],
    [SSP_CloseSocket] and [SSP_Listen]. *)
Theorem send_queue_capacity :
  (forall w src dst numData dataArray dataSizeArray portId e w',
      SSPCOM_GetPortId w src = (SSP_SUCCESS, portId) ->
      Z.of_nat (length (sendDataListHead w portId)) = SSP_MAX_MESSAGES ->
      SSP_SendMultiple w src dst numData dataArray dataSizeArray = Some (e, w') ->
      sendDataListHead w' = sendDataListHead w
      /\ sendTransId w' = sendTransId w
      /\ (e = SSP_QUEUE_FULL \/ e = SSP_BAD_ARGUMENT
          \/ e = SSP_DATA_SIZE_TOO_LARGE)
      /\ (passes_argument_checks numData dataArray dataSizeArray ->
          e = SSP_QUEUE_FULL))
  /\ (forall w src dst numData dataArray dataSizeArray portId,
         SSPCOM_GetPortId w src = (SSP_SUCCESS, portId) ->
         Z.of_nat (length (sendDataListHead w portId)) = SSP_MAX_MESSAGES ->
         passes_argument_checks numData dataArray dataSizeArray ->
         SSP_SendMultiple w src dst numData dataArray dataSizeArray
         = Some (SSP_QUEUE_FULL, SSPCMN_ReportErr w SSP_QUEUE_FULL))
  /\ queues_bounded World_zero
  /\ (forall w src dst numData dataArray dataSizeArray e w',
         queues_bounded w ->
         SSP_SendMultiple w src dst numData dataArray dataSizeArray
         = Some (e, w') ->
         queues_bounded w')
  /\ (forall pf w, queues_bounded w -> queues_bounded (SSP_Process pf w))
  /\ (forall w portId socketId cb ud,
         queues_bounded w ->
         queues_bounded (snd (SSP_Init w portId))
         /\ queues_bounded (snd (SSP_OpenSocket w portId socketId))
         /\ queues_bounded (snd (SSP_CloseSocket w socketId))
         /\ queues_bounded (snd (SSP_Listen w socketId cb ud))).
Proof.
  split; [|split; [|split; [|split; [|split]]]].
  - intros. eapply SendMultiple_at_capacity; eassumption.
  - intros. eapply SendMultiple_full; eassumption.
  - intros p. cbn. unfold SSP_MAX_MESSAGES. lia.
  - intros. eapply SendMultiple_bounded; eassumption.
  - intros pf w Hb. eapply queues_bounded_shrink; [exact Hb|].
    apply SSP_Process_shrinks.
  - intros w portId socketId cb ud Hb.
    destruct (api_keeps_queues w portId socketId cb ud) as (A1 & A2 & A3 & A4).
    repeat split; intros p; rewrite ?A1, ?A2, ?A3, ?A4; apply Hb.
Qed.

Lemma send_queue_capacity_witness :
  SSPCOM_GetPortId full_queue 0 = (SSP_SUCCESS, SSP_PORT1)
  /\ Z.of_nat (length (sendDataListHead full_queue SSP_PORT1)) = SSP_MAX_MESSAGES
  /\ passes_argument_checks 1 (Some [Some [121]]) (Some [1])
  /\ SSP_Send full_queue 0 1 (Some [121]) 1
     = Some (SSP_QUEUE_FULL, SSPCMN_ReportErr full_queue SSP_QUEUE_FULL)
  /\ sendDataListHead (SSPCMN_ReportErr full_queue SSP_QUEUE_FULL)
     = sendDataListHead full_queue
  /\ sendTransId (SSPCMN_ReportErr full_queue SSP_QUEUE_FULL)
     = sendTransId full_queue.
Proof.
  assert (H1 : SSPCOM_GetPortId full_queue 0 = (SSP_SUCCESS, SSP_PORT1))
    by reflexivity.
  assert (H2 : Z.of_nat (length (sendDataListHead full_queue SSP_PORT1))
               = SSP_MAX_MESSAGES) by reflexivity.
  assert (H3 : SSP_SendMultiple full_queue 0 1 1 (Some [Some [121]]) (Some [1])
               = Some (SSP_QUEUE_FULL,
                       SSPCMN_ReportErr full_queue SSP_QUEUE_FULL))
    by reflexivity.
  assert (H4 : passes_argument_checks 1 (Some [Some [121]]) (Some [1])).
  { exists [121], [], [1], 1. repeat split; try reflexivity.
    unfold SSP_MAX_BODY_SIZE, SSP_MAX_PACKET_SIZE, sizeof_SspPacketHeader. lia. }
  destruct (proj1 send_queue_capacity full_queue 0 1 1 (Some [Some [121]])
              (Some [1]) SSP_PORT1 SSP_QUEUE_FULL
              (SSPCMN_ReportErr full_queue SSP_QUEUE_FULL) H1 H2 H3)
    as (Q1 & Q2 & _ & _).
  repeat split; assumption.
Defined.

(** C7 as stated fails: with the list of port 1 at capacity, a send whose
    payload is too large is answered [SSP_DATA_SIZE_TOO_LARGE], not
    [SSP_QUEUE_FULL]; the size check comes first. *)
Lemma send_queue_capacity_counterexample :
  Z.of_nat (length (sendDataListHead full_queue SSP_PORT1)) = SSP_MAX_MESSAGES
  /\ SSPCOM_GetPortId full_queue 0 = (SSP_SUCCESS, SSP_PORT1)
  /\ SSP_Send full_queue 0 1 (Some (repeat 0 100)) 100
     = Some (SSP_DATA_SIZE_TOO_LARGE,
             SSPCMN_ReportErr full_queue SSP_DATA_SIZE_TOO_LARGE)
  /\ SSP_DATA_SIZE_TOO_LARGE <> SSP_QUEUE_FULL.
Proof. repeat split; try reflexivity. discriminate. Qed.

(** * The 16-bit total of [SSP_SendMultiple] *)

Lemma total_size_wraps sizes : forall n i acc,
  (i + n = length sizes)%nat ->
  total_size n i sizes (u16 acc)
  = Some (u16 (acc + true_total (skipn i sizes))).
Proof.
  intros n. induction n as [|n IH]; intros i acc Hn.
  - cbn [total_size]. rewrite skipn_all2 by lia. cbn. rewrite Z.add_0_r.
    reflexivity.
  - cbn [total_size].
    destruct (nth_error sizes i) as [sz|] eqn:E.
    2:{ apply nth_error_None in E. lia. }
    rewrite IH by lia. f_equal.
    assert (Hs : skipn i sizes = sz :: skipn (S i) sizes).
    { clear - E. revert i E. induction sizes as [|x l IHl]; intros i E.
      - destruct i; discriminate.
      - destruct i; cbn in *; [congruence|]. apply IHl. exact E. }
    rewrite Hs. cbn [true_total fold_right]. fold (true_total (skipn (S i) sizes)).
    unfold u16. rewrite <- Z.add_assoc, Zplus_mod_idemp_l. reflexivity.
Qed.



(** * Reception of a NAK *)

Lemma find_from_none l h : forall i,
  Forall (fun x => correlates x h = false) l -> find_from l h i = None.
Proof.
  induction l as [|e l IH]; intros i H; [reflexivity|].
  inversion H; subst. cbn [find_from]. rewrite H2. apply IH. assumption.
Qed.

Lemma find_from_first l1 e l2 h : forall i,
  Forall (fun x => correlates x h = false) l1 ->
  correlates e h = true ->
  find_from (l1 ++ e :: l2) h i = Some (i + length l1)%nat.
Proof.
  induction l1 as [|x l1 IH]; intros i H He.
  - cbn. rewrite He. f_equal. lia.
  - inversion H; subst. cbn [app find_from]. rewrite H2.
    rewrite IH by assumption. f_equal. cbn [length]. lia.
Qed.

Lemma modify_at_middle {A} (f : A -> A) l1 e l2 :
  modify_at (l1 ++ e :: l2) (length l1) f = l1 ++ f e :: l2.
Proof.
  induction l1 as [|x l1 IH]; [reflexivity|].
  cbn [app length modify_at]. rewrite IH. reflexivity.
Qed.

(** C8.  A successfully received NAK is dispatched to the NAK branch.  When
    an entry of the port's send list correlates with it (entry source =
    NAK destination, entry destination = NAK source, same transaction
    identifier), the first such entry gets its state set to [SEND_STATE]:
    its retry count, time stamp and packet, the entries before and after
    it and their order are as before, and nothing else in the program
    state changes.  When no entry correlates, the program state is
    unchanged altogether. *)
Theorem nak_resets_state_only :
  forall pf w portId d,
    type (header d) = MSG_TYPE_NAK ->
    let w' := dispatch pf w portId SSP_SUCCESS (Some d) in
    (forall l1 e l2,
        sendDataListHead w portId = l1 ++ e :: l2 ->
        Forall (fun x => correlates x (header d) = false) l1 ->
        correlates e (header d) = true ->
        w' = set_list w portId (l1 ++ set_state e SEND_STATE :: l2)
        /\ sendDataListHead w' portId = l1 ++ set_state e SEND_STATE :: l2
        /\ state (set_state e SEND_STATE) = SEND_STATE
        /\ sendRetries (set_state e SEND_STATE) = sendRetries e
        /\ sendTickStamp (set_state e SEND_STATE) = sendTickStamp e
        /\ sspData (set_state e SEND_STATE) = sspData e)
    /\ (Forall (fun x => correlates x (header d) = false)
               (sendDataListHead w portId) ->
        w' = w).
Proof.
  intros pf w portId d Ht w'.
  assert (Hd : w' = handle_nak w portId (header d)).
  { unfold w', dispatch. cbn [SspErr_eqb]. rewrite Ht. reflexivity. }
  split.
  - intros l1 e l2 Hl Hno He.
    assert (E : w' = set_list w portId (l1 ++ set_state e SEND_STATE :: l2)).
    { rewrite Hd. unfold handle_nak, ListFind. rewrite Hl.
      rewrite (find_from_first l1 e l2 (header d) 0 Hno He).
      cbn [Nat.add]. rewrite modify_at_middle. reflexivity. }
    split; [exact E|]. split.
    + rewrite E. unfold set_list.
      cbn [sendDataListHead set_sendDataListHead]. apply upd_same.
    + repeat split.
  - intros Hno. rewrite Hd. unfold handle_nak, ListFind.
    rewrite (find_from_none _ _ 0 Hno). reflexivity.
Qed.

Lemma nak_resets_state_only_witness :
  let d := seal host_le (frame 1 0 MSG_TYPE_NAK 0 []) in
  let w' := dispatch host_le awaiting_ack SSP_PORT1 SSP_SUCCESS (Some d) in
  exists e,
    sendDataListHead awaiting_ack SSP_PORT1 = [e]
    /\ state e = RECEIVE_STATE
    /\ sendRetries e = 1
    /\ w' = set_list awaiting_ack SSP_PORT1 [set_state e SEND_STATE]
    /\ sendDataListHead w' SSP_PORT1 = [set_state e SEND_STATE].
Proof.
  intros d w'.
  destruct (sendDataListHead awaiting_ack SSP_PORT1) as [|e l] eqn:E;
    [discriminate|].
  destruct l as [|e' l]; [|discriminate].
  exists e.
  assert (He : correlates e (header d) = true).
  { injection E as <-. reflexivity. }
  destruct (proj1 (nak_resets_state_only host_le awaiting_ack SSP_PORT1 d
                     eq_refl) [] e [] E (Forall_nil _) He)
    as (R1 & R2 & _).
  split; [reflexivity|].
  split; [injection E as <-; reflexivity|].
  split; [injection E as <-; reflexivity|].
  split; [exact R1 | exact R2].
Defined.

(** * Arrival of DATA packets *)

Section Arrival.

Variable pf : Platform.

Lemma packet_bytes_reply ack h msgType :
  body ack = [] -> packetSize ack = SSP_PACKET_SIZE 0 ->
  packet_bytes pf (seal pf (reply_to ack h msgType))
  = reply_bytes pf msgType (srcId h) (destId h) (transId h).
Proof.
  intros Hb Hp.
  destruct ack as [e ty c psz [a0 a1 a2 a3 a4 a5 a6 a7] bd].
  cbn [body packetSize] in Hb, Hp. subst bd psz. reflexivity.
Qed.

Lemma reply_keeps_shape ack h msgType :
  body ack = [] -> packetSize ack = SSP_PACKET_SIZE 0 ->
  body (seal pf (reply_to ack h msgType)) = []
  /\ packetSize (seal pf (reply_to ack h msgType)) = SSP_PACKET_SIZE 0.
Proof. intros Hb Hp. split; [exact Hb | exact Hp]. Qed.

(** A reply is sent when the socket it leaves from is bound to an open
    port that accepts bytes. *)
Lemma send_reply_ok w h msgType ack :
  sspDataForAckNak w = Some ack ->
  body ack = [] -> packetSize ack = SSP_PACKET_SIZE 0 ->
  0 <= destId h < SSP_SOCKET_MAX ->
  socketToPortIdMap w (destId h) <> SSP_INVALID_PORT ->
  portIsOpen w (socketToPortIdMap w (destId h)) = true ->
  portSendOk w (socketToPortIdMap w (destId h)) = true ->
  send_reply pf w h msgType
  = set_sspDataForAckNak
      (emit w (EvPortSend (socketToPortIdMap w (destId h))
                 (reply_bytes pf msgType (srcId h) (destId h) (transId h))))
      (Some (seal pf (reply_to ack h msgType))).
Proof.
  intros Hack Hb Hp Hd Hbound Hopen Hok.
  unfold send_reply. rewrite Hack.
  rewrite (SSPCOM_Send_ok pf w (reply_to ack h msgType)).
  - rewrite packet_bytes_reply by assumption. reflexivity.
  - exact Hd.
  - exact Hbound.
  - exact Hopen.
  - exact Hok.
Qed.

(** What [SSPCOM_ProcessReceive] returns when a sealed packet for a bound
    socket is at the front of the port's queue. *)
Lemma SSPCOM_ProcessReceive_sealed w portId d rest :
  LE pf = true -> portIsOpen w portId = true -> idle (parser w) ->
  sendable d ->
  0 <= destId (header d) < SSP_SOCKET_MAX ->
  socketToPortIdMap w (destId (header d)) <> SSP_INVALID_PORT ->
  recvQueue w portId = packet_bytes pf (seal pf d) ++ rest ->
  SSPCOM_ProcessReceive pf w portId
  = (SSP_SUCCESS,
     Some (sspDataRecv (accepted pf (parser w) (seal pf d))),
     set_recvQueue (set_parser w (accepted pf (parser w) (seal pf d)))
                   (upd (recvQueue w) portId rest)).
Proof.
  intros Hle Hopen (Hs & Hb & Hl) Hd Hdst Hbound Hq.
  unfold SSPCOM_ProcessReceive, SSPCOM_IsPortOpen. rewrite Hopen. cbn [negb].
  unfold Receive. rewrite Hq.
  rewrite (Receive_loop_sealed pf (socketToPortIdMap w) d (parser w) rest
             Hle Hs Hb).
  - unfold accepted at 1. rewrite save_history_sspDataRecv. reflexivity.
  - rewrite Hl. destruct Hd as (_ & Hm & _).
    unfold SSP_MAX_BODY_SIZE, SSP_MAX_PACKET_SIZE, sizeof_SspPacketHeader in *.
    lia.
  - exact Hd.
  - lia.
  - exact Hbound.
Qed.

End Arrival.

Section Arrival2.

Variable pf : Platform.

Lemma ProcessReceive_nonempty w portId :
  recvQueue w portId <> [] ->
  ProcessReceive pf w portId
  = let w1 :=
      let '(e, received, w') := SSPCOM_ProcessReceive pf w portId in
      dispatch pf w' portId e received in
    set_list w1 portId
      (timeout_walk (tickCount w1) (sendDataListHead w1 portId)
                    (Z.to_nat SSP_MAX_MESSAGES)).
Proof.
  intros H. unfold ProcessReceive.
  destruct (recvQueue w portId); [congruence | reflexivity].
Qed.

Lemma packet_bytes_nonempty d rest :
  sendable d -> packet_bytes pf (seal pf d) ++ rest <> [].
Proof.
  intros Hd. rewrite (packet_bytes_sealed pf d Hd). discriminate.
Qed.


Lemma accepted_header ps d :
  header (sspDataRecv (accepted pf ps d)) = header d.
Proof. unfold accepted. rewrite save_history_sspDataRecv. reflexivity. Qed.

Lemma data_frame_sealed_header src dst trans p :
  Z.of_nat (length p) <= SSP_MAX_BODY_SIZE ->
  header (seal pf (data_frame src dst trans p))
  = sealed_header dst src MSG_TYPE_DATA trans p.
Proof.
  intros Hp. destruct (packet_bytes_data_frame pf src dst trans p Hp) as (H & _).
  exact H.
Qed.

End Arrival2.


Section Duplicates.

Variable pf : Platform.

Lemma accepted_idle ps d :
  idle ps -> (length (body d) <= length (body (sspDataRecv ps)))%nat ->
  idle (accepted pf ps d)
  /\ dataType (sspDataRecv (accepted pf ps d)) = dataType (sspDataRecv ps).
Proof.
  intros (Hs & Hb & Hl) Hfit. unfold idle, accepted.
  rewrite save_history_parseState, save_history_parseBytes,
    save_history_sspDataRecv.
  cbn [parseState parseBytes sspDataRecv body dataType].
  rewrite blit_length. repeat split; assumption.
Qed.

(** One arrival of a DATA packet for a socket with a listener: the ACK
    goes out first; the listener is invoked unless the port's record of
    the last reception already holds the packet's transaction identifier
    and CRC; the record holds them afterwards, and the receiver is ready
    for the next packet. *)
Lemma data_arrival w portId src dst trans p rest cb :
  receiver_ready pf w portId dst ->
  Z.of_nat (length p) <= SSP_MAX_BODY_SIZE ->
  socketToCallbackMap w dst = Some cb ->
  0 <= src < SSP_SOCKET_MAX ->
  socketToPortIdMap w src <> SSP_INVALID_PORT ->
  recvQueue w portId
  = packet_bytes pf (seal pf (data_frame src dst trans p)) ++ rest ->
  let w' := ProcessReceive pf w portId in
  let q := socketToPortIdMap w src in
  let c := crc (seal pf (data_frame src dst trans p)) in
  let known := (fst (lastReceivedTransId w q) =? trans)
               && (snd (lastReceivedTransId w q) =? c) in
  log w'
  = log w
    ++ EvPortSend (socketToPortIdMap w dst)
                  (reply_bytes pf MSG_TYPE_ACK src dst trans)
    :: (if known then []
        else [EvCallback cb dst p (Z.of_nat (length p)) SSP_RECEIVE
                         SSP_SUCCESS (socketToUserDataMap w dst)])
  /\ lastReceivedTransId w' q = (trans, c)
  /\ recvQueue w' portId = rest
  /\ receiver_ready pf w' portId dst
  /\ socketToPortIdMap w' = socketToPortIdMap w
  /\ socketToCallbackMap w' = socketToCallbackMap w
  /\ socketToUserDataMap w' = socketToUserDataMap w.
Proof.
  intros (Hle & Hopen & Hidle & Hty & Hdst & Hbound & Hpo & Hok
          & ack & Hack & Hab & Hap) Hp Hcb Hsrc Hsb Hq w' q c known.
  pose proof (sendable_frame src dst MSG_TYPE_DATA trans p Hp) as Hsd.
  fold (data_frame src dst trans p) in Hsd.
  assert (Hne : recvQueue w portId <> []).
  { rewrite Hq. apply packet_bytes_nonempty. exact Hsd. }
  assert (Hfit : (length (body (seal pf (data_frame src dst trans p)))
                  <= length (body (sspDataRecv (parser w))))%nat).
  { destruct Hidle as (_ & _ & Hl). rewrite Hl. cbn [body seal data_frame frame].
    change (body (seal pf (data_frame src dst trans p))) with p.
    unfold SSP_MAX_BODY_SIZE, SSP_MAX_PACKET_SIZE, sizeof_SspPacketHeader in *.
    lia. }
  destruct (accepted_idle (parser w) _ Hidle Hfit) as [Hidle' Hty'].
  unfold w'. rewrite (ProcessReceive_nonempty pf w portId Hne).
  rewrite (SSPCOM_ProcessReceive_sealed pf w portId _ rest Hle Hopen Hidle
             Hsd Hdst Hbound Hq).
  set (ps' := accepted pf (parser w) _) in *.
  set (w1 := set_recvQueue _ _).
  set (dr := sspDataRecv ps').
  assert (Hh : header dr = sealed_header dst src MSG_TYPE_DATA trans p).
  { unfold dr, ps'. rewrite accepted_header.
    apply data_frame_sealed_header. exact Hp. }
  assert (Hdr : err dr = SSP_SUCCESS /\ crc dr = c
                /\ firstn (length p) (body dr) = p).
  { unfold dr, ps', accepted. rewrite save_history_sspDataRecv.
    cbn [err crc body]. repeat split.
    change (body (seal pf (data_frame src dst trans p))) with p.
    apply firstn_blit. exact Hfit. }
  destruct Hdr as (Herr & Hcrc & Hbody).
  cbv zeta. unfold dispatch. cbn [SspErr_eqb]. rewrite Hh.
  cbn [type sealed_header set_checksum].
  replace (MSG_TYPE_DATA =? MSG_TYPE_ACK) with false by reflexivity.
  replace (MSG_TYPE_DATA =? MSG_TYPE_NAK) with false by reflexivity.
  rewrite Z.eqb_refl.
  unfold handle_data, GetCallbackListener. rewrite Hh.
  cbn [destId sealed_header set_checksum].
  replace (socketToCallbackMap w1 dst) with (socketToCallbackMap w dst)
    by reflexivity.
  rewrite Hcb. unfold SendAck.
  rewrite (send_reply_ok pf w1 _ MSG_TYPE_ACK ack Hack Hab Hap);
    [| exact Hdst | exact Hbound | exact Hpo | exact Hok].
  cbn [destId srcId transId sealed_header set_checksum].
  set (ev := EvPortSend _ _).
  set (w2 := set_sspDataForAckNak _ _).
  unfold NotifyListener. rewrite Hh, Herr.
  cbn [type srcId transId sealed_header set_checksum].
  rewrite Z.eqb_refl. cbn [negb SspErr_eqb].
  unfold SSPCOM_GetPortId.
  replace (src >=? SSP_SOCKET_MAX) with false
    by (symmetry; rewrite Z.geb_leb; apply Z.leb_gt; lia).
  replace (socketToPortIdMap w2 src) with q by reflexivity.
  replace (q =? SSP_INVALID_PORT) with false
    by (symmetry; apply Z.eqb_neq; exact Hsb).
  cbn [SspErr_eqb].
  replace (dataType dr) with SSP_RECEIVE by (unfold dr; congruence).
  replace (lastReceivedTransId w2 q) with (lastReceivedTransId w q)
    by reflexivity.
  rewrite Hcrc. fold known.
  assert (Hready : forall wx,
             portIsOpen wx = portIsOpen w -> parser wx = ps' ->
             socketToPortIdMap wx = socketToPortIdMap w ->
             portSendOk wx = portSendOk w ->
             sspDataForAckNak wx
             = Some (seal pf (reply_to ack
                                (sealed_header dst src MSG_TYPE_DATA trans p)
                                MSG_TYPE_ACK)) ->
             receiver_ready pf wx portId dst).
  { intros wx E1 E2 E3 E4 E5. unfold receiver_ready.
    rewrite E1, E2, E3, E4.
    repeat split; try assumption; try lia.
    - apply Hidle'.
    - apply Hidle'.
    - apply Hidle'.
    - congruence.
    - eexists. split; [exact E5|]. split; [exact Hab | exact Hap]. }
  destruct known eqn:Hk.
  - (* already known: no callback *)
    split; [reflexivity|].
    split.
    { unfold known in Hk. apply andb_prop in Hk. destruct Hk as [K1 K2].
      apply Z.eqb_eq in K1. apply Z.eqb_eq in K2.
      cbn [lastReceivedTransId set_list set_sendDataListHead].
      change (lastReceivedTransId w2 q) with (lastReceivedTransId w q).
      destruct (lastReceivedTransId w q) as [a b]. cbn [fst snd] in *.
      congruence. }
    split; [cbn; apply upd_same|].
    split; [apply Hready; reflexivity|].
    repeat split.
  - unfold CallbackListener, GetCallbackListener.
    cbn [socketToCallbackMap set_lastReceivedTransId w2 set_sspDataForAckNak
         emit w1 set_recvQueue set_parser].
    rewrite Hcb, Hh. cbn [bodySize sealed_header set_checksum].
    rewrite Nat2Z.id, Hbody.
    replace (dataType dr) with SSP_RECEIVE by (unfold dr; congruence).
    rewrite Herr.
    split.
    { cbn [log set_list set_sendDataListHead emit socketToUserDataMap
           set_lastReceivedTransId w2 set_sspDataForAckNak w1 set_recvQueue
           set_parser].
      rewrite <- app_assoc. reflexivity. }
    split; [cbn; apply upd_same|].
    split; [cbn; apply upd_same|].
    split; [apply Hready; reflexivity|].
    repeat split.
Qed.

End Duplicates.






(** * Retry budget *)

Lemma same_setup_refl w : same_setup w w.
Proof. repeat split. Qed.

Lemma same_setup_trans w1 w2 w3 :
  same_setup w1 w2 -> same_setup w2 w3 -> same_setup w1 w3.
Proof.
  intros (A1 & A2 & A3 & A4 & A5 & A6) (B1 & B2 & B3 & B4 & B5 & B6).
  repeat split; congruence.
Qed.

Lemma same_setup_tick w t : same_setup w (set_tickCount w t).
Proof. repeat split. Qed.

Lemma seal_seal pf d : seal pf (seal pf d) = seal pf d.
Proof. destruct d as [e ty c psz [a0 a1 a2 a3 a4 a5 a6 a7] bd]. reflexivity. Qed.

Lemma seal_fields pf d :
  srcId (header (seal pf d)) = srcId (header d)
  /\ type (header (seal pf d)) = type (header d)
  /\ bodySize (header (seal pf d)) = bodySize (header d)
  /\ body (seal pf d) = body d
  /\ dataType (seal pf d) = dataType d.
Proof. destruct d as [e ty c psz [a0 a1 a2 a3 a4 a5 a6 a7] bd]. repeat split. Qed.

Lemma same_header_refl h : same_header h h = true.
Proof. unfold same_header. rewrite !Z.eqb_refl. reflexivity. Qed.

Section Rounds.

Variable pf : Platform.

(** The timeout walk over a one-entry list. *)
Lemma walk_single now e :
  timeout_walk now [e] (Z.to_nat SSP_MAX_MESSAGES)
  = [match state e with
     | RECEIVE_STATE =>
         if u32 (now - sendTickStamp e) >? SSP_ACK_TIMEOUT
         then set_state e SEND_STATE else e
     | SEND_STATE => e
     end].
Proof. reflexivity. Qed.

Lemma ProcessReceive_quiet w portId :
  recvQueue w portId = [] ->
  ProcessReceive pf w portId
  = set_list w portId
      (timeout_walk (tickCount w) (sendDataListHead w portId)
                    (Z.to_nat SSP_MAX_MESSAGES)).
Proof. intros H. unfold ProcessReceive. rewrite H. reflexivity. Qed.


(** A call at which the entry is due and has retries left transmits it. *)
Lemma round_transmit w portId e cb :
  sendDataListHead w portId = [e] -> recvQueue w portId = [] ->
  due e (tickCount w) ->
  0 <= sendRetries e <= SSP_MAX_RETRIES ->
  sender_ready w (sspData e) cb ->
  let w' := port_round pf w portId in
  sendDataListHead w' portId
  = [mkSendData (tickCount w) (sendRetries e + 1) RECEIVE_STATE
                (seal pf (sspData e))]
  /\ log w' = log w ++ [transmission pf w (sspData e)]
  /\ same_setup w w'.
Proof.
  intros Hl Hq Hdue Hr (Hs & Hb & Ho & Hk & _ & _) w'. unfold w', port_round.
  rewrite (ProcessReceive_quiet w portId Hq), Hl, walk_single.
  set (e' := match state e with RECEIVE_STATE => _ | SEND_STATE => _ end).
  assert (He' : e' = set_state e SEND_STATE).
  { unfold e'. destruct Hdue as [H|[H1 H2]].
    - rewrite H. destruct e; cbn in *; subst; reflexivity.
    - rewrite H1.
      replace (u32 (tickCount w - sendTickStamp e) >? SSP_ACK_TIMEOUT) with true
        by (symmetry; apply Z.gtb_lt; lia).
      reflexivity. }
  rewrite He'.
  unfold ProcessSend.
  replace (sendDataListHead (set_list w portId [set_state e SEND_STATE]) portId)
    with [set_state e SEND_STATE]
    by (unfold set_list; cbn [sendDataListHead set_sendDataListHead];
        rewrite upd_same; reflexivity).
  cbn [state set_state sendRetries].
  replace (sendRetries e <=? SSP_MAX_RETRIES) with true
    by (symmetry; apply Z.leb_le; lia).
  cbn [sspData set_sendRetries set_state].
  rewrite (SSPCOM_Send_ok pf (set_list w portId [set_state e SEND_STATE])
             (sspData e) Hs Hb Ho Hk).
  cbn [SspErr_eqb].
  assert (Hu : u32 (sendRetries e + 1) = sendRetries e + 1).
  { unfold u32. apply Z.mod_small. unfold SSP_MAX_RETRIES in Hr. lia. }
  rewrite Hu.
  split; [|split].
  - unfold set_list. cbn [sendDataListHead set_sendDataListHead emit].
    rewrite upd_same. reflexivity.
  - reflexivity.
  - repeat split.
Qed.


(** A call with nothing queued and nothing arriving changes nothing. *)
Lemma round_empty w portId :
  sendDataListHead w portId = [] -> recvQueue w portId = [] ->
  let w' := port_round pf w portId in
  sendDataListHead w' portId = [] /\ log w' = log w /\ same_setup w w'.
Proof.
  intros Hl Hq w'. unfold w', port_round.
  rewrite (ProcessReceive_quiet w portId Hq), Hl.
  unfold ProcessSend, set_list.
  cbn [timeout_walk sendDataListHead set_sendDataListHead].
  rewrite upd_same.
  cbn [sendDataListHead set_sendDataListHead]. rewrite upd_same.
  repeat split.
Qed.

End Rounds.

Section Budget.

Variable pf : Platform.
Variable w0 : World.
Variable portId : Z.
Variable e0 : SendData.
Variable cb : Z.

Hypothesis Hstate0 : state e0 = SEND_STATE.
Hypothesis Hretries0 : sendRetries e0 = 0.
Hypothesis Hsender : sender_ready w0 (sspData e0) cb.
Hypothesis Hquiet : recvQueue w0 portId = [].









End Budget.

(** For an open port [SSP_Process] does [port_round]. *)
Lemma process_port_round pf w portId b :
  portIsOpen w portId = true ->
  fst (process_port pf portId (w, b)) = port_round pf w portId.
Proof.
  intros H. unfold process_port, SSPCOM_IsPortOpen. rewrite H. reflexivity.
Qed.




(** * The socket table *)

Lemma GetPortId_bound w s :
  0 <= s < SSP_SOCKET_MAX -> socketToPortIdMap w s <> SSP_INVALID_PORT ->
  SSPCOM_GetPortId w s = (SSP_SUCCESS, socketToPortIdMap w s).
Proof.
  intros Hs Hb. unfold SSPCOM_GetPortId.
  replace (s >=? SSP_SOCKET_MAX) with false
    by (symmetry; rewrite Z.geb_leb; apply Z.leb_gt; lia).
  apply Z.eqb_neq in Hb. rewrite Hb. reflexivity.
Qed.

Lemma IsSocketOpen_spec w s :
  SSPCOM_IsSocketOpen w s = true
  <-> s < SSP_SOCKET_MAX /\ socketToPortIdMap w s <> SSP_INVALID_PORT.
Proof.
  unfold SSPCOM_IsSocketOpen.
  destruct (s >=? SSP_SOCKET_MAX) eqn:E.
  - rewrite Z.geb_leb in E. apply Z.leb_le in E.
    split; [discriminate | intros [H _]; lia].
  - rewrite Z.geb_leb in E. apply Z.leb_gt in E.
    rewrite negb_true_iff, Z.eqb_neq. split; [intros H; split; [lia | exact H] | intros [_ H]; exact H].
Qed.

(** X1.  [SSP_OpenSocket] on an open port binds a socket that is in range
    and not yet open: the call succeeds, [SSPCOM_GetPortId] then returns
    the port, the socket counts as open, and no other socket's binding
    changes.  While the socket is open, every further [SSP_OpenSocket] on
    it, on whatever open port, returns [SSP_SOCKET_ALREADY_OPEN] and
    changes nothing. *)
Theorem open_socket_binds :
  forall w portId s,
    portIsOpen w portId = true -> portId <> SSP_INVALID_PORT ->
    0 <= s < SSP_SOCKET_MAX ->
    SSPCOM_IsSocketOpen w s = false ->
    let w1 := snd (SSP_OpenSocket w portId s) in
    fst (SSP_OpenSocket w portId s) = SSP_SUCCESS
    /\ SSPCOM_GetPortId w1 s = (SSP_SUCCESS, portId)
    /\ SSPCOM_IsSocketOpen w1 s = true
    /\ (forall s', s' <> s -> SSPCOM_GetPortId w1 s' = SSPCOM_GetPortId w s')
    /\ (forall portId',
           portIsOpen w portId' = true ->
           SSP_OpenSocket w1 portId' s = (SSP_SOCKET_ALREADY_OPEN, w1)).
Proof.
  intros w portId s Hp Hne Hs Hclosed w1.
  assert (Hge : (s >=? SSP_SOCKET_MAX) = false)
    by (rewrite Z.geb_leb; apply Z.leb_gt; lia).
  assert (E : SSP_OpenSocket w portId s
              = (SSP_SUCCESS,
                 set_socketToPortIdMap w (upd (socketToPortIdMap w) s portId))).
  { unfold SSP_OpenSocket, SSPCOM_OpenSocket, SSPCOM_IsPortOpen.
    rewrite Hp, Hge, Hclosed. reflexivity. }
  unfold w1. rewrite E. cbn [fst snd].
  set (w' := set_socketToPortIdMap w _).
  assert (Hm : socketToPortIdMap w' s = portId) by apply upd_same.
  assert (Hopen : SSPCOM_IsSocketOpen w' s = true).
  { apply IsSocketOpen_spec. rewrite Hm. split; [lia | exact Hne]. }
  split; [reflexivity|]. split.
  { rewrite GetPortId_bound; [rewrite Hm; reflexivity | exact Hs |].
    rewrite Hm. exact Hne. }
  split; [exact Hopen|]. split.
  - intros s' Hs'. unfold SSPCOM_GetPortId, w'.
    cbn [socketToPortIdMap set_socketToPortIdMap].
    rewrite (upd_other _ _ _ _ Hs'). reflexivity.
  - intros portId' Hp'.
    unfold SSP_OpenSocket, SSPCOM_OpenSocket, SSPCOM_IsPortOpen.
    replace (portIsOpen w' portId') with true by (symmetry; exact Hp').
    rewrite Hge, Hopen. reflexivity.
Qed.

Lemma open_socket_binds_witness :
  let w := snd (SSP_Init World_zero SSP_PORT1) in
  let w1 := snd (SSP_OpenSocket w SSP_PORT1 2) in
  fst (SSP_OpenSocket w SSP_PORT1 2) = SSP_SUCCESS
  /\ SSPCOM_GetPortId w1 2 = (SSP_SUCCESS, SSP_PORT1)
  /\ SSPCOM_IsSocketOpen w1 2 = true
  /\ (forall s', s' <> 2 -> SSPCOM_GetPortId w1 s' = SSPCOM_GetPortId w s')
  /\ (forall portId',
         portIsOpen w portId' = true ->
         SSP_OpenSocket w1 portId' 2 = (SSP_SOCKET_ALREADY_OPEN, w1)).
Proof.
  apply (open_socket_binds (snd (SSP_Init World_zero SSP_PORT1)) SSP_PORT1 2).
  - reflexivity.
  - unfold SSP_PORT1, SSP_INVALID_PORT. lia.
  - unfold SSP_SOCKET_MAX. lia.
  - reflexivity.
Defined.


(** X3.  [SSP_CloseSocket] on a socket identifier in range always
    succeeds, also when the socket was not open.  Afterwards the socket is
    not open and [SSPCOM_GetPortId] returns [SSP_SOCKET_NOT_OPEN]; other
    sockets keep their binding; the send lists keep the messages the
    socket had queued; and such a message can no longer be transmitted:
    [SSPCOM_Send] returns [SSP_SOCKET_NOT_OPEN] and hands nothing to the
    port. *)
Theorem close_socket_unbinds :
  forall pf w s d,
    0 <= s < SSP_SOCKET_MAX ->
    srcId (header d) = s ->
    let w1 := snd (SSP_CloseSocket w s) in
    fst (SSP_CloseSocket w s) = SSP_SUCCESS
    /\ SSPCOM_IsSocketOpen w1 s = false
    /\ SSPCOM_GetPortId w1 s = (SSP_SOCKET_NOT_OPEN, SSP_INVALID_PORT)
    /\ (forall s', s' <> s -> SSPCOM_GetPortId w1 s' = SSPCOM_GetPortId w s')
    /\ sendDataListHead w1 = sendDataListHead w
    /\ SSPCOM_Send pf w1 d = (SSP_SOCKET_NOT_OPEN, d, w1).
Proof.
  intros pf w s d Hs Hd w1.
  assert (Hge : (s >=? SSP_SOCKET_MAX) = false)
    by (rewrite Z.geb_leb; apply Z.leb_gt; lia).
  assert (E : SSP_CloseSocket w s
              = (SSP_SUCCESS,
                 set_socketToPortIdMap w
                   (upd (socketToPortIdMap w) s SSP_INVALID_PORT))).
  { unfold SSP_CloseSocket, SSPCOM_CloseSocket. rewrite Hge. reflexivity. }
  unfold w1. rewrite E. cbn [fst snd].
  set (w' := set_socketToPortIdMap w _).
  assert (Hm : socketToPortIdMap w' s = SSP_INVALID_PORT) by apply upd_same.
  assert (Hclosed : SSPCOM_IsSocketOpen w' s = false).
  { unfold SSPCOM_IsSocketOpen. rewrite Hge, Hm. reflexivity. }
  split; [reflexivity|]. split; [exact Hclosed|]. split.
  { unfold SSPCOM_GetPortId. rewrite Hge, Hm. reflexivity. }
  split.
  { intros s' Hs'. unfold SSPCOM_GetPortId, w'.
    cbn [socketToPortIdMap set_socketToPortIdMap].
    rewrite (upd_other _ _ _ _ Hs'). reflexivity. }
  split; [reflexivity|].
  unfold SSPCOM_Send. rewrite Hd, Hge, Hclosed. reflexivity.
Qed.

Lemma close_socket_unbinds_witness :
  let d := sspData (hd (mkSendData 0 0 SEND_STATE (data_frame 0 1 0 []))
                       (sendDataListHead (send1 testbed) SSP_PORT1)) in
  let w1 := snd (SSP_CloseSocket (send1 testbed) 0) in
  fst (SSP_CloseSocket (send1 testbed) 0) = SSP_SUCCESS
  /\ SSPCOM_IsSocketOpen w1 0 = false
  /\ SSPCOM_GetPortId w1 0 = (SSP_SOCKET_NOT_OPEN, SSP_INVALID_PORT)
  /\ (forall s', s' <> 0 ->
                 SSPCOM_GetPortId w1 s' = SSPCOM_GetPortId (send1 testbed) s')
  /\ sendDataListHead w1 = sendDataListHead (send1 testbed)
  /\ SSPCOM_Send host_le w1 d = (SSP_SOCKET_NOT_OPEN, d, w1).
Proof.
  apply (close_socket_unbinds host_le (send1 testbed) 0).
  - unfold SSP_SOCKET_MAX. lia.
  - reflexivity.
Defined.

(** * Error reporting *)

Lemma ReportErr_spec w e :
  SSP_GetLastErr (SSPCMN_ReportErr w e) = e
  /\ log (SSPCMN_ReportErr w e) = log w ++ report_events w e
  /\ errorHandlerFunc (SSPCMN_ReportErr w e) = errorHandlerFunc w.
Proof.
  unfold SSPCMN_ReportErr, report_events, SSP_GetLastErr, SSPCMN_GetLastErr.
  cbn [errorHandlerFunc set_lastErr].
  destruct (errorHandlerFunc w) eqn:E.
  - cbn [lastErr emit set_lastErr log errorHandlerFunc].
    split; [reflexivity|]. split; [reflexivity | exact E].
  - cbn [lastErr emit set_lastErr log errorHandlerFunc]. rewrite app_nil_r.
    split; [reflexivity|]. split; [reflexivity | exact E].
Qed.

Lemma SSP_Listen_outcome w s cb ud :
  (fst (SSP_Listen w s cb ud) <> SSP_SUCCESS ->
   snd (SSP_Listen w s cb ud)
   = SSPCMN_ReportErr w (fst (SSP_Listen w s cb ud)))
  /\ (fst (SSP_Listen w s cb ud) = SSP_SUCCESS ->
      lastErr (snd (SSP_Listen w s cb ud)) = lastErr w
      /\ log (snd (SSP_Listen w s cb ud)) = log w).
Proof.
  unfold SSP_Listen.
  destruct (initOnce w); cbn [negb fst snd];
    [|split; [reflexivity | discriminate]].
  destruct cb as [c|]; cbn [fst snd]; [|split; [reflexivity | discriminate]].
  destruct (SSPCOM_IsSocketOpen w s); cbn [negb fst snd];
    [|split; [reflexivity | discriminate]].
  destruct (socketToCallbackMap w s); cbn [fst snd];
    [split; [reflexivity | discriminate]|].
  split; [congruence | split; reflexivity].
Qed.

Lemma SSP_SendMultiple_outcome w src dst numData dataArray dataSizeArray e w' :
  SSP_SendMultiple w src dst numData dataArray dataSizeArray = Some (e, w') ->
  (e <> SSP_SUCCESS -> w' = SSPCMN_ReportErr w e)
  /\ (e = SSP_SUCCESS -> lastErr w' = lastErr w /\ log w' = log w).
Proof.
  unfold SSP_SendMultiple. intros H.
  destruct dataArray as [[|[first|] others]|]; destruct dataSizeArray as [sizes|];
    try discriminate;
    try (inversion H; subst; split; [reflexivity | discriminate]).
  destruct (total_size (Z.to_nat numData) 0 sizes 0) as [dataSize|];
    [|discriminate].
  destruct (dataSize >? SSP_MAX_BODY_SIZE);
    [inversion H; subst; split; [reflexivity | discriminate]|].
  destruct (SSPCOM_GetPortId w src) as [e0 portId].
  destruct (negb (SspErr_eqb e0 SSP_SUCCESS));
    [inversion H; subst; split; [reflexivity | discriminate]|].
  destruct (ListSize w portId >=? SSP_MAX_MESSAGES);
    [inversion H; subst; split; [reflexivity | discriminate]|].
  destruct (AllocSendData w dataSize) as [sd|];
    [|inversion H; subst; split; [reflexivity | discriminate]].
  destruct (if dataSize >? 0 then _ else _) as [[r b]|]; [|discriminate].
  destruct r; inversion H; subst;
    try (split; [reflexivity | discriminate]).
  split; [congruence|]. intros _. split; reflexivity.
Qed.

(** X4.  Every failure of [SSP_Listen] and of [SSP_SendMultiple] (hence of
    [SSP_Send]) goes through [SSPCMN_ReportErr] and does nothing else: the
    returned error becomes what [SSP_GetLastErr] returns, the installed
    error handler, if any, is called exactly once with it, and the rest of
    the program state (bindings, listeners, send lists, transaction
    counter) is as before.  A successful call calls no handler and leaves
    the last error as it was: the last error is never reset. *)
Theorem failures_are_reported :
  (forall w s cb ud,
      let e := fst (SSP_Listen w s cb ud) in
      let w' := snd (SSP_Listen w s cb ud) in
      (e <> SSP_SUCCESS ->
       w' = SSPCMN_ReportErr w e
       /\ SSP_GetLastErr w' = e
       /\ log w' = log w ++ report_events w e)
      /\ (e = SSP_SUCCESS ->
          SSP_GetLastErr w' = SSP_GetLastErr w /\ log w' = log w))
  /\ (forall w src dst numData dataArray dataSizeArray e w',
         SSP_SendMultiple w src dst numData dataArray dataSizeArray
         = Some (e, w') ->
         (e <> SSP_SUCCESS ->
          w' = SSPCMN_ReportErr w e
          /\ SSP_GetLastErr w' = e
          /\ log w' = log w ++ report_events w e)
         /\ (e = SSP_SUCCESS ->
             SSP_GetLastErr w' = SSP_GetLastErr w /\ log w' = log w))
  /\ (forall w e,
         sendDataListHead (SSPCMN_ReportErr w e) = sendDataListHead w
         /\ sendTransId (SSPCMN_ReportErr w e) = sendTransId w
         /\ socketToPortIdMap (SSPCMN_ReportErr w e) = socketToPortIdMap w
         /\ socketToCallbackMap (SSPCMN_ReportErr w e) = socketToCallbackMap w
         /\ socketToUserDataMap (SSPCMN_ReportErr w e) = socketToUserDataMap w)
  /\ (forall w handler e,
         log (SSPCMN_ReportErr (SSP_SetErrorHandler w (Some handler)) e)
         = log w ++ [EvErrorHandler handler e]).
Proof.
  split; [|split; [|split]].
  - intros w s cb ud e w'.
    destruct (SSP_Listen_outcome w s cb ud) as [F S]. fold e w' in F, S.
    split.
    + intros He. rewrite (F He).
      destruct (ReportErr_spec w e) as (A & B & _). repeat split; assumption.
    + intros He. exact (S He).
  - intros w src dst numData dataArray dataSizeArray e w' H.
    destruct (SSP_SendMultiple_outcome _ _ _ _ _ _ _ _ H) as [F S].
    split.
    + intros He. rewrite (F He).
      destruct (ReportErr_spec w e) as (A & B & _). repeat split; assumption.
    + intros He. exact (S He).
  - intros w e.
    destruct (ReportErr_queues w e) as [A B].
    destruct (ReportErr_sockets w e) as (C & _).
    destruct (ReportErr_listeners w e) as [D E].
    repeat split; assumption.
  - intros w handler e. reflexivity.
Qed.

(** * The send call *)

Lemma blit_app a : forall l k b,
  blit l k (a ++ b) = blit (blit l k a) (k + length a) b.
Proof.
  induction a as [|x a IH]; intros l k b.
  - cbn. rewrite Nat.add_0_r. reflexivity.
  - cbn [app blit length]. rewrite IH.
    replace (S k + length a)%nat with (k + S (length a))%nat by lia.
    reflexivity.
Qed.

Lemma blit_all p l : length p = length l -> blit l 0 p = p.
Proof.
  intros H. rewrite blit_spec by (rewrite H; cbn; lia).
  cbn [firstn Nat.add app]. rewrite H, skipn_all. apply app_nil_r.
Qed.

Lemma true_total_app a b : true_total (a ++ b) = true_total a + true_total b.
Proof.
  unfold true_total. induction a as [|x a IH]; cbn; [reflexivity|].
  cbn in IH. rewrite IH. lia.
Qed.

Lemma buffers_fit_total bufs sizes :
  buffers_fit bufs sizes ->
  Z.of_nat (length (gather bufs sizes)) = true_total sizes
  /\ 0 <= true_total sizes.
Proof.
  unfold buffers_fit. induction 1 as [|buf sz bufs sizes (src & -> & Hsz) _ IH].
  - cbn. lia.
  - cbn [gather]. rewrite length_app, length_firstn.
    change (true_total (sz :: sizes)) with (sz + true_total sizes). lia.
Qed.

Lemma buffers_fit_nonneg bufs sizes :
  buffers_fit bufs sizes -> forall x, In x sizes -> 0 <= x.
Proof.
  unfold buffers_fit. induction 1 as [|buf sz bufs sizes (src & _ & Hsz) _ IH];
    intros x Hx; [destruct Hx|].
  destruct Hx as [<-|Hx]; [lia | apply IH; exact Hx].
Qed.

Lemma true_total_nonneg l : (forall x, In x l -> 0 <= x) -> 0 <= true_total l.
Proof.
  induction l as [|a l IH]; intros H; [cbn; lia|].
  change (true_total (a :: l)) with (a + true_total l).
  pose proof (H a (or_introl eq_refl)).
  assert (0 <= true_total l) by (apply IH; intros x Hx; apply H; right; exact Hx).
  lia.
Qed.

Lemma skipn_nth {A} (l : list A) : forall i x,
  nth_error l i = Some x -> skipn i l = x :: skipn (S i) l.
Proof.
  induction l as [|y t IH]; intros i x E.
  - destruct i; discriminate.
  - destruct i as [|i]; cbn in E |- *.
    + inversion E; reflexivity.
    + apply IH. exact E.
Qed.

Lemma true_total_cons a l : true_total (a :: l) = a + true_total l.
Proof. reflexivity. Qed.

Lemma true_total_firstn_S sizes : forall i sz,
  nth_error sizes i = Some sz ->
  true_total (firstn (S i) sizes) = true_total (firstn i sizes) + sz.
Proof.
  induction sizes as [|y t IH]; intros i sz E.
  - destruct i; discriminate.
  - destruct i as [|i].
    + cbn in E. inversion E; subst. cbn. lia.
    + cbn [nth_error] in E.
      rewrite (firstn_cons (S i) y t), (firstn_cons i y t), !true_total_cons.
      rewrite (IH i sz E). lia.
Qed.

Lemma true_total_split sizes i :
  true_total sizes = true_total (firstn i sizes) + true_total (skipn i sizes).
Proof. rewrite <- (firstn_skipn i sizes) at 1. apply true_total_app. Qed.

Lemma Forall2_nth {A B} (P : A -> B -> Prop) l1 l2 :
  Forall2 P l1 l2 -> forall i a b,
  nth_error l1 i = Some a -> nth_error l2 i = Some b -> P a b.
Proof.
  induction 1 as [|a0 b0 l1 l2 H0 _ IH]; intros i a b Ea Eb.
  - destruct i; discriminate.
  - destruct i as [|i]; cbn in Ea, Eb.
    + inversion Ea; inversion Eb; subst. exact H0.
    + eapply IH; eassumption.
Qed.

(** The copy loop from buffer [i] on, [bytesCopied] bytes already in
    place. *)
Lemma copy_body_gathers bufs sizes dataSize : forall n i dest,
  buffers_fit bufs sizes ->
  (i + n = length sizes)%nat ->
  dataSize = true_total sizes -> dataSize < 65536 ->
  copy_body n i bufs sizes dataSize (true_total (firstn i sizes)) dest
  = Some (SSP_SUCCESS,
          blit dest (Z.to_nat (true_total (firstn i sizes)))
               (gather (skipn i bufs) (skipn i sizes))).
Proof.
  intros n. induction n as [|n IH]; intros i dest Hfit Hn Hds Hlt.
  - cbn [copy_body].
    replace i with (length sizes) by lia.
    rewrite (skipn_all sizes).
    assert (Hl : length bufs = length sizes) by (eapply Forall2_length; eassumption).
    rewrite <- Hl, skipn_all.
    reflexivity.
  - cbn [copy_body].
    assert (Hl : length bufs = length sizes) by (eapply Forall2_length; eassumption).
    assert (Hi : (i < length sizes)%nat) by lia.
    destruct (nth_error sizes i) as [sz|] eqn:Es;
      [|apply nth_error_None in Es; lia].
    destruct (nth_error bufs i) as [buf|] eqn:Eb;
      [|apply nth_error_None in Eb; lia].
    destruct (Forall2_nth _ _ _ Hfit i buf sz Eb Es) as (src & -> & Hsz).
    pose proof (skipn_nth _ _ _ Eb) as Hbsplit.
    pose proof (skipn_nth _ _ _ Es) as Hssplit.
    pose proof (true_total_firstn_S _ _ _ Es) as Hnext.
    pose proof (true_total_split sizes i) as Htot.
    rewrite Hssplit in Htot.
    change (true_total (sz :: skipn (S i) sizes))
      with (sz + true_total (skipn (S i) sizes)) in Htot.
    pose proof (buffers_fit_nonneg _ _ Hfit) as Hnn.
    set (bc := true_total (firstn i sizes)) in *.
    assert (Hbc0 : 0 <= bc).
    { unfold bc. apply true_total_nonneg. intros x Hx. apply Hnn.
      rewrite <- (firstn_skipn i sizes). apply in_or_app. left. exact Hx. }
    assert (Hrest0 : 0 <= true_total (skipn (S i) sizes)).
    { apply true_total_nonneg. intros x Hx. apply Hnn.
      rewrite <- (firstn_skipn (S i) sizes). apply in_or_app. right. exact Hx. }
    replace (u16 (dataSize - bc)) with (dataSize - bc)
      by (unfold u16; rewrite Z.mod_small; lia).
    replace (dataSize - bc <=? dataSize) with true
      by (symmetry; apply Z.leb_le; lia).
    replace (sz <=? Z.of_nat (length src)) with true
      by (symmetry; apply Z.leb_le; lia).
    replace (bc + sz <=? dataSize) with true
      by (symmetry; apply Z.leb_le; lia).
    cbn [andb].
    replace (u16 (bc + sz)) with (true_total (firstn (S i) sizes))
      by (rewrite Hnext; unfold u16; rewrite Z.mod_small; lia).
    rewrite (IH (S i) _ Hfit ltac:(lia) Hds Hlt).
    rewrite Hbsplit, Hssplit. cbn [gather]. rewrite blit_app.
    f_equal. f_equal. f_equal.
    rewrite Hnext, length_firstn. lia.
Qed.

(** The successful path of [SSP_SendMultiple]. *)
Lemma SendMultiple_ok w src dst numData first others sizes portId :
  SSPCOM_GetPortId w src = (SSP_SUCCESS, portId) ->
  Z.of_nat (length (sendDataListHead w portId)) < SSP_MAX_MESSAGES ->
  allocOk w = true ->
  Z.to_nat numData = length sizes ->
  buffers_fit (Some first :: others) sizes ->
  true_total sizes <= SSP_MAX_BODY_SIZE ->
  SSP_SendMultiple w src dst numData (Some (Some first :: others)) (Some sizes)
  = Some (SSP_SUCCESS,
          set_powerSave
            (ListInsert (set_sendTransId w (u8 (sendTransId w + 1))) portId
               (queued_entry src dst (sendTransId w)
                  (gather (Some first :: others) sizes))) false).
Proof.
  intros Hport Hroom Halloc Hn Hfit Hmax.
  set (p := gather (Some first :: others) sizes).
  destruct (buffers_fit_total _ _ Hfit) as [Hlen Hnn]. fold p in Hlen.
  assert (H54 : SSP_MAX_BODY_SIZE = 54) by reflexivity.
  assert (Ht : total_size (Z.to_nat numData) 0 sizes 0
               = Some (true_total sizes)).
  { pose proof (total_size_wraps sizes (Z.to_nat numData) 0%nat 0
                  ltac:(lia)) as H.
    change (u16 0) with 0 in H. cbn [skipn] in H.
    rewrite Z.add_0_l in H. rewrite H. unfold u16.
    rewrite Z.mod_small by lia. reflexivity. }
  assert (Hsize : (ListSize w portId >=? SSP_MAX_MESSAGES) = false).
  { rewrite ListSize_length. unfold u16, SSP_MAX_MESSAGES in *.
    rewrite Z.mod_small by lia. rewrite Z.geb_leb. apply Z.leb_gt. lia. }
  assert (Hbody :
    (if true_total sizes >? 0
     then copy_body (Z.to_nat numData) 0 (Some first :: others) sizes
                    (true_total sizes) 0
                    (repeat 0 (Z.to_nat (true_total sizes)))
     else Some (SSP_SUCCESS, repeat 0 (Z.to_nat (true_total sizes))))
    = Some (SSP_SUCCESS, p)).
  { destruct (true_total sizes >? 0) eqn:Epos.
    - pose proof (copy_body_gathers (Some first :: others) sizes
                    (true_total sizes) (Z.to_nat numData) 0%nat
                    (repeat 0 (Z.to_nat (true_total sizes)))
                    Hfit ltac:(lia) eq_refl ltac:(lia)) as H.
      cbn [firstn skipn] in H. change (true_total []) with 0 in H.
      rewrite H. fold p. f_equal. f_equal.
      apply blit_all. rewrite repeat_length. lia.
    - f_equal. f_equal.
      assert (true_total sizes = 0)
        by (rewrite Z.gtb_ltb in Epos; apply Z.ltb_ge in Epos; lia).
      assert (length p = 0%nat) by lia.
      destruct p; [|discriminate]. rewrite H. reflexivity. }
  unfold SSP_SendMultiple. rewrite Ht.
  replace (true_total sizes >? SSP_MAX_BODY_SIZE) with false
    by (symmetry; rewrite Z.gtb_ltb; apply Z.ltb_ge; exact Hmax).
  rewrite Hport. cbn [SspErr_eqb negb]. rewrite Hsize.
  unfold AllocSendData. rewrite Halloc.
  cbn [sspData body SSPCOM_AllocateSspData].
  unfold SSPCOM_AllocateSspData at 1. cbn [body].
  rewrite Hbody.
  unfold queued_entry, data_frame, frame, SSPCOM_AllocateSspData.
  rewrite Hlen. reflexivity.
Qed.

(** X5.  [SSP_SendMultiple] with well-formed arguments (as many sizes as
    [numData] says, every buffer non-null and at least as long as its
    size, the sizes adding up to at most [SSP_MAX_BODY_SIZE]) on a bound
    socket whose port has room, with a block left in the allocator:
    the call returns [SSP_SUCCESS] and appends one entry to the end of the
    port's send list.  The entry is in [SEND_STATE] with no retries used;
    its packet is a DATA packet from the source to the destination socket
    whose body is the buffers' bytes one after the other and whose
    transaction identifier is the counter's value, and the counter moves
    on by one modulo 256.  Power saving is switched off.  Nothing is
    transmitted by the call itself. *)
Theorem send_multiple_queues :
  forall w src dst numData first others sizes portId,
    SSPCOM_GetPortId w src = (SSP_SUCCESS, portId) ->
    Z.of_nat (length (sendDataListHead w portId)) < SSP_MAX_MESSAGES ->
    allocOk w = true ->
    Z.to_nat numData = length sizes ->
    buffers_fit (Some first :: others) sizes ->
    true_total sizes <= SSP_MAX_BODY_SIZE ->
    let p := gather (Some first :: others) sizes in
    let w' := set_powerSave
                (ListInsert (set_sendTransId w (u8 (sendTransId w + 1))) portId
                            (queued_entry src dst (sendTransId w) p)) false in
    SSP_SendMultiple w src dst numData (Some (Some first :: others)) (Some sizes)
    = Some (SSP_SUCCESS, w')
    /\ sendDataListHead w' portId
       = sendDataListHead w portId ++ [queued_entry src dst (sendTransId w) p]
    /\ Z.of_nat (length p) = true_total sizes
    /\ sendTransId w' = u8 (sendTransId w + 1)
    /\ powerSave w' = false
    /\ log w' = log w.
Proof.
  intros w src dst numData first others sizes portId Hport Hroom Halloc Hn
         Hfit Hmax p w'.
  destruct (buffers_fit_total _ _ Hfit) as [Hlen _]. fold p in Hlen.
  split.
  { unfold w', p. apply SendMultiple_ok; assumption. }
  split.
  { unfold w', ListInsert, set_list.
    cbn [sendDataListHead set_powerSave set_sendDataListHead set_sendTransId].
    rewrite upd_same. reflexivity. }
  split; [exact Hlen|]. repeat split.
Qed.

Lemma send_multiple_queues_witness :
  let p := gather [Some [1; 2; 3]; Some [4; 5]] [2; 2] in
  let w' := set_powerSave
              (ListInsert (set_sendTransId testbed (u8 (sendTransId testbed + 1)))
                          SSP_PORT1
                          (queued_entry 0 1 (sendTransId testbed) p)) false in
  SSP_SendMultiple testbed 0 1 2 (Some [Some [1; 2; 3]; Some [4; 5]])
                   (Some [2; 2])
  = Some (SSP_SUCCESS, w')
  /\ sendDataListHead w' SSP_PORT1
     = sendDataListHead testbed SSP_PORT1
       ++ [queued_entry 0 1 (sendTransId testbed) p]
  /\ Z.of_nat (length p) = true_total [2; 2]
  /\ sendTransId w' = u8 (sendTransId testbed + 1)
  /\ powerSave w' = false
  /\ log w' = log testbed.
Proof.
  apply (send_multiple_queues testbed 0 1 2 [1; 2; 3] [Some [4; 5]] [2; 2]
           SSP_PORT1).
  - reflexivity.
  - vm_compute. reflexivity.
  - reflexivity.
  - reflexivity.
  - repeat constructor; eexists; (split; [reflexivity | cbn; lia]).
  - vm_compute. discriminate.
Defined.

(** * Reception of an ACK *)

Lemma same_header_correlates a b h :
  same_header (header (sspData a)) (header (sspData b)) = true ->
  correlates a h = correlates b h.
Proof.
  unfold same_header, correlates. intros H.
  repeat (apply andb_true_iff in H; destruct H as [H ?]).
  repeat match goal with E : (_ =? _) = true |- _ => apply Z.eqb_eq in E end.
  congruence.
Qed.

Lemma erase_first_middle l1 e l2 h :
  Forall (fun x => same_header (header (sspData x)) h = false) l1 ->
  same_header (header (sspData e)) h = true ->
  erase_first (l1 ++ e :: l2) h = l1 ++ l2.
Proof.
  induction 1 as [|x l1 Hx _ IH]; intros He.
  - cbn. rewrite He. reflexivity.
  - cbn [app erase_first]. rewrite Hx, (IH He). reflexivity.
Qed.

Lemma erase_first_none l h :
  Forall (fun x => same_header (header (sspData x)) h = false) l ->
  erase_first l h = l.
Proof.
  induction 1 as [|x l Hx _ IH]; [reflexivity|].
  cbn [erase_first]. rewrite Hx, IH. reflexivity.
Qed.

(** An entry that the first correlating one follows has another header. *)
Lemma no_correlate_other_header l1 e h :
  Forall (fun x => correlates x h = false) l1 ->
  correlates e h = true ->
  Forall (fun x => same_header (header (sspData x)) (header (sspData e)) = false)
         l1.
Proof.
  intros Hno He. eapply Forall_impl; [|exact Hno].
  intros x Hx. cbv beta in Hx.
  destruct (same_header (header (sspData x)) (header (sspData e))) eqn:E;
    [|reflexivity].
  rewrite (same_header_correlates x e h E) in Hx. congruence.
Qed.

Lemma set_list_list w portId l :
  sendDataListHead (set_list w portId l) portId = l.
Proof.
  unfold set_list. cbn [sendDataListHead set_sendDataListHead]. apply upd_same.
Qed.

Lemma set_list_other w portId l q :
  q <> portId ->
  sendDataListHead (set_list w portId l) q = sendDataListHead w q.
Proof.
  intros H. unfold set_list. cbn [sendDataListHead set_sendDataListHead].
  apply upd_other. exact H.
Qed.

(** The callback of [NotifyListener] for a packet of the send list. *)
Lemma NotifyListener_sent w d :
  type (header d) = MSG_TYPE_DATA -> dataType d = SSP_SEND ->
  0 <= srcId (header d) < SSP_SOCKET_MAX ->
  socketToPortIdMap w (srcId (header d)) <> SSP_INVALID_PORT ->
  NotifyListener w (srcId (header d)) (set_err d SSP_SUCCESS)
  = match socketToCallbackMap w (srcId (header d)) with
    | Some cb => emit w (success_notice w d cb)
    | None => w
    end.
Proof.
  intros Ht Hty Hs Hb. unfold NotifyListener.
  cbn [header set_err err dataType]. rewrite Ht, Z.eqb_refl. cbn [negb SspErr_eqb].
  rewrite (GetPortId_bound w _ Hs Hb). cbn [SspErr_eqb]. rewrite Hty.
  unfold CallbackListener, GetCallbackListener, success_notice.
  cbn [header body dataType err set_err]. rewrite Hty.
  destruct (socketToCallbackMap w (srcId (header d))); reflexivity.
Qed.

(** The ACK branch on the first correlating entry. *)
Lemma handle_ack_first w portId h l1 e l2 :
  sendDataListHead w portId = l1 ++ e :: l2 ->
  Forall (fun x => correlates x h = false) l1 ->
  correlates e h = true ->
  let e' := set_sspData e (set_err (sspData e) SSP_SUCCESS) in
  let w1 := set_list w portId (l1 ++ e' :: l2) in
  let w2 := NotifyListener w1 (srcId (header (sspData e'))) (sspData e') in
  handle_ack w portId h = set_list w2 portId (l1 ++ l2).
Proof.
  intros Hl Hno He e' w1 w2.
  unfold handle_ack, ListFind. rewrite Hl.
  rewrite (find_from_first l1 e l2 h 0 Hno He). cbn [Nat.add].
  rewrite modify_at_middle. fold e'. fold w1.
  rewrite nth_error_app2 by lia. rewrite Nat.sub_diag. cbn [nth_error].
  fold w2. unfold ListErase.
  replace (sendDataListHead w2 portId) with (l1 ++ e' :: l2).
  2:{ unfold w2. rewrite NotifyListener_queues. unfold w1.
      rewrite set_list_list. reflexivity. }
  rewrite erase_first_middle; [reflexivity | |apply same_header_refl].
  exact (no_correlate_other_header l1 e h Hno He).
Qed.

(** X6.  A successfully received ACK is matched against the port's send
    list (entry source = ACK destination, entry destination = ACK source,
    same transaction identifier).  The first matching entry is removed
    from the list, the entries before and after it keep their order, and
    no other port's list changes.  When the entry's source socket is bound
    and has a listener, that listener is called once with the entry's
    payload, [SSP_SEND] and [SSP_SUCCESS]; without a listener nothing is
    called.  An ACK that matches no entry (a late or repeated ACK) changes
    nothing at all. *)
Theorem ack_completes_send :
  forall pf w portId d,
    type (header d) = MSG_TYPE_ACK ->
    let w' := dispatch pf w portId SSP_SUCCESS (Some d) in
    (forall l1 e l2,
        sendDataListHead w portId = l1 ++ e :: l2 ->
        Forall (fun x => correlates x (header d) = false) l1 ->
        correlates e (header d) = true ->
        type (header (sspData e)) = MSG_TYPE_DATA ->
        dataType (sspData e) = SSP_SEND ->
        0 <= srcId (header (sspData e)) < SSP_SOCKET_MAX ->
        socketToPortIdMap w (srcId (header (sspData e))) <> SSP_INVALID_PORT ->
        sendDataListHead w' portId = l1 ++ l2
        /\ (forall q, q <> portId ->
                      sendDataListHead w' q = sendDataListHead w q)
        /\ log w'
           = log w
             ++ match socketToCallbackMap w (srcId (header (sspData e))) with
                | Some cb => [success_notice w (sspData e) cb]
                | None => []
                end)
    /\ (Forall (fun x => correlates x (header d) = false)
               (sendDataListHead w portId) ->
        w' = w).
Proof.
  intros pf w portId d Ht w'.
  assert (Hd : w' = handle_ack w portId (header d)).
  { unfold w', dispatch. cbn [SspErr_eqb]. rewrite Ht. reflexivity. }
  split.
  - intros l1 e l2 Hl Hno He Hty Hdt Hs Hb.
    rewrite Hd, (handle_ack_first w portId (header d) l1 e l2 Hl Hno He).
    cbv zeta. cbn [sspData set_sspData header set_err].
    set (w1 := set_list w portId _).
    assert (Hb1 : socketToPortIdMap w1 (srcId (header (sspData e)))
                  <> SSP_INVALID_PORT) by exact Hb.
    rewrite (NotifyListener_sent w1 (sspData e) Hty Hdt Hs Hb1).
    replace (socketToCallbackMap w1 (srcId (header (sspData e))))
      with (socketToCallbackMap w (srcId (header (sspData e)))) by reflexivity.
    split; [apply set_list_list|]. split.
    + intros q Hq. rewrite (set_list_other _ _ _ _ Hq).
      destruct (socketToCallbackMap w (srcId (header (sspData e))));
        [cbn [emit sendDataListHead]|]; unfold w1;
        apply set_list_other; exact Hq.
    + destruct (socketToCallbackMap w (srcId (header (sspData e))));
        [reflexivity | cbn; rewrite app_nil_r; reflexivity].
  - intros Hno. rewrite Hd. unfold handle_ack, ListFind.
    rewrite (find_from_none _ _ 0 Hno). reflexivity.
Qed.

Lemma ack_completes_send_witness :
  let d := seal host_le (frame 1 0 MSG_TYPE_ACK 0 []) in
  let w' := dispatch host_le awaiting_ack SSP_PORT1 SSP_SUCCESS (Some d) in
  sendDataListHead w' SSP_PORT1 = []
  /\ callbacks w' = [EvCallback 100 0 [120] 1 SSP_SEND SSP_SUCCESS 0].
Proof.
  pose (e := mkSendData 0 1 RECEIVE_STATE
               (seal host_le (data_frame 0 1 0 [120]))).
  destruct (proj1 (ack_completes_send host_le awaiting_ack SSP_PORT1
                     (seal host_le (frame 1 0 MSG_TYPE_ACK 0 [])) eq_refl)
                  [] e [] eq_refl (Forall_nil _) eq_refl eq_refl eq_refl)
    as (A & _ & B).
  - change (0 <= 0 < 3). lia.
  - change (1 <> 0). lia.
  - split; [exact A|]. unfold callbacks. rewrite B. reflexivity.
Defined.

(** * The ACK timeout *)

Lemma timeout_walk_map now l : forall n,
  (length l <= n)%nat -> timeout_walk now l n = map (expire now) l.
Proof.
  induction l as [|e l IH]; intros n Hn.
  - destruct n; reflexivity.
  - destruct n as [|n]; [cbn in Hn; lia|].
    cbn [timeout_walk map]. rewrite IH by (cbn in Hn; lia). reflexivity.
Qed.

Lemma elapsed_wraps stamp d :
  0 <= stamp < 4294967296 -> 0 <= d < 4294967296 ->
  u32 (u32 (stamp + d) - stamp) = d.
Proof.
  intros Hs Hd. unfold u32.
  rewrite Zminus_mod_idemp_l.
  replace (stamp + d - stamp) with d by lia.
  apply Z.mod_small. lia.
Qed.

(** X7.  With nothing to read on the port, [ProcessReceive] is the
    timeout walk: every entry of the port's send list, not only the head,
    that waits for an ACK ([RECEIVE_STATE]) for more than
    [SSP_ACK_TIMEOUT] ticks is put back into [SEND_STATE]; retry count,
    time stamp, packet, order of the list and everything else stay.  The
    elapsed time is the difference of two 32-bit tick readings modulo
    2^32, so the timeout is detected correctly across the wrap-around of
    the tick counter. *)
Theorem ack_timeout_walk :
  forall pf w portId,
    recvQueue w portId = [] ->
    Z.of_nat (length (sendDataListHead w portId)) <= SSP_MAX_MESSAGES ->
    ProcessReceive pf w portId
    = set_list w portId
        (map (expire (tickCount w)) (sendDataListHead w portId))
    /\ (forall e d,
           state e = RECEIVE_STATE ->
           0 <= sendTickStamp e < 4294967296 -> 0 <= d < 4294967296 ->
           expire (u32 (sendTickStamp e + d)) e
           = if d >? SSP_ACK_TIMEOUT then set_state e SEND_STATE else e)
    /\ (forall now e,
           sendRetries (expire now e) = sendRetries e
           /\ sendTickStamp (expire now e) = sendTickStamp e
           /\ sspData (expire now e) = sspData e
           /\ (state e = SEND_STATE -> expire now e = e)).
Proof.
  intros pf w portId Hq Hlen. split; [|split].
  - rewrite (ProcessReceive_quiet pf w portId Hq).
    rewrite timeout_walk_map; [reflexivity|].
    unfold SSP_MAX_MESSAGES in *. lia.
  - intros e d Hs Hst Hd. unfold expire. rewrite Hs.
    rewrite (elapsed_wraps _ _ Hst Hd). reflexivity.
  - intros now e. unfold expire.
    destruct (state e) eqn:Es; [repeat split|].
    destruct (u32 (now - sendTickStamp e) >? SSP_ACK_TIMEOUT);
      repeat split; intros; discriminate.
Qed.

Lemma ack_timeout_walk_witness :
  ProcessReceive host_le (set_tickCount awaiting_ack 201) SSP_PORT1
  = set_list (set_tickCount awaiting_ack 201) SSP_PORT1
      (map (expire 201) (sendDataListHead awaiting_ack SSP_PORT1))
  /\ map state (map (expire 201) (sendDataListHead awaiting_ack SSP_PORT1))
     = [SEND_STATE]
  /\ map state (sendDataListHead awaiting_ack SSP_PORT1) = [RECEIVE_STATE].
Proof.
  split; [|split; reflexivity].
  apply (proj1 (ack_timeout_walk host_le (set_tickCount awaiting_ack 201)
                  SSP_PORT1 eq_refl ltac:(vm_compute; discriminate))).
Defined.

(** * Transmissions that fail *)

Lemma SSPCOM_Send_blocked pf w d :
  send_blocked w (srcId (header d)) ->
  exists r d1,
    SSPCOM_Send pf w d = (r, d1, w)
    /\ r <> SSP_SUCCESS /\ (d1 = d \/ d1 = seal pf d).
Proof.
  intros H. unfold SSPCOM_Send.
  destruct (srcId (header d) >=? SSP_SOCKET_MAX) eqn:Hge.
  { exists SSP_BAD_SOCKET_ID, d. repeat split; [discriminate | left; reflexivity]. }
  rewrite Z.geb_leb in Hge. apply Z.leb_gt in Hge.
  destruct (SSPCOM_IsSocketOpen w (srcId (header d))) eqn:Ho; cbn [negb].
  2:{ exists SSP_SOCKET_NOT_OPEN, d.
      repeat split; [discriminate | left; reflexivity]. }
  pose proof (proj1 (IsSocketOpen_spec _ _) Ho) as [_ Hb].
  unfold SSPCOM_GetPortId.
  replace (srcId (header d) >=? SSP_SOCKET_MAX) with false
    by (symmetry; rewrite Z.geb_leb; apply Z.leb_gt; lia).
  apply Z.eqb_neq in Hb. rewrite Hb. cbn [SspErr_eqb negb].
  unfold SSPCOM_IsPortOpen, SSPHAL_PortSend.
  destruct (portIsOpen w (socketToPortIdMap w (srcId (header d)))) eqn:Hp;
    cbn [negb].
  2:{ exists SSP_PORT_NOT_OPEN, d.
      repeat split; [discriminate | left; reflexivity]. }
  destruct (portSendOk w (socketToPortIdMap w (srcId (header d)))) eqn:Hk.
  { exfalso. destruct H as [H|[H|[H|H]]]; [lia | congruence..]. }
  exists SSP_SEND_FAILURE, (seal pf d).
  repeat split; [discriminate | right; reflexivity].
Qed.

Lemma send_blocked_later w0 w s :
  same_setup w0 w -> send_blocked w0 s -> send_blocked w s.
Proof.
  intros (A1 & _ & _ & A4 & A5 & _) H.
  unfold send_blocked, SSPCOM_IsSocketOpen in *. rewrite A1, A4, A5. exact H.
Qed.

Section Blocked.

Variable pf : Platform.

(** A call that finds the entry to be sent with retries left and the port
    out of reach: a retry is used, nothing is transmitted. *)
Lemma round_blocked w portId e :
  sendDataListHead w portId = [e] -> recvQueue w portId = [] ->
  state e = SEND_STATE ->
  0 <= sendRetries e <= SSP_MAX_RETRIES ->
  send_blocked w (srcId (header (sspData e))) ->
  let w' := port_round pf w portId in
  (exists e',
      sendDataListHead w' portId = [e']
      /\ state e' = SEND_STATE /\ sendRetries e' = sendRetries e + 1
      /\ (sspData e' = sspData e \/ sspData e' = seal pf (sspData e)))
  /\ log w' = log w /\ same_setup w w'.
Proof.
  intros Hl Hq Hs Hr Hb w'. unfold w', port_round.
  rewrite (ProcessReceive_quiet pf w portId Hq), Hl, walk_single, Hs.
  unfold ProcessSend. rewrite set_list_list, Hs.
  replace (sendRetries e <=? SSP_MAX_RETRIES) with true
    by (symmetry; apply Z.leb_le; lia).
  cbn [sspData set_sendRetries].
  set (w1 := set_list w portId [e]).
  assert (Hb1 : send_blocked w1 (srcId (header (sspData e)))) by exact Hb.
  destruct (SSPCOM_Send_blocked pf w1 (sspData e) Hb1) as (r & d1 & E & Hr' & Hd).
  rewrite E.
  replace (SspErr_eqb r SSP_SUCCESS) with false
    by (symmetry; apply SspErr_eqb_neq; exact Hr').
  split; [|split; [reflexivity | repeat split]].
  eexists. split; [apply set_list_list|].
  cbn [state sendRetries sspData set_sspData set_sendRetries].
  split; [exact Hs|]. split; [|exact Hd].
  unfold u32. apply Z.mod_small. unfold SSP_MAX_RETRIES in Hr. lia.
Qed.

(** A call that finds the entry to be sent with the retries used up: the
    listener of the source socket is told, whether or not the socket can
    still transmit, and the entry is erased. *)
Lemma round_give_up w portId e cb :
  sendDataListHead w portId = [e] -> recvQueue w portId = [] ->
  state e = SEND_STATE ->
  SSP_MAX_RETRIES < sendRetries e ->
  type (header (sspData e)) = MSG_TYPE_DATA ->
  socketToCallbackMap w (srcId (header (sspData e))) = Some cb ->
  let w' := port_round pf w portId in
  sendDataListHead w' portId = []
  /\ log w' = log w ++ [failure_notice w (sspData e) cb]
  /\ same_setup w w'.
Proof.
  intros Hl Hq Hs Hr Hty Hcb w'. unfold w', port_round.
  rewrite (ProcessReceive_quiet pf w portId Hq), Hl, walk_single, Hs.
  unfold ProcessSend. rewrite set_list_list, Hs.
  replace (sendRetries e <=? SSP_MAX_RETRIES) with false
    by (symmetry; apply Z.leb_gt; lia).
  cbn [sspData set_sendRetries set_sspData].
  unfold NotifyListener.
  cbn [header set_err err]. rewrite Hty, Z.eqb_refl. cbn [negb SspErr_eqb].
  unfold CallbackListener, GetCallbackListener.
  replace (socketToCallbackMap
             (set_list (set_list w portId [e]) portId _)
             (srcId (header (sspData e))))
    with (socketToCallbackMap w (srcId (header (sspData e)))) by reflexivity.
  rewrite Hcb.
  split; [|split].
  - unfold ListErase, set_list.
    cbn [sendDataListHead set_sendDataListHead emit].
    rewrite !upd_same. cbn [erase_first].
    rewrite same_header_refl. reflexivity.
  - reflexivity.
  - repeat split.
Qed.

Variable w0 : World.
Variable portId : Z.
Variable e0 : SendData.
Variable cb : Z.

Hypothesis Hquiet : recvQueue w0 portId = [].
Hypothesis Hblocked : send_blocked w0 (srcId (header (sspData e0))).
Hypothesis Htype : type (header (sspData e0)) = MSG_TYPE_DATA.
Hypothesis Hlistener :
  socketToCallbackMap w0 (srcId (header (sspData e0))) = Some cb.

Lemma blocked_step k w t :
  blocked_after pf w0 portId e0 cb k w ->
  blocked_after pf w0 portId e0 cb (S k)
                (port_round pf (set_tickCount w t) portId).
Proof.
  intros (Hset & H).
  pose proof (same_setup_trans _ _ _ Hset (same_setup_tick w t)) as Hset'.
  assert (Hq : recvQueue (set_tickCount w t) portId = []).
  { destruct Hset as (_ & _ & _ & _ & _ & A6).
    cbn [recvQueue set_tickCount]. rewrite A6. exact Hquiet. }
  change (Z.to_nat (SSP_MAX_RETRIES + 1)) with 5%nat in *.
  unfold blocked_after.
  change (Z.to_nat (SSP_MAX_RETRIES + 1)) with 5%nat.
  destruct (k <=? 5)%nat eqn:Ek.
  - apply Nat.leb_le in Ek.
    destruct H as (Hlog & e & Hl & Hs & Hr & Hd).
    assert (Hfields : srcId (header (sspData e)) = srcId (header (sspData e0))
                      /\ type (header (sspData e)) = type (header (sspData e0))
                      /\ failure_notice (set_tickCount w t) (sspData e) cb
                         = failure_notice w0 (sspData e0) cb).
    { destruct Hset as (_ & _ & A3 & _).
      destruct (seal_fields pf (sspData e0)) as (F1 & F2 & F3 & F4 & F5).
      unfold failure_notice. cbn [socketToUserDataMap set_tickCount].
      rewrite A3.
      destruct Hd as [-> | ->]; [repeat split|].
      rewrite F1, F2, F3, F4, F5. repeat split. }
    destruct Hfields as (Fs & Ft & Fn).
    destruct (Nat.eq_dec k 5) as [->|Hne].
    + (* the retries are used up *)
      destruct (round_give_up (set_tickCount w t) portId e cb Hl Hq Hs)
        as (L1 & L2 & L3).
      * rewrite Hr. unfold SSP_MAX_RETRIES. lia.
      * rewrite Ft. exact Htype.
      * destruct Hset as (_ & A2 & _).
        cbn [socketToCallbackMap set_tickCount]. rewrite A2, Fs. exact Hlistener.
      * split; [eapply same_setup_trans; eassumption|].
        cbn [Nat.leb]. split; [|exact L1].
        rewrite L2, Fn. cbn [log set_tickCount]. rewrite Hlog. reflexivity.
    + destruct (round_blocked (set_tickCount w t) portId e Hl Hq Hs)
        as ((e' & M1 & M2 & M3 & M4) & L2 & L3).
      * rewrite Hr. unfold SSP_MAX_RETRIES. lia.
      * rewrite Fs. eapply send_blocked_later; eassumption.
      * split; [eapply same_setup_trans; eassumption|].
        replace (S k <=? 5)%nat with true by (symmetry; apply Nat.leb_le; lia).
        split; [rewrite L2; exact Hlog|].
        exists e'. split; [exact M1|]. split; [exact M2|].
        split; [rewrite M3, Hr; lia|].
        destruct M4 as [-> | ->]; [exact Hd|].
        right. destruct Hd as [-> | ->]; [reflexivity | apply seal_seal].
  - apply Nat.leb_gt in Ek.
    destruct H as (Hlog & Hl).
    destruct (round_empty pf (set_tickCount w t) portId Hl Hq) as (L1 & L2 & L3).
    split; [eapply same_setup_trans; eassumption|].
    replace (S k <=? 5)%nat with false by (symmetry; apply Nat.leb_gt; lia).
    split; [rewrite L2; exact Hlog | exact L1].
Qed.

Lemma blocked_pump ticks : forall k w,
  blocked_after pf w0 portId e0 cb k w ->
  blocked_after pf w0 portId e0 cb (k + length ticks)
                (pump pf portId ticks w).
Proof.
  induction ticks as [|t ticks IH]; intros k w H.
  - rewrite Nat.add_0_r. exact H.
  - cbn [pump fold_left length].
    replace (k + S (length ticks))%nat with (S k + length ticks)%nat by lia.
    apply IH. apply blocked_step. exact H.
Qed.

End Blocked.

(** X8.  A transmission that fails costs a retry.  When the packet of the
    only entry of a port's send list cannot be handed to the port (source
    socket closed or out of range, port closed, or the port refusing the
    bytes), every call of the process step uses up one retry at once,
    without waiting for the ACK timeout: the first
    [SSP_MAX_RETRIES + 1] = 5 calls transmit nothing and call nobody, and
    the sixth call, whenever it comes, tells the listener of the source
    socket [SSP_SEND_RETRIES_FAILED] once and erases the entry.  Later
    calls do nothing. *)
Theorem blocked_send_gives_up :
  forall pf w0 portId e0 cb ticks,
    sendDataListHead w0 portId = [e0] ->
    state e0 = SEND_STATE -> sendRetries e0 = 0 ->
    recvQueue w0 portId = [] ->
    send_blocked w0 (srcId (header (sspData e0))) ->
    type (header (sspData e0)) = MSG_TYPE_DATA ->
    socketToCallbackMap w0 (srcId (header (sspData e0))) = Some cb ->
    let w := pump pf portId ticks w0 in
    ((length ticks <= 5)%nat ->
     log w = log w0
     /\ exists e,
          sendDataListHead w portId = [e]
          /\ state e = SEND_STATE
          /\ sendRetries e = Z.of_nat (length ticks))
    /\ ((6 <= length ticks)%nat ->
        log w = log w0 ++ [failure_notice w0 (sspData e0) cb]
        /\ sendDataListHead w portId = []).
Proof.
  intros pf w0 portId e0 cb ticks Hl Hs Hr Hq Hb Hty Hcb w.
  assert (H0 : blocked_after pf w0 portId e0 cb 0 w0).
  { split; [apply same_setup_refl|]. cbn [Nat.leb].
    split; [reflexivity|]. exists e0.
    repeat split; [exact Hl | exact Hs | exact Hr | left; reflexivity]. }
  pose proof (blocked_pump pf w0 portId e0 cb Hq Hb Hty Hcb ticks 0 w0 H0)
    as (_ & H).
  cbn [Nat.add] in H. fold w in H.
  change (Z.to_nat (SSP_MAX_RETRIES + 1)) with 5%nat in H.
  split.
  - intros Hk. replace (length ticks <=? 5)%nat with true in H
      by (symmetry; apply Nat.leb_le; exact Hk).
    destruct H as (Hlog & e & A & B & C & _).
    split; [exact Hlog|]. exists e. repeat split; assumption.
  - intros Hk. replace (length ticks <=? 5)%nat with false in H
      by (symmetry; apply Nat.leb_gt; lia).
    exact H.
Qed.

Lemma blocked_send_gives_up_witness :
  let w := pump host_le SSP_PORT1 [0; 1; 2; 3; 4; 5] closed_sender in
  ((length [0; 1; 2; 3; 4; 5] <= 5)%nat ->
   log w = log closed_sender
   /\ exists e,
        sendDataListHead w SSP_PORT1 = [e]
        /\ state e = SEND_STATE
        /\ sendRetries e = Z.of_nat (length [0; 1; 2; 3; 4; 5]))
  /\ ((6 <= length [0; 1; 2; 3; 4; 5])%nat ->
      log w
      = log closed_sender
        ++ [failure_notice closed_sender (data_frame 0 1 0 [120]) 100]
      /\ sendDataListHead w SSP_PORT1 = []).
Proof.
  apply (blocked_send_gives_up host_le closed_sender SSP_PORT1
           (queued_entry 0 1 0 [120]) 100 [0; 1; 2; 3; 4; 5]).
  - reflexivity.
  - reflexivity.
  - reflexivity.
  - reflexivity.
  - right. left. reflexivity.
  - reflexivity.
  - reflexivity.
Defined.

(** * What the receiver does with bytes that are no packet *)

Section Rejects.

Variable pf : Platform.

(** [ProcessReceive] in terms of the receive loop. *)
Lemma ProcessReceive_received w portId ps' rx' :
  recvQueue w portId <> [] -> portIsOpen w portId = true ->
  Receive_loop pf (socketToPortIdMap w) (recvQueue w portId) (parser w)
  = (ps', rx') ->
  ProcessReceive pf w portId
  = let w1 := dispatch pf (set_recvQueue (set_parser w ps')
                                         (upd (recvQueue w) portId rx'))
                       portId (err (sspDataRecv ps')) (Some (sspDataRecv ps')) in
    set_list w1 portId
      (timeout_walk (tickCount w1) (sendDataListHead w1 portId)
                    (Z.to_nat SSP_MAX_MESSAGES)).
Proof.
  intros Hne Hopen E.
  rewrite (ProcessReceive_nonempty pf w portId Hne).
  unfold SSPCOM_ProcessReceive, SSPCOM_IsPortOpen, Receive.
  rewrite Hopen, E. reflexivity.
Qed.

(** An error other than a corrupted or partial packet draws no answer. *)
Lemma dispatch_silent w portId e d :
  e <> SSP_SUCCESS -> e <> SSP_CORRUPTED_PACKET ->
  e <> SSP_PARTIAL_PACKET_HEADER_VALID ->
  dispatch pf w portId e (Some d) = w.
Proof.
  intros H1 H2 H3. unfold dispatch.
  rewrite (SspErr_eqb_neq _ _ H1), (SspErr_eqb_neq _ _ H2),
    (SspErr_eqb_neq _ _ H3).
  reflexivity.
Qed.

End Rejects.

(** X9.  Line noise is swallowed silently.  When the bytes waiting on an
    open port hold no signature byte [0xBE] and the parser is between
    packets, one [ProcessReceive] reads the port empty, ends with
    [SSP_BAD_SIGNATURE], transmits nothing (no NAK), calls no listener and
    leaves the parser between packets, ready for the next one. *)
Theorem noise_is_discarded :
  forall pf w portId,
    portIsOpen w portId = true ->
    parseState (parser w) = PS_SIGNATURE_1 ->
    recvQueue w portId <> [] ->
    Forall (fun b => b <> SIG_1) (recvQueue w portId) ->
    let w' := ProcessReceive pf w portId in
    log w' = log w
    /\ recvQueue w' portId = []
    /\ err (sspDataRecv (parser w')) = SSP_BAD_SIGNATURE
    /\ parseState (parser w') = PS_SIGNATURE_1.
Proof.
  intros pf w portId Hopen Hst Hne Hno w'.
  destruct (Receive_loop_hunt pf (socketToPortIdMap w) _ (parser w) Hst Hno)
    as (ps' & E & Hst' & Herr).
  assert (Herr' : err (sspDataRecv ps') = SSP_BAD_SIGNATURE).
  { rewrite Herr. destruct (recvQueue w portId); [contradiction | reflexivity]. }
  unfold w'. rewrite (ProcessReceive_received pf w portId ps' [] Hne Hopen E).
  rewrite Herr', dispatch_silent by discriminate.
  cbv zeta. unfold set_list.
  cbn [log recvQueue parser set_sendDataListHead set_recvQueue set_parser].
  rewrite upd_same. repeat split; assumption.
Qed.

Lemma noise_is_discarded_witness :
  let w := arrive testbed SSP_PORT1 [1; 2; 3; 239; 0] in
  let w' := ProcessReceive host_le w SSP_PORT1 in
  log w' = log w
  /\ recvQueue w' SSP_PORT1 = []
  /\ err (sspDataRecv (parser w')) = SSP_BAD_SIGNATURE
  /\ parseState (parser w') = PS_SIGNATURE_1.
Proof.
  apply (noise_is_discarded host_le (arrive testbed SSP_PORT1 [1; 2; 3; 239; 0])
           SSP_PORT1).
  - reflexivity.
  - reflexivity.
  - discriminate.
  - repeat (apply Forall_cons; [discriminate|]). apply Forall_nil.
Defined.

(** X10.  A header that passes its checksum but announces a body of more
    than [SSP_MAX_BODY_SIZE] bytes is rejected as soon as its eighth byte
    is read: the receive loop stops with [SSP_PACKET_TOO_LARGE] after
    exactly the eight header bytes, nothing is stored in the body buffer,
    what follows stays in the port's queue, and [ProcessReceive] sends no
    NAK and calls no listener. *)
Theorem oversized_packet_rejected :
  forall pf w portId d s t b tr rest,
    portIsOpen w portId = true ->
    parseState (parser w) = PS_SIGNATURE_1 ->
    SSP_MAX_BODY_SIZE < b ->
    let h0 := mkHeader SIG_1 SIG_2 d s t b tr 0 in
    let h := set_checksum h0 (header_checksum h0) in
    recvQueue w portId = header_bytes h ++ rest ->
    let w' := ProcessReceive pf w portId in
    log w' = log w
    /\ recvQueue w' portId = rest
    /\ err (sspDataRecv (parser w')) = SSP_PACKET_TOO_LARGE
    /\ header (sspDataRecv (parser w')) = h
    /\ body (sspDataRecv (parser w')) = body (sspDataRecv (parser w))
    /\ parseState (parser w') = PS_SIGNATURE_1
    /\ parseBytes (parser w') = 0.
Proof.
  intros pf w portId d s t b tr rest Hopen Hst Hb h0 h Hq w'.
  set (m := socketToPortIdMap w).
  set (ck := header_checksum h0).
  assert (Hck : header_checksum h = ck).
  { unfold h, ck, h0, set_checksum. cbn [sig0 sig1 destId srcId type bodySize transId].
    rewrite !header_checksum_sum. reflexivity. }
  pose proof (Parse_header_prefix pf m d s t b tr 0 (parser w) Hst) as Hpre.
  set (ps0 := mkParser PS_CHECKSUM _ _ _ _ _) in Hpre.
  assert (Hlast : Parse_byte pf m ck ps0
                  = (ParseReset (set_recv_err (set_recv_header ps0 h)
                                              SSP_PACKET_TOO_LARGE), true)).
  { rewrite (Parse_byte_checksum pf m ck ps0 eq_refl). cbv zeta.
    replace (set_checksum (header (sspDataRecv ps0)) ck) with h by reflexivity.
    rewrite Hck, Z.eqb_refl.
    replace (bodySize h <=? SSP_MAX_BODY_SIZE) with false
      by (symmetry; apply Z.leb_gt; exact Hb).
    reflexivity. }
  assert (E : Receive_loop pf m (recvQueue w portId) (parser w)
              = (save_history ([SIG_1; SIG_2; d; s; t; b; tr] ++ [ck])
                   (ParseReset (set_recv_err (set_recv_header ps0 h)
                                             SSP_PACKET_TOO_LARGE)), rest)).
  { rewrite Hq.
    change (header_bytes h ++ rest)
      with ([SIG_1; SIG_2; d; s; t; b; tr] ++ ck :: rest).
    apply (Receive_loop_last pf m _ ck 0 (parser w) _ ps0 _ rest Hpre Hlast).
    discriminate. }
  assert (Hne : recvQueue w portId <> []) by (rewrite Hq; discriminate).
  unfold w'. rewrite (ProcessReceive_received pf w portId _ rest Hne Hopen E).
  rewrite save_history_sspDataRecv.
  rewrite dispatch_silent by discriminate.
  cbv zeta. unfold set_list.
  cbn [log recvQueue parser set_sendDataListHead set_recvQueue set_parser].
  rewrite upd_same, save_history_sspDataRecv, save_history_parseState,
    save_history_parseBytes.
  repeat split.
Qed.

Lemma oversized_packet_rejected_witness :
  let h0 := mkHeader SIG_1 SIG_2 1 0 0 200 7 0 in
  let h := set_checksum h0 (header_checksum h0) in
  let w := arrive testbed SSP_PORT2 (header_bytes h ++ [1; 2; 3]) in
  let w' := ProcessReceive host_le w SSP_PORT2 in
  log w' = log w
  /\ recvQueue w' SSP_PORT2 = [1; 2; 3]
  /\ err (sspDataRecv (parser w')) = SSP_PACKET_TOO_LARGE
  /\ header (sspDataRecv (parser w')) = h
  /\ body (sspDataRecv (parser w')) = body (sspDataRecv (parser w))
  /\ parseState (parser w') = PS_SIGNATURE_1
  /\ parseBytes (parser w') = 0.
Proof.
  apply (oversized_packet_rejected host_le
           (arrive testbed SSP_PORT2
              (header_bytes (set_checksum (mkHeader SIG_1 SIG_2 1 0 0 200 7 0)
                 (header_checksum (mkHeader SIG_1 SIG_2 1 0 0 200 7 0)))
               ++ [1; 2; 3]))
           SSP_PORT2 1 0 0 200 7 [1; 2; 3]).
  - reflexivity.
  - reflexivity.
  - vm_compute. reflexivity.
  - reflexivity.
Defined.

(** * Damaged DATA packets *)

(** X11.  A DATA packet whose two trailer bytes are not the CRC of its
    header and payload, addressed to a bound socket, is consumed whole and
    answered with exactly one NAK to its sender; no listener is called,
    whether or not the destination socket has one. *)
Theorem corrupted_data_draws_nak :
  forall pf w portId src dst trans p lo hi rest,
    portIsOpen w portId = true -> idle (parser w) ->
    Z.of_nat (length p) <= SSP_MAX_BODY_SIZE ->
    0 <= dst < SSP_SOCKET_MAX ->
    socketToPortIdMap w dst <> SSP_INVALID_PORT ->
    portIsOpen w (socketToPortIdMap w dst) = true ->
    portSendOk w (socketToPortIdMap w dst) = true ->
    reply_frame_ready w ->
    let h := sealed_header dst src MSG_TYPE_DATA trans p in
    u16 (lo + Z.shiftl hi 8) <> wire_crc pf h p ->
    recvQueue w portId = header_bytes h ++ p ++ lo :: hi :: rest ->
    let w' := ProcessReceive pf w portId in
    log w' = log w ++ [EvPortSend (socketToPortIdMap w dst)
                         (reply_bytes pf MSG_TYPE_NAK src dst trans)]
    /\ recvQueue w' portId = rest
    /\ err (sspDataRecv (parser w')) = SSP_CORRUPTED_PACKET.
Proof.
  intros pf w portId src dst trans p lo hi rest Hopen (Hst & Hpb & Hbody) Hp
         Hdst Hbound Hpo Hok (ack & Hack & Hab & Hap) h Hcrc Hq w'.
  assert (Hfit : (length p <= length (body (sspDataRecv (parser w))))%nat).
  { rewrite Hbody.
    unfold SSP_MAX_BODY_SIZE, SSP_MAX_PACKET_SIZE, sizeof_SspPacketHeader in *.
    lia. }
  destruct (Receive_loop_packet pf (socketToPortIdMap w) dst src MSG_TYPE_DATA
              trans p lo hi (parser w) rest Hst Hpb Hp Hfit)
    as (ps' & E & Hh & Herr & _).
  fold h in E, Hh, Herr.
  assert (Hv : footer_verdict pf (socketToPortIdMap w) h p lo hi
               = SSP_CORRUPTED_PACKET).
  { unfold footer_verdict.
    replace (destId h) with dst by reflexivity.
    replace (dst >=? SSP_SOCKET_MAX) with false
      by (symmetry; rewrite Z.geb_leb; apply Z.leb_gt; lia).
    apply Z.eqb_neq in Hbound. rewrite Hbound.
    apply Z.eqb_neq in Hcrc. rewrite Hcrc. reflexivity. }
  rewrite Hv in Herr.
  assert (Hne : recvQueue w portId <> []) by (rewrite Hq; discriminate).
  rewrite <- Hq in E.
  unfold w'. rewrite (ProcessReceive_received pf w portId ps' rest Hne Hopen E).
  rewrite Herr. cbv zeta. unfold dispatch. cbn [SspErr_eqb orb andb].
  rewrite Hh. replace (type h) with MSG_TYPE_DATA by reflexivity.
  rewrite Z.eqb_refl. unfold SendNak.
  set (w1 := set_recvQueue _ _).
  rewrite (send_reply_ok pf w1 h MSG_TYPE_NAK ack Hack Hab Hap);
    [| exact Hdst | exact Hbound | exact Hpo | exact Hok].
  unfold set_list.
  cbn [log recvQueue parser set_sendDataListHead set_sspDataForAckNak emit w1
       set_recvQueue set_parser].
  rewrite upd_same. repeat split. exact Herr.
Qed.

Lemma corrupted_data_draws_nak_witness :
  let h := sealed_header 1 0 MSG_TYPE_DATA 7 [104; 105] in
  let w := arrive testbed SSP_PORT2 (header_bytes h ++ [104; 105] ++ [0; 0]) in
  let w' := ProcessReceive host_le w SSP_PORT2 in
  log w' = log w ++ [EvPortSend (socketToPortIdMap w 1)
                       (reply_bytes host_le MSG_TYPE_NAK 0 1 7)]
  /\ recvQueue w' SSP_PORT2 = []
  /\ err (sspDataRecv (parser w')) = SSP_CORRUPTED_PACKET.
Proof.
  apply (corrupted_data_draws_nak host_le
           (arrive testbed SSP_PORT2
              (header_bytes (sealed_header 1 0 MSG_TYPE_DATA 7 [104; 105])
               ++ [104; 105] ++ [0; 0]))
           SSP_PORT2 0 1 7 [104; 105] 0 0 []).
  - reflexivity.
  - repeat split.
  - vm_compute. discriminate.
  - unfold SSP_SOCKET_MAX. lia.
  - change (2 <> 0). lia.
  - reflexivity.
  - reflexivity.
  - eexists. split; [reflexivity|]. split; reflexivity.
  - vm_compute. discriminate.
  - reflexivity.
Defined.

(** * Packets that arrive in pieces *)

Section Pieces.

Variable pf : Platform.
Variable m : Z -> Z.

Lemma Parse_loop_prefix l1 : forall l2 n ps k ps2,
  Parse_loop pf m (l1 ++ l2) n ps = (false, k, ps2) ->
  exists k1 ps1, Parse_loop pf m l1 n ps = (false, k1, ps1).
Proof.
  induction l1 as [|x l1 IH]; intros l2 n ps k ps2 H.
  - cbn. eauto.
  - cbn [app Parse_loop] in H |- *.
    destruct (Parse_byte pf m x ps) as [ps' c]. destruct c.
    + discriminate.
    + eapply IH. exact H.
Qed.

(** The header fields: one byte each, the error code untouched. *)
Lemma Parse_loop_fields l : forall n ps,
  (length l <= fields_left (parseState ps))%nat ->
  exists ps',
    Parse_loop pf m l n ps = (false, n + Z.of_nat (length l), ps')
    /\ err (sspDataRecv ps') = err (sspDataRecv ps).
Proof.
  induction l as [|x l IH]; intros n ps Hl.
  - exists ps. cbn. rewrite Z.add_0_r. split; reflexivity.
  - cbn [length] in Hl. cbn [Parse_loop].
    assert (Hstep : exists ps1,
               Parse_byte pf m x ps = (ps1, false)
               /\ err (sspDataRecv ps1) = err (sspDataRecv ps)
               /\ fields_left (parseState ps1)
                  = (fields_left (parseState ps) - 1)%nat).
    { destruct (parseState ps) eqn:Es; cbn [fields_left] in Hl; try lia.
      - rewrite (Parse_byte_destination pf m x ps Es). eexists. repeat split.
      - rewrite (Parse_byte_source pf m x ps Es). eexists. repeat split.
      - rewrite (Parse_byte_type pf m x ps Es). eexists. repeat split.
      - rewrite (Parse_byte_body_size pf m x ps Es). eexists. repeat split.
      - rewrite (Parse_byte_transaction pf m x ps Es). eexists. repeat split. }
    destruct Hstep as (ps1 & E & He & Hf). rewrite E.
    destruct (IH (n + 1) ps1 ltac:(lia)) as (ps' & E' & He').
    exists ps'. rewrite E'. split; [|congruence].
    f_equal. f_equal. cbn [length]. lia.
Qed.

(** Body and trailer: error code and header untouched until the packet
    completes. *)
Lemma Parse_loop_payload l : forall n ps k ps',
  in_payload (parseState ps) = true ->
  Parse_loop pf m l n ps = (false, k, ps') ->
  err (sspDataRecv ps') = err (sspDataRecv ps)
  /\ header (sspDataRecv ps') = header (sspDataRecv ps).
Proof.
  induction l as [|x l IH]; intros n ps k ps' Hs H.
  - cbn in H. inversion H; subst. split; reflexivity.
  - cbn [Parse_loop] in H.
    assert (Hstep : snd (Parse_byte pf m x ps) = false ->
               err (sspDataRecv (fst (Parse_byte pf m x ps)))
               = err (sspDataRecv ps)
               /\ header (sspDataRecv (fst (Parse_byte pf m x ps)))
                  = header (sspDataRecv ps)
               /\ in_payload (parseState (fst (Parse_byte pf m x ps))) = true).
    { destruct (parseState ps) eqn:Es; try discriminate.
      - rewrite (Parse_byte_body pf m x ps Es). cbv zeta.
        destruct (negb (bodySize (header (sspDataRecv ps)) =? 0));
          [|intros _; repeat split].
        destruct (u16 (parseBytes ps + 1) >=? bodySize (header (sspDataRecv ps)));
          intros _; cbn [fst]; unfold set_parseState, set_parseBytes,
            set_sspDataRecv, set_body;
          cbn [sspDataRecv err header parseState in_payload];
          repeat split; try reflexivity; rewrite Es; reflexivity.
      - rewrite (Parse_byte_footer_1 pf m x ps Es). intros _. repeat split.
      - rewrite (Parse_byte_footer_2 pf m x ps Es). discriminate. }
    destruct (Parse_byte pf m x ps) as [ps1 c]. destruct c; [discriminate|].
    destruct (Hstep eq_refl) as (He & Hh & Hs1). cbn [fst] in *.
    destruct (IH _ _ _ _ Hs1 H) as [He' Hh'].
    split; congruence.
Qed.

(** The parse of a non-empty piece that ends before the packet's last
    byte. *)
Lemma Parse_loop_piece d s t tr p lo a b' ps :
  parseState ps = PS_SIGNATURE_1 -> parseBytes ps = 0 ->
  Z.of_nat (length p) <= SSP_MAX_BODY_SIZE ->
  let h := sealed_header d s t tr p in
  header_bytes h ++ p ++ [lo] = a ++ b' -> a <> [] ->
  exists k ps1,
    Parse_loop pf m a 0 ps = (false, k, ps1)
    /\ err (sspDataRecv ps1)
       = (if (length a <? 8)%nat then SSP_PARTIAL_PACKET
          else SSP_PARTIAL_PACKET_HEADER_VALID)
    /\ ((8 <= length a)%nat -> header (sspDataRecv ps1) = h).
Proof.
  intros Hst Hpb Hp h Hsplit Ha.
  pose proof (Parse_until_footer_2 pf m d s t tr p lo 0 ps Hst Hpb Hp) as Hall.
  cbv zeta in Hall. fold (sealed_header d s t tr p) in Hall. fold h in Hall.
  rewrite Hsplit in Hall.
  destruct (Parse_loop_prefix a b' 0 ps _ _ Hall) as (k & ps1 & E).
  exists k, ps1. split; [exact E|].
  set (ck := checksum h).
  assert (Hhb : header_bytes h
                = [SIG_1; SIG_2; d; s; t; Z.of_nat (length p); tr; ck])
    by reflexivity.
  destruct (Nat.ltb_spec (length a) 8) as [Hlt|Hge].
  - (* inside the header *)
    split; [|intros; lia].
    assert (Hpre : a = firstn (length a) (header_bytes h)).
    { assert (H1 : firstn (length a) (a ++ b') = a).
      { rewrite firstn_app, Nat.sub_diag, firstn_all. apply app_nil_r. }
      rewrite <- H1 at 1. rewrite <- Hsplit, firstn_app.
      replace (length a - length (header_bytes h))%nat with 0%nat
        by (rewrite Hhb; cbn [length]; lia).
      cbn [firstn]. apply app_nil_r. }
    rewrite Hhb in Hpre.
    destruct a as [|x0 a]; [contradiction|].
    cbn [length firstn] in Hpre. inversion Hpre as [[Hx0 Ha1]]. clear Hpre.
    subst x0.
    cbn [Parse_loop] in E.
    rewrite (Parse_byte_sig1 pf m SIG_1 ps Hst) in E. cbv zeta in E.
    rewrite Z.eqb_refl in E.
    destruct a as [|x1 a].
    { cbn in E. inversion E; subst. reflexivity. }
    cbn [length firstn] in Ha1. inversion Ha1 as [[Hx1 Ha2]]. clear Ha1.
    subst x1.
    cbn [Parse_loop] in E.
    erewrite Parse_byte_sig2 in E by reflexivity.
    rewrite Z.eqb_refl in E.
    set (ps2 := set_parseState _ PS_DESTINATION) in E.
    destruct (Parse_loop_fields a (0 + 1 + 1) ps2) as (ps' & E' & He').
    { cbn [length] in Hlt. cbn. lia. }
    rewrite E' in E. inversion E; subst. rewrite He'. reflexivity.
  - (* past the header *)
    assert (Hpre : a = header_bytes h ++ skipn 8 a).
    { rewrite <- (firstn_skipn 8 a) at 1. f_equal.
      assert (H8 : firstn 8 (a ++ b') = firstn 8 a).
      { rewrite firstn_app. replace (8 - length a)%nat with 0%nat by lia.
        cbn [firstn]. apply app_nil_r. }
      rewrite <- H8, <- Hsplit. reflexivity. }
    pose proof (Parse_header pf m d s t (Z.of_nat (length p)) tr ck 0 ps Hst)
      as Hh.
    cbv zeta in Hh.
    replace (mkHeader SIG_1 SIG_2 d s t (Z.of_nat (length p)) tr ck) with h
      in Hh by reflexivity.
    replace (ck =? header_checksum h) with true in Hh.
    2:{ symmetry. apply Z.eqb_eq. unfold ck, h, sealed_header, set_checksum.
        cbn [checksum sig0 sig1 destId srcId type bodySize transId].
        rewrite !header_checksum_sum. reflexivity. }
    replace (Z.of_nat (length p) <=? SSP_MAX_BODY_SIZE) with true in Hh
      by (symmetry; apply Z.leb_le; exact Hp).
    rewrite Hpre in E.
    rewrite (Parse_loop_app pf m _ (skipn 8 a) 0 ps _ _ Hh) in E.
    destruct (Parse_loop_payload (skipn 8 a) (0 + 8) (after_header ps h) k ps1
                eq_refl E) as [He Hhd].
    split; [rewrite He; reflexivity | intros _; rewrite Hhd; reflexivity].
Qed.

End Pieces.

(** X12.  The receive loop can stop anywhere inside a packet and go on at
    the next call.  When the bytes that have reached the port end inside a
    packet (header with a valid checksum, payload of at most
    [SSP_MAX_BODY_SIZE] bytes, two trailer bytes), [Receive] reads them
    all and returns [SSP_PARTIAL_PACKET] while fewer than the eight header
    bytes are in, [SSP_PARTIAL_PACKET_HEADER_VALID] afterwards, with the
    header already in the receive structure.  The next call, on the rest
    of the packet and whatever follows, ends exactly as one call on the
    whole stream would have: same result, same receive structure, same
    bytes left over. *)
Theorem receive_resumes :
  forall pf m d s t tr p lo hi ps a b rest,
    parseState ps = PS_SIGNATURE_1 -> parseBytes ps = 0 ->
    Z.of_nat (length p) <= SSP_MAX_BODY_SIZE ->
    let h := sealed_header d s t tr p in
    header_bytes h ++ p ++ [lo; hi] = a ++ b -> a <> [] -> b <> [] ->
    exists ps1,
      Receive pf m a ps
      = (if (length a <? 8)%nat then SSP_PARTIAL_PACKET
         else SSP_PARTIAL_PACKET_HEADER_VALID, ps1, [])
      /\ ((8 <= length a)%nat -> header (sspDataRecv ps1) = h)
      /\ Receive pf m (b ++ rest) ps1 = Receive pf m (a ++ b ++ rest) ps.
Proof.
  intros pf m d s t tr p lo hi ps a b rest Hst Hpb Hp h Hsplit Ha Hb.
  destruct (exists_last Hb) as (b' & x & ->).
  assert (Hsplit' : header_bytes h ++ p ++ [lo] = a ++ b').
  { assert (H : (header_bytes h ++ p ++ [lo]) ++ [hi] = (a ++ b') ++ [x]).
    { rewrite <- !app_assoc. cbn [app]. rewrite Hsplit. reflexivity. }
    apply app_inj_tail in H. exact (proj1 H). }
  destruct (Parse_loop_piece pf m d s t tr p lo a b' ps Hst Hpb Hp Hsplit' Ha)
    as (k & ps1 & E & He & Hh).
  exists (save_history a ps1).
  pose proof (Receive_loop_incomplete pf m a 0 ps k ps1 [] E) as R0.
  rewrite app_nil_r in R0. cbn [Receive_loop] in R0.
  split.
  { unfold Receive. rewrite R0, save_history_sspDataRecv, He. reflexivity. }
  split.
  { intros H8. rewrite save_history_sspDataRecv. exact (Hh H8). }
  unfold Receive.
  rewrite (Receive_loop_incomplete pf m a 0 ps k ps1 _ E). reflexivity.
Qed.

Lemma receive_resumes_witness :
  let h := sealed_header 1 0 MSG_TYPE_DATA 7 [104; 105; 0] in
  exists ps1,
    Receive host_le (socketToPortIdMap testbed)
            (header_bytes h ++ [104]) Parser_init
    = (SSP_PARTIAL_PACKET_HEADER_VALID, ps1, [])
    /\ header (sspDataRecv ps1) = h
    /\ Receive host_le (socketToPortIdMap testbed)
               ([105; 0; 77; 88] ++ [9]) ps1
       = Receive host_le (socketToPortIdMap testbed)
                 ((header_bytes h ++ [104]) ++ [105; 0; 77; 88] ++ [9])
                 Parser_init.
Proof.
  destruct (receive_resumes host_le (socketToPortIdMap testbed) 1 0
              MSG_TYPE_DATA 7 [104; 105; 0] 77 88 Parser_init
              (header_bytes (sealed_header 1 0 MSG_TYPE_DATA 7 [104; 105; 0])
               ++ [104])
              [105; 0; 77; 88] [9])
    as (ps1 & A & B & C).
  - reflexivity.
  - reflexivity.
  - vm_compute. discriminate.
  - reflexivity.
  - discriminate.
  - discriminate.
  - exists ps1. split; [exact A|]. split; [|exact C].
    apply B. cbn. lia.
Defined.

(** X13.  A DATA packet that has not arrived completely is answered with a
    NAK.  When the process step finds only the first part of a DATA
    packet on the port (the whole header and anything short of the last
    trailer byte) and the destination socket is bound, [ProcessReceive]
    reads the part, sends one NAK to the sender although nothing is wrong
    with the packet, and calls no listener; the parser keeps its place, so
    that the rest of the packet completes it at a later call. *)
Theorem fragment_draws_nak :
  forall pf w portId src dst trans p lo hi a b rest,
    portIsOpen w portId = true -> idle (parser w) ->
    Z.of_nat (length p) <= SSP_MAX_BODY_SIZE ->
    0 <= dst < SSP_SOCKET_MAX ->
    socketToPortIdMap w dst <> SSP_INVALID_PORT ->
    portIsOpen w (socketToPortIdMap w dst) = true ->
    portSendOk w (socketToPortIdMap w dst) = true ->
    reply_frame_ready w ->
    let h := sealed_header dst src MSG_TYPE_DATA trans p in
    header_bytes h ++ p ++ [lo; hi] = a ++ b ->
    (8 <= length a)%nat -> b <> [] ->
    recvQueue w portId = a ->
    let w' := ProcessReceive pf w portId in
    log w' = log w ++ [EvPortSend (socketToPortIdMap w dst)
                         (reply_bytes pf MSG_TYPE_NAK src dst trans)]
    /\ recvQueue w' portId = []
    /\ err (sspDataRecv (parser w')) = SSP_PARTIAL_PACKET_HEADER_VALID
    /\ Receive pf (socketToPortIdMap w') (b ++ rest) (parser w')
       = Receive pf (socketToPortIdMap w) (a ++ b ++ rest) (parser w).
Proof.
  intros pf w portId src dst trans p lo hi a b rest Hopen (Hst & Hpb & Hbody)
         Hp Hdst Hbound Hpo Hok (ack & Hack & Hab & Hap) h Hsplit Hlen Hb Hq w'.
  assert (Ha : a <> []) by (destruct a; [cbn in Hlen; lia | discriminate]).
  destruct (exists_last Hb) as (b' & x & Eb).
  assert (Hsplit' : header_bytes h ++ p ++ [lo] = a ++ b').
  { assert (H : (header_bytes h ++ p ++ [lo]) ++ [hi] = (a ++ b') ++ [x]).
    { rewrite <- !app_assoc. cbn [app]. rewrite Hsplit, Eb. reflexivity. }
    apply app_inj_tail in H. exact (proj1 H). }
  destruct (Parse_loop_piece pf (socketToPortIdMap w) dst src MSG_TYPE_DATA
              trans p lo a b' (parser w) Hst Hpb Hp Hsplit' Ha)
    as (k & ps1 & E & He & Hh).
  replace (length a <? 8)%nat with false in He
    by (symmetry; apply Nat.ltb_ge; exact Hlen).
  specialize (Hh Hlen). fold h in Hh.
  pose proof (Receive_loop_incomplete pf (socketToPortIdMap w) a 0 (parser w)
                k ps1 [] E) as R0.
  rewrite app_nil_r in R0. cbn [Receive_loop] in R0.
  assert (Hne : recvQueue w portId <> []) by (rewrite Hq; exact Ha).
  rewrite <- Hq in R0.
  unfold w'.
  rewrite (ProcessReceive_received pf w portId _ [] Hne Hopen R0).
  rewrite save_history_sspDataRecv, He.
  cbv zeta. unfold dispatch. cbn [SspErr_eqb orb andb].
  rewrite Hh. replace (type h) with MSG_TYPE_DATA by reflexivity.
  rewrite Z.eqb_refl. unfold SendNak.
  set (w1 := set_recvQueue _ _).
  rewrite (send_reply_ok pf w1 h MSG_TYPE_NAK ack Hack Hab Hap);
    [| exact Hdst | exact Hbound | exact Hpo | exact Hok].
  unfold set_list.
  cbn [log recvQueue parser socketToPortIdMap set_sendDataListHead
       set_sspDataForAckNak emit w1 set_recvQueue set_parser].
  rewrite upd_same, save_history_sspDataRecv.
  split; [reflexivity|]. split; [reflexivity|]. split; [exact He|].
  unfold Receive. rewrite Hq.
  rewrite (Receive_loop_incomplete pf (socketToPortIdMap w) a 0 (parser w)
             k ps1 (b ++ rest) E).
  reflexivity.
Qed.

Lemma fragment_draws_nak_witness :
  let h := sealed_header 1 0 MSG_TYPE_DATA 7 [104; 105; 0] in
  let a := header_bytes h ++ [104] in
  let w := arrive testbed SSP_PORT2 a in
  let w' := ProcessReceive host_le w SSP_PORT2 in
  log w' = log w ++ [EvPortSend (socketToPortIdMap w 1)
                       (reply_bytes host_le MSG_TYPE_NAK 0 1 7)]
  /\ recvQueue w' SSP_PORT2 = []
  /\ err (sspDataRecv (parser w')) = SSP_PARTIAL_PACKET_HEADER_VALID
  /\ Receive host_le (socketToPortIdMap w') ([105; 0; 77; 88] ++ []) (parser w')
     = Receive host_le (socketToPortIdMap w) (a ++ [105; 0; 77; 88] ++ [])
               (parser w).
Proof.
  apply (fragment_draws_nak host_le
           (arrive testbed SSP_PORT2
              (header_bytes (sealed_header 1 0 MSG_TYPE_DATA 7 [104; 105; 0])
               ++ [104]))
           SSP_PORT2 0 1 7 [104; 105; 0] 77 88
           (header_bytes (sealed_header 1 0 MSG_TYPE_DATA 7 [104; 105; 0])
            ++ [104])
           [105; 0; 77; 88] []).
  - reflexivity.
  - repeat split.
  - vm_compute. discriminate.
  - unfold SSP_SOCKET_MAX. lia.
  - change (2 <> 0). lia.
  - reflexivity.
  - reflexivity.
  - eexists. split; [reflexivity|]. split; reflexivity.
  - reflexivity.
  - cbn. lia.
  - discriminate.
  - reflexivity.
Defined.

(** * The parser writes inside its buffer *)

Section Safety.

Variable pf : Platform.
Variable m : Z -> Z.

Lemma parser_safe_history ps h i :
  parser_safe ps -> parser_safe (set_history ps h i).
Proof. intros H. exact H. Qed.

Lemma parser_safe_save l ps : parser_safe ps -> parser_safe (save_history l ps).
Proof.
  intros H. unfold parser_safe.
  rewrite save_history_sspDataRecv, save_history_parseState,
    save_history_parseBytes. exact H.
Qed.

Lemma Parse_byte_safe b ps :
  parser_safe ps -> parser_safe (fst (Parse_byte pf m b ps)).
Proof.
  intros (Hlen & Hst). unfold parser_safe.
  destruct (parseState ps) eqn:Es.
  - rewrite (Parse_byte_sig1 pf m b ps Es). cbv zeta.
    destruct (b =? SIG_1); cbn [fst]; split; try exact Hlen; try reflexivity.
    exact Hst.
  - rewrite (Parse_byte_sig2 pf m b ps Es).
    destruct (b =? SIG_2); [|destruct (b =? SIG_1)]; cbn [fst];
      split; try exact Hlen; try reflexivity; exact Hst.
  - rewrite (Parse_byte_destination pf m b ps Es). cbn [fst].
    split; [exact Hlen | exact Hst].
  - rewrite (Parse_byte_source pf m b ps Es). cbn [fst].
    split; [exact Hlen | exact Hst].
  - rewrite (Parse_byte_type pf m b ps Es). cbn [fst].
    split; [exact Hlen | exact Hst].
  - rewrite (Parse_byte_body_size pf m b ps Es). cbn [fst].
    split; [exact Hlen | exact Hst].
  - rewrite (Parse_byte_transaction pf m b ps Es). cbn [fst].
    split; [exact Hlen | exact Hst].
  - rewrite (Parse_byte_checksum pf m b ps Es). cbv zeta.
    destruct (b =? header_checksum _); [|cbn [fst]; split; [exact Hlen | reflexivity]].
    destruct (bodySize (set_checksum (header (sspDataRecv ps)) b)
              <=? SSP_MAX_BODY_SIZE) eqn:Eb;
      cbn [fst]; [|split; [exact Hlen | reflexivity]].
    split; [exact Hlen|].
    unfold set_parseState, set_recv_err, set_recv_header, set_sspDataRecv,
      set_err, set_header.
    cbn [parseState sspDataRecv header parseBytes].
    apply Z.leb_le in Eb. split; [exact Eb | right; exact Hst].
  - rewrite (Parse_byte_body pf m b ps Es). cbv zeta.
    destruct Hst as (Hmax & Hidx).
    assert (H54 : SSP_MAX_BODY_SIZE = 54) by reflexivity.
    destruct (negb (bodySize (header (sspDataRecv ps)) =? 0));
      [|cbn [fst]; split; [exact Hlen | exact I]].
    assert (Hu : u16 (parseBytes ps + 1) = parseBytes ps + 1)
      by (unfold u16; apply Z.mod_small; lia).
    rewrite Hu.
    destruct (parseBytes ps + 1 >=? bodySize (header (sspDataRecv ps))) eqn:En;
      cbn [fst]; unfold set_parseState, set_parseBytes, set_sspDataRecv,
        set_body; cbn [parseState sspDataRecv body header parseBytes];
      rewrite store_length; (split; [exact Hlen|]); [exact I|].
    rewrite Es. rewrite Z.geb_leb in En. apply Z.leb_gt in En.
    split; [exact Hmax | left; lia].
  - rewrite (Parse_byte_footer_1 pf m b ps Es). cbn [fst].
    split; [exact Hlen | exact I].
  - rewrite (Parse_byte_footer_2 pf m b ps Es). cbn [fst].
    destruct (destId (header (sspDataRecv ps)) >=? SSP_SOCKET_MAX);
      [split; [exact Hlen | reflexivity]|].
    destruct (m (destId (header (sspDataRecv ps))) =? SSP_INVALID_PORT);
      [split; [exact Hlen | reflexivity]|].
    cbv zeta.
    destruct (_ =? _); split; try exact Hlen; reflexivity.
Qed.

Lemma Parse_loop_safe buf : forall n ps,
  parser_safe ps -> parser_safe (snd (Parse_loop pf m buf n ps)).
Proof.
  induction buf as [|b buf IH]; intros n ps H; [exact H|].
  cbn [Parse_loop].
  pose proof (Parse_byte_safe b ps H) as H1.
  destruct (Parse_byte pf m b ps) as [ps' c]. cbn [fst] in H1.
  destruct c; [exact H1 | apply IH; exact H1].
Qed.

Lemma Receive_pass_safe data ps :
  parser_safe ps -> parser_safe (snd (Receive_pass pf m data ps)).
Proof.
  intros H. unfold Receive_pass, Parse.
  assert (H1 : parser_safe (snd (match data with
                                 | [] => (true, 0, ps)
                                 | _ :: _ => Parse_loop pf m data 0 ps
                                 end))).
  { destruct data; [exact H | apply Parse_loop_safe; exact H]. }
  destruct (match data with [] => _ | _ :: _ => _ end) as [[c k] ps1].
  cbn [snd] in H1.
  destruct (c && _ && _); cbn [snd]; apply parser_safe_save; exact H1.
Qed.

Lemma Receive_loop_safe rx : forall ps,
  parser_safe ps -> parser_safe (fst (Receive_loop pf m rx ps)).
Proof.
  induction rx as [|b rx IH]; intros ps H; [exact H|].
  cbn [Receive_loop].
  pose proof (Receive_pass_safe [b] ps H) as H1.
  destruct (Receive_pass pf m [b] ps) as [[c r] ps1]. cbn [snd] in H1.
  destruct r.
  - destruct c; [exact H1 | apply IH; exact H1].
  - pose proof (Receive_pass_safe (firstn 7 (skipn 1 (parseHistory ps1)))
                  (set_history ps1 (parseHistory ps1) 0)
                  (parser_safe_history ps1 _ _ H1)) as H2.
    unfold history_pass.
    destruct (Receive_pass pf m _ (set_history ps1 (parseHistory ps1) 0))
      as [[c2 r2] ps2].
    cbn [snd] in H2.
    destruct c2; [exact H2 | apply IH; exact H2].
Qed.

End Safety.

(** X14.  Whatever bytes arrive, the parser never stores outside the body
    array of its receive structure.  The parser set up by [SSPCOM_Init]
    is safe; every step of [Parse] on any byte, and every [Receive] on any
    stream (history passes included), takes a safe parser to a safe one;
    and in a safe parser that is about to store a body byte the index is
    below [SSP_MAX_BODY_SIZE], the size of the array. *)
Theorem parser_writes_in_bounds :
  parser_safe Parser_init
  /\ (forall pf m b ps,
         parser_safe ps -> parser_safe (fst (Parse_byte pf m b ps)))
  /\ (forall pf m rx ps,
         parser_safe ps ->
         parser_safe (snd (fst (Receive pf m rx ps))))
  /\ (forall ps,
         parser_safe ps ->
         body_write_in_bounds ps
         /\ length (body (sspDataRecv ps)) = Z.to_nat SSP_MAX_BODY_SIZE).
Proof.
  split; [|split; [|split]].
  - split; reflexivity.
  - intros pf m b ps H. apply Parse_byte_safe. exact H.
  - intros pf m rx ps H. unfold Receive.
    pose proof (Receive_loop_safe pf m rx ps H) as H1.
    destruct (Receive_loop pf m rx ps) as [ps' rx']. exact H1.
  - intros ps (Hlen & Hst). split; [|exact Hlen].
    intros Es. rewrite Es in Hst. destruct Hst as (Hmax & Hidx).
    rewrite Hlen.
    assert (H54 : SSP_MAX_BODY_SIZE = 54) by reflexivity.
    split; [lia|].
    apply Z2Nat.inj_lt; lia.
Qed.

(** * A message from one node to another *)

Section Delivery.

Variable pf : Platform.

Lemma SSPCOM_Send_parser w d :
  parser (snd (SSPCOM_Send pf w d)) = parser w.
Proof.
  unfold SSPCOM_Send.
  destruct (srcId (header d) >=? SSP_SOCKET_MAX); [reflexivity|].
  destruct (negb (SSPCOM_IsSocketOpen w (srcId (header d)))); [reflexivity|].
  destruct (SSPCOM_GetPortId w (srcId (header d))) as [e p].
  destruct (negb (SspErr_eqb e SSP_SUCCESS)); [reflexivity|].
  destruct (negb (SSPCOM_IsPortOpen w p)); [reflexivity|].
  unfold SSPHAL_PortSend. destruct (portSendOk w p); reflexivity.
Qed.

Lemma CallbackListener_parser w s d :
  parser (CallbackListener w s d) = parser w.
Proof.
  unfold CallbackListener. destruct (GetCallbackListener w s); reflexivity.
Qed.

Lemma NotifyListener_parser w s d : parser (NotifyListener w s d) = parser w.
Proof.
  unfold NotifyListener.
  destruct (negb (type (header d) =? MSG_TYPE_DATA)); [reflexivity|].
  destruct (negb (SspErr_eqb (err d) SSP_SUCCESS));
    [apply CallbackListener_parser|].
  destruct (SSPCOM_GetPortId w (srcId (header d))) as [e p].
  destruct (SspErr_eqb e SSP_SUCCESS); [|reflexivity].
  destruct (dataType d); [|apply CallbackListener_parser].
  destruct (_ && _); [reflexivity|].
  rewrite CallbackListener_parser. reflexivity.
Qed.

Lemma ProcessSend_parser w portId : parser (ProcessSend pf w portId) = parser w.
Proof.
  unfold ProcessSend.
  destruct (sendDataListHead w portId) as [|e rest]; [reflexivity|].
  destruct (state e); [|reflexivity].
  destruct (sendRetries e <=? SSP_MAX_RETRIES).
  - pose proof (SSPCOM_Send_parser w
                  (sspData (set_sendRetries e (u32 (sendRetries e + 1))))) as H.
    destruct (SSPCOM_Send pf w _) as [[r d1] w1]. cbn [snd] in H.
    cbn [parser set_list set_sendDataListHead]. exact H.
  - unfold ListErase. cbn [parser set_list set_sendDataListHead].
    rewrite NotifyListener_parser. reflexivity.
Qed.

Lemma quiet_round_parser w portId :
  recvQueue w portId = [] -> parser (port_round pf w portId) = parser w.
Proof.
  intros Hq. unfold port_round.
  rewrite ProcessSend_parser, (ProcessReceive_quiet pf w portId Hq).
  reflexivity.
Qed.

(** A port with an empty send list after [ProcessReceive] is left alone
    by [ProcessSend]. *)
Lemma port_round_idle_sender w portId :
  sendDataListHead w portId = [] ->
  port_round pf w portId = ProcessReceive pf w portId.
Proof.
  intros Hl. unfold port_round.
  pose proof (ProcessReceive_shrinks pf w portId portId) as Hs.
  rewrite Hl in Hs. cbn [length] in Hs.
  unfold ProcessSend.
  destruct (sendDataListHead (ProcessReceive pf w portId) portId);
    [reflexivity | cbn [length] in Hs; lia].
Qed.

End Delivery.

Section Steps.

Variable pf : Platform.

(** The sender: the call queues the message, the next process step puts
    it on the wire. *)
Lemma sender_transmits A pa src dst cba data n t :
  sender_node pf A pa src cba ->
  0 <= n <= Z.of_nat (length data) -> n <= SSP_MAX_BODY_SIZE ->
  let d := data_frame src dst (sendTransId A) (firstn (Z.to_nat n) data) in
  exists A1,
    SSP_Send A src dst (Some data) n = Some (SSP_SUCCESS, A1)
    /\ let A2 := port_round pf (set_tickCount A1 t) pa in
       sendDataListHead A2 pa = [mkSendData t 1 RECEIVE_STATE (seal pf d)]
       /\ log A2 = log A ++ [EvPortSend pa (packet_bytes pf (seal pf d))]
       /\ same_setup A A2
       /\ parser A2 = parser A.
Proof.
  intros (Hle & Hs & Hm & Hpa & Hpo & Hok & Hal & Hl & Hq & Hidle & Hcb)
         Hn Hmax d.
  assert (Hport : SSPCOM_GetPortId A src = (SSP_SUCCESS, pa)).
  { rewrite (GetPortId_bound A src Hs); rewrite Hm; [reflexivity | exact Hpa]. }
  assert (Hfit : buffers_fit [Some data] [n]).
  { constructor; [|constructor]. exists data. split; [reflexivity | exact Hn]. }
  pose proof (SendMultiple_ok A src dst 1 data [] [n] pa Hport
                ltac:(rewrite Hl; cbn; unfold SSP_MAX_MESSAGES; lia)
                Hal eq_refl Hfit
                ltac:(change (true_total [n]) with (n + 0); lia)) as E.
  cbn [gather] in E. rewrite app_nil_r in E. fold d in E.
  eexists. split; [exact E|]. cbv zeta.
  set (A1 := set_powerSave _ false).
  set (W := set_tickCount A1 t).
  assert (HlW : sendDataListHead W pa = [queued_entry src dst (sendTransId A)
                                           (firstn (Z.to_nat n) data)]).
  { unfold W, A1, ListInsert, set_list.
    cbn [sendDataListHead set_tickCount set_powerSave set_sendDataListHead
         set_sendTransId].
    rewrite upd_same, Hl. reflexivity. }
  assert (HqW : recvQueue W pa = []) by exact Hq.
  assert (Hready : sender_ready W d cba).
  { unfold sender_ready. change (srcId (header d)) with src.
    change (socketToPortIdMap W src) with (socketToPortIdMap A src).
    rewrite Hm. repeat split; try assumption; try lia. }
  destruct (round_transmit pf W pa _ cba HlW HqW (or_introl eq_refl)
              ltac:(cbn; unfold SSP_MAX_RETRIES; lia) Hready)
    as (L1 & L2 & L3).
  split; [exact L1|]. split.
  { rewrite L2. unfold transmission.
    replace (socketToPortIdMap W _) with pa by (symmetry; exact Hm).
    reflexivity. }
  split.
  { eapply same_setup_trans; [|exact L3]. repeat split. }
  rewrite (quiet_round_parser pf W pa HqW). reflexivity.
Qed.

(** The receiver: the packet is acknowledged and handed to the listener. *)
Lemma receiver_delivers B pb src dst cbb trans p t :
  receiver_node pf B pb src dst cbb ->
  Z.of_nat (length p) <= SSP_MAX_BODY_SIZE ->
  lastReceivedTransId B (socketToPortIdMap B src)
  <> (trans, crc (seal pf (data_frame src dst trans p))) ->
  let B1 := process_after pf B pb
              (packet_bytes pf (seal pf (data_frame src dst trans p))) t in
  log B1
  = log B ++ [EvPortSend (socketToPortIdMap B dst)
                (reply_bytes pf MSG_TYPE_ACK src dst trans);
              EvCallback cbb dst p (Z.of_nat (length p)) SSP_RECEIVE
                SSP_SUCCESS (socketToUserDataMap B dst)]
  /\ recvQueue B1 pb = []
  /\ sendDataListHead B1 pb = [].
Proof.
  intros (Hready & Hcb & Hsrc & Hsb & Hq & Hl) Hp Hnew B1.
  unfold B1, process_after.
  set (bytes := packet_bytes pf (seal pf (data_frame src dst trans p))).
  set (W := set_tickCount (arrive B pb bytes) t).
  assert (HlW : sendDataListHead W pb = []) by exact Hl.
  rewrite (port_round_idle_sender pf W pb HlW).
  assert (HqW : recvQueue W pb = bytes ++ []).
  { unfold W, arrive. cbn [recvQueue set_tickCount set_recvQueue].
    rewrite upd_same, Hq, app_nil_r. reflexivity. }
  assert (HreadyW : receiver_ready pf W pb dst) by exact Hready.
  destruct (data_arrival pf W pb src dst trans p [] cbb HreadyW Hp Hcb Hsrc Hsb
              HqW) as (L & _ & Q & _).
  cbv zeta in L.
  assert (Hk : (fst (lastReceivedTransId W (socketToPortIdMap W src)) =? trans)
               && (snd (lastReceivedTransId W (socketToPortIdMap W src))
                   =? crc (seal pf (data_frame src dst trans p))) = false).
  { change (lastReceivedTransId W (socketToPortIdMap W src))
      with (lastReceivedTransId B (socketToPortIdMap B src)).
    destruct (lastReceivedTransId B (socketToPortIdMap B src)) as [a b].
    cbn [fst snd]. apply andb_false_iff.
    destruct (Z.eq_dec a trans) as [->|Ha];
      [|left; apply Z.eqb_neq; exact Ha].
    right. apply Z.eqb_neq. intros ->. apply Hnew. reflexivity. }
  rewrite Hk in L.
  split; [exact L|]. split; [exact Q|].
  pose proof (ProcessReceive_shrinks pf W pb pb) as Hs.
  rewrite HlW in Hs. cbn [length] in Hs.
  destruct (sendDataListHead (ProcessReceive pf W pb) pb);
    [reflexivity | cbn [length] in Hs; lia].
Qed.

(** The sender again: the ACK removes the entry and the listener of the
    source socket learns of the success. *)
Lemma sender_completes A2 pa src dst cba trans p t0 t :
  LE pf = true -> portIsOpen A2 pa = true -> idle (parser A2) ->
  0 <= src < SSP_SOCKET_MAX ->
  socketToPortIdMap A2 src <> SSP_INVALID_PORT ->
  recvQueue A2 pa = [] ->
  sendDataListHead A2 pa
  = [mkSendData t0 1 RECEIVE_STATE (seal pf (data_frame src dst trans p))] ->
  socketToCallbackMap A2 src = Some cba ->
  Z.of_nat (length p) <= SSP_MAX_BODY_SIZE ->
  let A3 := process_after pf A2 pa (reply_bytes pf MSG_TYPE_ACK src dst trans) t in
  log A3
  = log A2 ++ [EvCallback cba src p (Z.of_nat (length p)) SSP_SEND SSP_SUCCESS
                 (socketToUserDataMap A2 src)]
  /\ sendDataListHead A3 pa = []
  /\ recvQueue A3 pa = [].
Proof.
  intros Hle Hopen Hidle Hs Hb Hq Hl Hcb Hp A3.
  unfold A3, process_after, reply_bytes.
  set (ackd := frame dst src MSG_TYPE_ACK trans []).
  set (W := set_tickCount (arrive A2 pa (packet_bytes pf (seal pf ackd))) t).
  assert (Hsd : sendable ackd).
  { apply sendable_frame. cbn. unfold SSP_MAX_BODY_SIZE, SSP_MAX_PACKET_SIZE,
      sizeof_SspPacketHeader. lia. }
  assert (HqW : recvQueue W pa = packet_bytes pf (seal pf ackd) ++ []).
  { unfold W, arrive. cbn [recvQueue set_tickCount set_recvQueue].
    rewrite upd_same, Hq, app_nil_r. reflexivity. }
  assert (Hne : recvQueue W pa <> []).
  { rewrite HqW. apply packet_bytes_nonempty. exact Hsd. }
  unfold port_round.
  rewrite (ProcessReceive_nonempty pf W pa Hne).
  rewrite (SSPCOM_ProcessReceive_sealed pf W pa ackd [] Hle Hopen Hidle Hsd
             Hs Hb HqW).
  set (ps' := accepted pf (parser W) (seal pf ackd)).
  set (W1 := set_recvQueue _ _).
  cbv zeta. unfold dispatch. cbn [SspErr_eqb].
  replace (header (sspDataRecv ps')) with (header (seal pf ackd))
    by (unfold ps'; rewrite accepted_header; reflexivity).
  set (hA := header (seal pf ackd)).
  replace (type hA) with MSG_TYPE_ACK by reflexivity.
  rewrite Z.eqb_refl.
  set (e := mkSendData t0 1 RECEIVE_STATE
              (seal pf (data_frame src dst trans p))) in *.
  assert (HlW1 : sendDataListHead W1 pa = [] ++ e :: []) by exact Hl.
  assert (Hcorr : correlates e hA = true).
  { unfold correlates, e, hA.
    change (destId (header (sspData (mkSendData t0 1 RECEIVE_STATE
              (seal pf (data_frame src dst trans p)))))) with dst.
    change (srcId (header (sspData (mkSendData t0 1 RECEIVE_STATE
              (seal pf (data_frame src dst trans p)))))) with src.
    change (transId (header (sspData (mkSendData t0 1 RECEIVE_STATE
              (seal pf (data_frame src dst trans p)))))) with trans.
    change (srcId (header (seal pf ackd))) with dst.
    change (destId (header (seal pf ackd))) with src.
    change (transId (header (seal pf ackd))) with trans.
    rewrite !Z.eqb_refl. reflexivity. }
  rewrite (handle_ack_first W1 pa hA [] e [] HlW1 (Forall_nil _) Hcorr).
  cbv zeta. cbn [app sspData set_sspData].
  set (W2 := set_list W1 pa _).
  change (header (set_err (sspData e) SSP_SUCCESS)) with (header (sspData e)).
  assert (Hb2 : socketToPortIdMap W2 (srcId (header (sspData e)))
                <> SSP_INVALID_PORT) by exact Hb.
  rewrite (NotifyListener_sent W2 (sspData e) eq_refl eq_refl Hs Hb2).
  change (socketToCallbackMap W2 (srcId (header (sspData e))))
    with (socketToCallbackMap A2 src).
  rewrite Hcb.
  assert (Hnote : success_notice W2 (sspData e) cba
                  = EvCallback cba src p (Z.of_nat (length p)) SSP_SEND
                      SSP_SUCCESS (socketToUserDataMap A2 src)).
  { unfold success_notice.
    change (srcId (header (sspData e))) with src.
    change (bodySize (header (sspData e))) with (u8 (Z.of_nat (length p))).
    change (body (sspData e)) with p.
    change (socketToUserDataMap W2 src) with (socketToUserDataMap A2 src).
    assert (Hu : u8 (Z.of_nat (length p)) = Z.of_nat (length p)).
    { unfold u8. apply Z.mod_small.
      unfold SSP_MAX_BODY_SIZE, SSP_MAX_PACKET_SIZE, sizeof_SspPacketHeader in Hp.
      lia. }
    rewrite Hu, Nat2Z.id, firstn_all. reflexivity. }
  rewrite Hnote.
  set (W3 := set_list (emit W2 _) pa []).
  assert (Hl3 : sendDataListHead W3 pa = []) by apply set_list_list.
  rewrite Hl3. cbn [timeout_walk].
  unfold ProcessSend. rewrite set_list_list.
  split; [reflexivity|]. split; [apply set_list_list|].
  cbn [recvQueue set_list set_sendDataListHead W3 emit W2 W1 set_recvQueue].
  apply upd_same.
Qed.

End Steps.

(** X15.  A message makes it from one node to the other and back as an
    acknowledgement.  Node A has socket [src] bound with a listener and
    nothing else going on on its port; node B is ready for packets to
    [dst], has a listener there, knows the socket identifier [src] too and
    has not just received this very packet.  Then [SSP_Send] on A returns
    [SSP_SUCCESS]; A's next process step transmits one packet; B's process
    step on these bytes answers with one ACK and calls B's listener once
    with exactly the bytes sent, [SSP_RECEIVE] and [SSP_SUCCESS]; and A's
    process step on the ACK calls A's listener once with the same bytes,
    [SSP_SEND] and [SSP_SUCCESS], and removes the message from the send
    list.  The ticks at which the steps run do not matter. *)
Theorem message_delivered :
  forall pf A B pa pb src dst cba cbb data n ta tb tc,
    sender_node pf A pa src cba ->
    receiver_node pf B pb src dst cbb ->
    0 <= n <= Z.of_nat (length data) -> n <= SSP_MAX_BODY_SIZE ->
    let p := firstn (Z.to_nat n) data in
    let d := seal pf (data_frame src dst (sendTransId A) p) in
    let ack := reply_bytes pf MSG_TYPE_ACK src dst (sendTransId A) in
    lastReceivedTransId B (socketToPortIdMap B src) <> (sendTransId A, crc d) ->
    exists A1,
      SSP_Send A src dst (Some data) n = Some (SSP_SUCCESS, A1)
      /\ let A2 := port_round pf (set_tickCount A1 ta) pa in
         let B1 := process_after pf B pb (packet_bytes pf d) tb in
         let A3 := process_after pf A2 pa ack tc in
         log A2 = log A ++ [EvPortSend pa (packet_bytes pf d)]
         /\ log B1
            = log B ++ [EvPortSend (socketToPortIdMap B dst) ack;
                        EvCallback cbb dst p n SSP_RECEIVE SSP_SUCCESS
                          (socketToUserDataMap B dst)]
         /\ log A3
            = log A2 ++ [EvCallback cba src p n SSP_SEND SSP_SUCCESS
                           (socketToUserDataMap A src)]
         /\ sendDataListHead A3 pa = []
         /\ sendDataListHead B1 pb = [].
Proof.
  intros pf A B pa pb src dst cba cbb data n ta tb tc HA HB Hn Hmax p d ack
         Hnew.
  assert (Hlen : Z.of_nat (length p) = n).
  { unfold p. rewrite length_firstn. lia. }
  assert (Hp : Z.of_nat (length p) <= SSP_MAX_BODY_SIZE) by lia.
  destruct (sender_transmits pf A pa src dst cba data n ta HA Hn Hmax)
    as (A1 & E & L1 & L2 & L3 & L4).
  fold p in L1, L2. fold d in L1, L2.
  exists A1. split; [exact E|].
  intros A2 B1 A3. fold A2 in L1, L2, L3, L4.
  destruct HA as (Hle & Hs & Hm & Hpa & Hpo & Hok & Hal & Hl & Hq & Hidle & Hcb).
  destruct L3 as (S1 & S2 & S3 & S4 & S5 & S6).
  destruct (receiver_delivers pf B pb src dst cbb (sendTransId A) p tb HB Hp
              Hnew) as (R1 & R2 & R3).
  fold d in R1, R3. fold B1 in R1, R3. rewrite Hlen in R1.
  destruct (sender_completes pf A2 pa src dst cba (sendTransId A) p ta tc Hle)
    as (C1 & C2 & C3); try assumption.
  - rewrite S4. exact Hpo.
  - rewrite L4. exact Hidle.
  - rewrite S1, Hm. exact Hpa.
  - rewrite S6. exact Hq.
  - rewrite S2. exact Hcb.
  - fold ack in C1, C2. fold A3 in C1, C2. rewrite Hlen, S3 in C1.
    repeat split; assumption.
Qed.

Lemma message_delivered_witness :
  let d := seal host_le (data_frame 0 1 0 [104; 105]) in
  let ack := reply_bytes host_le MSG_TYPE_ACK 0 1 0 in
  exists A1,
    SSP_Send testbed 0 1 (Some [104; 105; 0]) 2 = Some (SSP_SUCCESS, A1)
    /\ let A2 := port_round host_le (set_tickCount A1 10) SSP_PORT1 in
       let B1 := process_after host_le testbed SSP_PORT2
                   (packet_bytes host_le d) 20 in
       let A3 := process_after host_le A2 SSP_PORT1 ack 30 in
       log A2 = log testbed ++ [EvPortSend SSP_PORT1 (packet_bytes host_le d)]
       /\ log B1
          = log testbed ++ [EvPortSend SSP_PORT2 ack;
                            EvCallback 101 1 [104; 105] 2 SSP_RECEIVE
                              SSP_SUCCESS 0]
       /\ log A3
          = log A2 ++ [EvCallback 100 0 [104; 105] 2 SSP_SEND SSP_SUCCESS 0]
       /\ sendDataListHead A3 SSP_PORT1 = []
       /\ sendDataListHead B1 SSP_PORT2 = [].
Proof.
  apply (message_delivered host_le testbed testbed SSP_PORT1 SSP_PORT2 0 1
           100 101 [104; 105; 0] 2 10 20 30).
  - unfold sender_node.
    repeat split; try reflexivity; try discriminate.
  - unfold receiver_node, receiver_ready.
    repeat split; try reflexivity; try discriminate.
    eexists. split; [reflexivity|]. split; reflexivity.
  - cbn. lia.
  - vm_compute. discriminate.
  - vm_compute. intros H. inversion H.
Defined.

(** * Byte order and checksum *)

Lemma bswap16_spec x :
  0 <= x < 65536 -> bswap16 x = x / 256 + 256 * (x mod 256).
Proof.
  intros Hx.
  assert (H : all_from (Z.to_nat 65536) 0
                (fun x => bswap16 x =? x / 256 + 256 * (x mod 256)) = true)
    by (vm_compute; reflexivity).
  pose proof (all_from_spec _ _ _ H x ltac:(lia)) as E. cbv beta in E.
  apply Z.eqb_eq in E. exact E.
Qed.

Lemma bswap16_range x : 0 <= x < 65536 -> 0 <= bswap16 x < 65536.
Proof.
  intros Hx. rewrite (bswap16_spec x Hx).
  pose proof (Z.mod_pos_bound x 256 ltac:(lia)).
  assert (0 <= x / 256 < 256)
    by (split; [apply Z.div_pos; lia | apply Z.div_lt_upper_bound; lia]).
  lia.
Qed.

Lemma split_bytes q r :
  0 <= q < 256 -> (q + 256 * r) / 256 = r /\ (q + 256 * r) mod 256 = q.
Proof.
  intros Hq. split.
  - symmetry. apply (Z.div_unique _ 256 r q); lia.
  - symmetry. apply (Z.mod_unique _ 256 r q); lia.
Qed.

Lemma bytes_of x :
  0 <= x < 65536 -> 0 <= x mod 256 < 256 /\ 0 <= x / 256 < 256.
Proof.
  intros Hx. split; [apply Z.mod_pos_bound; lia|].
  split; [apply Z.div_pos; lia | apply Z.div_lt_upper_bound; lia].
Qed.

Lemma u16_mem_bswap c :
  0 <= c < 65536 -> u16_mem false (bswap16 c) = u16_mem true c.
Proof.
  intros Hc. rewrite (bswap16_spec c Hc). unfold u16_mem.
  destruct (bytes_of c Hc) as [Hm Hd].
  destruct (split_bytes (c / 256) (c mod 256) Hd) as [E1 E2].
  rewrite E1, E2. rewrite (Z.mod_small (c mod 256)) by lia.
  rewrite (Z.mod_small (c / 256)) by lia. reflexivity.
Qed.

(** X16.  [bswap16] exchanges the two bytes of a 16-bit value and is its
    own inverse.  Because [SSPCOM_Send] applies it to the CRC on a host
    that is not little-endian before the CRC object goes out as it lies in
    memory, the bytes on the wire are the same on both kinds of host: the
    trailer is always the CRC's low byte followed by its high byte. *)
Theorem wire_format_is_host_independent :
  (forall lo hi,
      0 <= lo < 256 -> 0 <= hi < 256 ->
      bswap16 (lo + 256 * hi) = hi + 256 * lo)
  /\ (forall x, 0 <= x < 65536 -> bswap16 (bswap16 x) = x)
  /\ (forall crc16 d,
         packet_bytes (mkPlatform false crc16) (seal (mkPlatform false crc16) d)
         = packet_bytes (mkPlatform true crc16) (seal (mkPlatform true crc16) d)).
Proof.
  split; [|split].
  - intros lo hi Hlo Hhi. rewrite bswap16_spec by lia.
    destruct (split_bytes lo hi Hlo) as [E1 E2]. rewrite E1, E2. reflexivity.
  - intros x Hx. rewrite (bswap16_spec (bswap16 x) (bswap16_range x Hx)).
    rewrite (bswap16_spec x Hx).
    destruct (bytes_of x Hx) as [Hm Hd].
    destruct (split_bytes (x / 256) (x mod 256) Hd) as [E1 E2].
    rewrite E1, E2.
    pose proof (Z.div_mod x 256 ltac:(lia)). lia.
  - intros crc16 d.
    destruct d as [e ty c psz [a0 a1 a2 a3 a4 a5 a6 a7] bd].
    unfold packet_bytes, seal, packet_crc.
    cbn [LE Crc16CalcBlock crc set_crc set_header header body packetSize
         set_sig set_checksum bodySize].
    rewrite u16_mem_bswap by apply u16_range. reflexivity.
Qed.

(** X17.  On a host that is not little-endian the receiver cannot accept
    what the sender produces.  [Parse] assembles the trailer as low byte
    plus high byte times 256, whatever the host, but byte-swaps the CRC it
    computes before comparing: a correctly sealed DATA packet for a bound
    socket is rejected with [SSP_CORRUPTED_PACKET] whenever the two bytes
    of its CRC differ (and accepted when they happen to be equal). *)
Theorem big_endian_receiver_rejects :
  forall pf m src dst trans p ps rx,
    LE pf = false -> idle ps ->
    Z.of_nat (length p) <= SSP_MAX_BODY_SIZE ->
    0 <= dst < SSP_SOCKET_MAX -> m dst <> SSP_INVALID_PORT ->
    let h := sealed_header dst src MSG_TYPE_DATA trans p in
    let c := u16 (Crc16CalcBlock pf (header_bytes h ++ p) 65535) in
    let r := Receive pf m
               (packet_bytes pf (seal pf (data_frame src dst trans p)) ++ rx)
               ps in
    snd r = rx
    /\ fst (fst r) = if c mod 256 =? c / 256 then SSP_SUCCESS
                     else SSP_CORRUPTED_PACKET.
Proof.
  intros pf m src dst trans p ps rx Hbe (Hst & Hpb & Hbody) Hp Hdst Hbound h c r.
  destruct (packet_bytes_data_frame pf src dst trans p Hp) as (_ & _ & Henc).
  cbv zeta in Henc. fold h in Henc.
  assert (Hc : 0 <= c < 65536) by apply u16_range.
  assert (Hw : wire_crc pf h p = bswap16 c).
  { unfold wire_crc. rewrite Hbe. reflexivity. }
  rewrite Hw, Hbe, (u16_mem_bswap c Hc) in Henc. unfold u16_mem in Henc.
  assert (Hfit : (length p <= length (body (sspDataRecv ps)))%nat).
  { rewrite Hbody.
    unfold SSP_MAX_BODY_SIZE, SSP_MAX_PACKET_SIZE, sizeof_SspPacketHeader in *.
    lia. }
  destruct (Receive_loop_packet pf m dst src MSG_TYPE_DATA trans p
              (c mod 256) ((c / 256) mod 256) ps rx Hst Hpb Hp Hfit)
    as (ps' & E & _ & Herr & _).
  fold h in E, Herr.
  unfold r, Receive. rewrite Henc, <- !app_assoc. cbn [app].
  rewrite E. cbn [fst snd]. split; [reflexivity|].
  rewrite Herr. unfold footer_verdict.
  replace (destId h) with dst by reflexivity.
  replace (dst >=? SSP_SOCKET_MAX) with false
    by (symmetry; rewrite Z.geb_leb; apply Z.leb_gt; lia).
  apply Z.eqb_neq in Hbound. rewrite Hbound.
  rewrite (footer_roundtrip c Hc), Hw, (bswap16_spec c Hc).
  pose proof (Z.div_mod c 256 ltac:(lia)) as Hdm.
  destruct (bytes_of c Hc) as [Hm Hd].
  destruct (c mod 256 =? c / 256) eqn:Eq.
  - apply Z.eqb_eq in Eq.
    replace (c =? c / 256 + 256 * (c mod 256)) with true
      by (symmetry; apply Z.eqb_eq; lia).
    reflexivity.
  - apply Z.eqb_neq in Eq.
    replace (c =? c / 256 + 256 * (c mod 256)) with false
      by (symmetry; apply Z.eqb_neq; lia).
    reflexivity.
Qed.

Lemma big_endian_receiver_rejects_witness :
  let enc := packet_bytes host_be (seal host_be (data_frame 0 1 7 [104; 105])) in
  snd (Receive host_be (socketToPortIdMap testbed) (enc ++ [1]) Parser_init)
  = [1]
  /\ fst (fst (Receive host_be (socketToPortIdMap testbed) (enc ++ [1])
                 Parser_init))
     = SSP_CORRUPTED_PACKET.
Proof.
  pose proof (big_endian_receiver_rejects host_be (socketToPortIdMap testbed)
                0 1 7 [104; 105] Parser_init [1] eq_refl) as H.
  cbv zeta in H. destruct H as [A B].
  - repeat split.
  - vm_compute. discriminate.
  - unfold SSP_SOCKET_MAX. lia.
  - change (2 <> 0). lia.
  - split; [exact A|]. rewrite B. vm_compute. reflexivity.
Defined.

(** * The header checksum *)

Lemma Checksum_fold l : forall a,
  fold_left (fun sum b => u8 (sum + b)) l (u8 a) = u8 (a + true_total l).
Proof.
  induction l as [|x l IH]; intros a.
  - cbn. rewrite Z.add_0_r. reflexivity.
  - cbn [fold_left]. rewrite true_total_cons.
    replace (u8 (u8 a + x)) with (u8 (a + x))
      by (unfold u8; rewrite Zplus_mod_idemp_l; reflexivity).
    rewrite IH. f_equal. lia.
Qed.

(** X18.  [Checksum] is the sum of the bytes modulo 256.  Hence replacing
    any one byte of the data by a different byte changes the checksum,
    while it is blind to the order of the bytes: exchanging two of them
    leaves it as it is. *)
Theorem checksum_is_byte_sum :
  (forall data, Checksum data = (true_total data) mod 256)
  /\ (forall l1 x x' l2,
         is_byte x -> is_byte x' -> x <> x' ->
         Checksum (l1 ++ x :: l2) <> Checksum (l1 ++ x' :: l2))
  /\ (forall l1 x l2 y l3,
         Checksum (l1 ++ x :: l2 ++ y :: l3)
         = Checksum (l1 ++ y :: l2 ++ x :: l3)).
Proof.
  assert (Hsum : forall data, Checksum data = (true_total data) mod 256).
  { intros data. unfold Checksum. change 0 with (u8 0) at 1.
    rewrite Checksum_fold. reflexivity. }
  split; [exact Hsum|]. split.
  - intros l1 x x' l2 Hx Hx' Hne.
    rewrite !Hsum, !true_total_app, !true_total_cons.
    unfold is_byte in *. intros E.
    assert (H : (x - x') mod 256 = 0).
    { replace (x - x')
        with ((true_total l1 + (x + true_total l2))
              - (true_total l1 + (x' + true_total l2))) by lia.
      rewrite Zminus_mod, E, Z.sub_diag. reflexivity. }
    apply Z.mod_divide in H; [|lia]. destruct H as [k Hk]. lia.
  - intros l1 x l2 y l3.
    rewrite !Hsum, !true_total_app, !true_total_cons, !true_total_app,
      !true_total_cons.
    f_equal. lia.
Qed.

(** * The memory-buffer HAL *)

(** Case analysis on the comparisons of a goal about ring indices. *)
Ltac ring_cases :=
  repeat (match goal with
          | |- context [?x >=? ?y] => rewrite (Z.geb_leb x y)
          | |- context [?x <? ?y] => destruct (Z.ltb_spec x y)
          | |- context [?x <=? ?y] => destruct (Z.leb_spec x y)
          | |- context [?x =? ?y] => destruct (Z.eqb_spec x y)
          end; cbv iota);
  cbn [andb orb]; try reflexivity; try lia; try (exfalso; lia).

Lemma ring_wrap x :
  -1024 <= x < 2048 ->
  x mod 1024
  = if x <? 0 then x + 1024 else if x <? 1024 then x else x - 1024.
Proof.
  intros H. destruct (Z.ltb_spec x 0); [|destruct (Z.ltb_spec x 1024)].
  - symmetry. apply Z.mod_unique with (q := -1); lia.
  - apply Z.mod_small. lia.
  - symmetry. apply Z.mod_unique with (q := 1); lia.
Qed.

Lemma count_range h p : 0 <= MemBuf.count h p < 1024.
Proof. unfold MemBuf.count, MemBuf.RECV_BUF_SIZE. apply Z.mod_pos_bound. lia. Qed.

Lemma count_cases h p :
  MemBuf.indices_ok h p ->
  MemBuf.count h p
  = if MemBuf.recvDataHead h p - MemBuf.recvDataTail h p <? 0
    then MemBuf.recvDataHead h p - MemBuf.recvDataTail h p + 1024
    else MemBuf.recvDataHead h p - MemBuf.recvDataTail h p.
Proof.
  unfold MemBuf.indices_ok, MemBuf.count, MemBuf.RECV_BUF_SIZE. intros [H1 H2].
  rewrite ring_wrap by lia. ring_cases.
Qed.

Lemma buffer_full_count h p :
  MemBuf.indices_ok h p ->
  MemBuf.buffer_full h p = (MemBuf.count h p =? 1023).
Proof.
  intros H. rewrite (count_cases h p H).
  unfold MemBuf.indices_ok, MemBuf.buffer_full, MemBuf.RECV_BUF_SIZE in *.
  destruct H as [H1 H2]. ring_cases.
Qed.

Lemma empty_count h p :
  MemBuf.indices_ok h p ->
  MemBuf.SSPHAL_IsRecvQueueEmpty h p = (MemBuf.count h p =? 0).
Proof.
  intros H. rewrite (count_cases h p H).
  unfold MemBuf.indices_ok, MemBuf.SSPHAL_IsRecvQueueEmpty in *.
  destruct H as [H1 H2]. unfold MemBuf.RECV_BUF_SIZE in *. ring_cases.
Qed.

Lemma contents_length h p :
  Z.of_nat (length (MemBuf.contents h p)) = MemBuf.count h p.
Proof.
  unfold MemBuf.contents. rewrite length_map, length_seq.
  pose proof (count_range h p). lia.
Qed.

(** A byte stored at the head becomes the newest of the waiting bytes. *)
Lemma put_spec h p b :
  MemBuf.indices_ok h p -> MemBuf.buffer_full h p = false ->
  MemBuf.indices_ok (MemBuf.put h p b) p
  /\ MemBuf.count (MemBuf.put h p b) p = MemBuf.count h p + 1
  /\ MemBuf.contents (MemBuf.put h p b) p = MemBuf.contents h p ++ [b].
Proof.
  intros Hok Hfull.
  rewrite (buffer_full_count h p Hok) in Hfull. apply Z.eqb_neq in Hfull.
  pose proof (count_range h p) as Hc.
  pose proof (count_cases h p Hok) as Hcc.
  destruct Hok as [H1 H2]. unfold MemBuf.RECV_BUF_SIZE in *.
  set (H := MemBuf.recvDataHead h p) in *.
  set (T := MemBuf.recvDataTail h p) in *.
  assert (Hh : MemBuf.recvDataHead (MemBuf.put h p b) p
               = if H + 1 >=? 1024 then 0 else H + 1).
  { unfold MemBuf.put. cbn [MemBuf.recvDataHead]. rewrite upd_same. reflexivity. }
  assert (Ht : MemBuf.recvDataTail (MemBuf.put h p b) p = T) by reflexivity.
  assert (Hb : forall i, MemBuf.recvDataBuf (MemBuf.put h p b) p i
                         = upd (MemBuf.recvDataBuf h p) H b i).
  { intros i. unfold MemBuf.put. cbn [MemBuf.recvDataBuf]. rewrite upd_same.
    reflexivity. }
  assert (Hok' : MemBuf.indices_ok (MemBuf.put h p b) p).
  { unfold MemBuf.indices_ok, MemBuf.RECV_BUF_SIZE. rewrite Hh, Ht. ring_cases. }
  assert (Hcnt : MemBuf.count (MemBuf.put h p b) p = MemBuf.count h p + 1).
  { rewrite (count_cases _ p Hok'), Hh, Ht, Hcc.
    revert Hcc. ring_cases; intros; ring_cases. }
  split; [exact Hok'|]. split; [exact Hcnt|].
  unfold MemBuf.contents. rewrite Hcnt, Ht. fold T.
  replace (Z.to_nat (MemBuf.count h p + 1))
    with (Z.to_nat (MemBuf.count h p) + 1)%nat by lia.
  rewrite seq_app, map_app. cbn [seq map Nat.add]. f_equal.
  - apply map_ext_in. intros i Hi. apply in_seq in Hi.
    rewrite Hb. apply upd_other.
    unfold MemBuf.RECV_BUF_SIZE. rewrite ring_wrap by lia.
    revert Hcc. ring_cases.
  - rewrite Hb. f_equal.
    replace ((T + Z.of_nat (Z.to_nat (MemBuf.count h p)))
               mod MemBuf.RECV_BUF_SIZE) with H; [apply upd_same|].
    unfold MemBuf.RECV_BUF_SIZE. rewrite ring_wrap by lia.
    revert Hcc. ring_cases.
Qed.

(** The other ports' rings are not touched. *)
Lemma put_other h p b q :
  q <> p ->
  MemBuf.recvDataBuf (MemBuf.put h p b) q = MemBuf.recvDataBuf h q
  /\ MemBuf.recvDataHead (MemBuf.put h p b) q = MemBuf.recvDataHead h q
  /\ MemBuf.recvDataTail (MemBuf.put h p b) q = MemBuf.recvDataTail h q.
Proof.
  intros Hq. unfold MemBuf.put.
  cbn [MemBuf.recvDataBuf MemBuf.recvDataHead MemBuf.recvDataTail].
  rewrite !upd_other by exact Hq. repeat split.
Qed.

Lemma room_range h p : 0 <= MemBuf.room h p <= 1023.
Proof.
  unfold MemBuf.room, MemBuf.RECV_BUF_SIZE. pose proof (count_range h p). lia.
Qed.

(** What the ring of port [q] holds is the same in [h'] as in [h]. *)
Lemma contents_same h h' q :
  MemBuf.recvDataBuf h' q = MemBuf.recvDataBuf h q ->
  MemBuf.recvDataHead h' q = MemBuf.recvDataHead h q ->
  MemBuf.recvDataTail h' q = MemBuf.recvDataTail h q ->
  MemBuf.contents h' q = MemBuf.contents h q.
Proof.
  intros A B C. unfold MemBuf.contents, MemBuf.count. rewrite A, B, C.
  reflexivity.
Qed.

(** The copy loop of [SSPHAL_PortSend]: the bytes that find room are
    appended, in order; the loop succeeds when all of them did. *)
Lemma send_loop_spec bytes : forall h p,
  MemBuf.indices_ok h p ->
  fst (MemBuf.send_loop h p bytes)
  = (Z.of_nat (length bytes) <=? MemBuf.room h p)
  /\ MemBuf.indices_ok (snd (MemBuf.send_loop h p bytes)) p
  /\ MemBuf.contents (snd (MemBuf.send_loop h p bytes)) p
     = MemBuf.contents h p ++ firstn (Z.to_nat (MemBuf.room h p)) bytes
  /\ (forall q, q <> p ->
        MemBuf.recvDataBuf (snd (MemBuf.send_loop h p bytes)) q
        = MemBuf.recvDataBuf h q
        /\ MemBuf.recvDataHead (snd (MemBuf.send_loop h p bytes)) q
           = MemBuf.recvDataHead h q
        /\ MemBuf.recvDataTail (snd (MemBuf.send_loop h p bytes)) q
           = MemBuf.recvDataTail h q).
Proof.
  induction bytes as [|b bytes IH]; intros h p Hok.
  - cbn [MemBuf.send_loop fst snd length firstn].
    pose proof (room_range h p). rewrite firstn_nil, app_nil_r.
    split; [symmetry; apply Z.leb_le; cbn [length]; lia|].
    repeat split; apply Hok.
  - cbn [MemBuf.send_loop]. pose proof (room_range h p) as Hr.
    destruct (MemBuf.buffer_full h p) eqn:Hfull.
    + rewrite (buffer_full_count h p Hok) in Hfull. apply Z.eqb_eq in Hfull.
      assert (H0 : MemBuf.room h p = 0)
        by (unfold MemBuf.room, MemBuf.RECV_BUF_SIZE; lia).
      rewrite H0. cbn [fst snd Z.to_nat firstn]. rewrite app_nil_r.
      split; [symmetry; apply Z.leb_gt; cbn [length]; lia|].
      repeat split; apply Hok.
    + destruct (put_spec h p b Hok Hfull) as (Hok' & Hcnt & Hcont).
      destruct (IH (MemBuf.put h p b) p Hok') as (I1 & I2 & I3 & I4).
      assert (Hroom : MemBuf.room (MemBuf.put h p b) p = MemBuf.room h p - 1)
        by (unfold MemBuf.room; lia).
      rewrite (buffer_full_count h p Hok) in Hfull. apply Z.eqb_neq in Hfull.
      assert (Hpos : 1 <= MemBuf.room h p)
        by (pose proof (count_range h p);
            unfold MemBuf.room, MemBuf.RECV_BUF_SIZE; lia).
      split; [|split; [exact I2|split]].
      * rewrite I1, Hroom. cbn [length]. ring_cases.
      * rewrite I3, Hcont, Hroom, <- app_assoc. cbn [app].
        replace (Z.to_nat (MemBuf.room h p))
          with (S (Z.to_nat (MemBuf.room h p - 1))) by lia.
        reflexivity.
      * intros q Hq. destruct (I4 q Hq) as (J1 & J2 & J3).
        destruct (put_other h p b q Hq) as (K1 & K2 & K3).
        rewrite J1, J2, J3. repeat split; assumption.
Qed.

(** Moving the tail on takes the oldest byte off the ring. *)
Lemma drop_spec h p :
  MemBuf.indices_ok h p ->
  MemBuf.recvDataHead h p <> MemBuf.recvDataTail h p ->
  MemBuf.indices_ok (MemBuf.drop h p) p
  /\ MemBuf.contents h p
     = MemBuf.recvDataBuf h p (MemBuf.recvDataTail h p)
       :: MemBuf.contents (MemBuf.drop h p) p.
Proof.
  intros Hok Hne.
  pose proof (count_range h p) as Hc.
  pose proof (count_cases h p Hok) as Hcc.
  destruct Hok as [H1 H2]. unfold MemBuf.RECV_BUF_SIZE in *.
  set (H := MemBuf.recvDataHead h p) in *.
  set (T := MemBuf.recvDataTail h p) in *.
  assert (Hh : MemBuf.recvDataHead (MemBuf.drop h p) p = H) by reflexivity.
  assert (Ht : MemBuf.recvDataTail (MemBuf.drop h p) p
               = if T + 1 >=? 1024 then 0 else T + 1).
  { unfold MemBuf.drop. cbn [MemBuf.recvDataTail]. rewrite upd_same. reflexivity. }
  assert (Hok' : MemBuf.indices_ok (MemBuf.drop h p) p).
  { unfold MemBuf.indices_ok, MemBuf.RECV_BUF_SIZE. rewrite Hh, Ht. ring_cases. }
  assert (Hcnt : MemBuf.count (MemBuf.drop h p) p = MemBuf.count h p - 1).
  { rewrite (count_cases _ p Hok'), Hh, Ht, Hcc.
    revert Hcc. ring_cases; intros; ring_cases. }
  assert (Hpos : 1 <= MemBuf.count h p) by (revert Hcc; ring_cases).
  split; [exact Hok'|].
  unfold MemBuf.contents at 1.
  replace (Z.to_nat (MemBuf.count h p))
    with (S (Z.to_nat (MemBuf.count h p - 1))) by lia.
  cbn [seq map]. f_equal.
  - fold T. f_equal. unfold MemBuf.RECV_BUF_SIZE. rewrite ring_wrap by lia.
    ring_cases.
  - unfold MemBuf.contents. rewrite Hcnt, Ht, <- seq_shift, map_map.
    apply map_ext_in. intros i Hi. apply in_seq in Hi.
    change (MemBuf.recvDataBuf (MemBuf.drop h p) p)
      with (MemBuf.recvDataBuf h p).
    f_equal. fold T. unfold MemBuf.RECV_BUF_SIZE.
    destruct (Z.leb_spec 1024 (T + 1)) as [E|E]; rewrite Z.geb_leb;
      [replace (1024 <=? T + 1) with true by (symmetry; apply Z.leb_le; lia)
      |replace (1024 <=? T + 1) with false by (symmetry; apply Z.leb_gt; lia)].
    + replace T with 1023 by lia.
      replace (1023 + Z.of_nat (S i)) with (0 + Z.of_nat i + 1 * 1024) by lia.
      apply Z.mod_add. lia.
    + f_equal. lia.
Qed.

(** The copy loop of [SSPHAL_PortRecv]: the oldest [maxLen] bytes are
    taken, fewer when fewer wait. *)
Lemma recv_loop_spec maxLen : forall h p,
  MemBuf.indices_ok h p ->
  fst (MemBuf.recv_loop h p maxLen) = firstn maxLen (MemBuf.contents h p)
  /\ MemBuf.indices_ok (snd (MemBuf.recv_loop h p maxLen)) p
  /\ MemBuf.contents (snd (MemBuf.recv_loop h p maxLen)) p
     = skipn maxLen (MemBuf.contents h p)
  /\ (forall q, q <> p ->
        MemBuf.contents (snd (MemBuf.recv_loop h p maxLen)) q
        = MemBuf.contents h q).
Proof.
  induction maxLen as [|n IH]; intros h p Hok.
  - cbn [MemBuf.recv_loop fst snd firstn skipn]. repeat split; apply Hok.
  - cbn [MemBuf.recv_loop].
    destruct (Z.eqb_spec (MemBuf.recvDataHead h p) (MemBuf.recvDataTail h p))
      as [He|Hne].
    + assert (H0 : MemBuf.contents h p = []).
      { unfold MemBuf.contents, MemBuf.count. rewrite He, Z.sub_diag.
        reflexivity. }
      rewrite H0. cbn [fst snd firstn skipn]. rewrite H0.
      repeat split; apply Hok.
    + destruct (drop_spec h p Hok Hne) as (Hok' & Hcont).
      destruct (IH (MemBuf.drop h p) p Hok') as (I1 & I2 & I3 & I4).
      destruct (MemBuf.recv_loop (MemBuf.drop h p) p n) as [bytes h'] eqn:E.
      cbn [fst snd] in *. rewrite Hcont. cbn [firstn skipn].
      split; [rewrite I1; reflexivity|]. split; [exact I2|].
      split; [exact I3|].
      intros q Hq. rewrite (I4 q Hq). apply contents_same; try reflexivity.
      unfold MemBuf.drop. cbn [MemBuf.recvDataTail]. apply upd_other. exact Hq.
Qed.

Lemma flush_spec h p :
  MemBuf.indices_ok h p ->
  MemBuf.indices_ok (MemBuf.SSPHAL_PortFlush h p) p
  /\ MemBuf.count (MemBuf.SSPHAL_PortFlush h p) p = 0
  /\ MemBuf.contents (MemBuf.SSPHAL_PortFlush h p) p = [].
Proof.
  intros [H1 H2].
  assert (Hh : MemBuf.recvDataHead (MemBuf.SSPHAL_PortFlush h p) p
               = MemBuf.recvDataTail h p).
  { unfold MemBuf.SSPHAL_PortFlush. cbn [MemBuf.recvDataHead].
    apply upd_same. }
  assert (Hc : MemBuf.count (MemBuf.SSPHAL_PortFlush h p) p = 0).
  { unfold MemBuf.count. rewrite Hh.
    change (MemBuf.recvDataTail (MemBuf.SSPHAL_PortFlush h p) p)
      with (MemBuf.recvDataTail h p).
    rewrite Z.sub_diag. reflexivity. }
  split; [|split; [exact Hc|]].
  - unfold MemBuf.indices_ok. rewrite Hh. split; exact H2.
  - unfold MemBuf.contents. rewrite Hc. reflexivity.
Qed.

(** X19.  [SSPHAL_PortSend] of the memory-buffer HAL: a send of a
    non-empty buffer on a port appends to the ring of the peer port, in
    order, as many of the bytes as find room there, and answers TRUE
    exactly when all of them did: a send that fails for want of room has
    still delivered the bytes that fitted.  The rings of the other ports
    keep what they hold. *)
Theorem membuf_send_appends :
  forall h portId bytes,
    MemBuf.indices_ok h (MemBuf.loopback portId) -> bytes <> [] ->
    let peer := MemBuf.loopback portId in
    let r := MemBuf.SSPHAL_PortSend h portId (Some bytes) in
    fst r = (Z.of_nat (length bytes) <=? MemBuf.room h peer)
    /\ MemBuf.contents (snd r) peer
       = MemBuf.contents h peer
         ++ firstn (Z.to_nat (MemBuf.room h peer)) bytes
    /\ MemBuf.indices_ok (snd r) peer
    /\ (forall q, q <> peer ->
          MemBuf.contents (snd r) q = MemBuf.contents h q).
Proof.
  intros h portId bytes Hok Hne peer r.
  assert (Hr : r = MemBuf.send_loop h peer bytes).
  { unfold r, MemBuf.SSPHAL_PortSend. destruct bytes; [congruence|reflexivity]. }
  rewrite Hr.
  destruct (send_loop_spec bytes h peer Hok) as (A & B & C & D).
  split; [exact A|]. split; [exact C|]. split; [exact B|].
  intros q Hq. destruct (D q Hq) as (D1 & D2 & D3).
  apply contents_same; assumption.
Qed.

Lemma membuf_send_appends_witness :
  MemBuf.indices_ok MemBuf.Hal_zero (MemBuf.loopback SSP_PORT1)
  /\ [190; 239; 1] <> @nil Z
  /\ fst (MemBuf.SSPHAL_PortSend MemBuf.Hal_zero SSP_PORT1 (Some [190; 239; 1]))
     = true
  /\ MemBuf.contents
       (snd (MemBuf.SSPHAL_PortSend MemBuf.Hal_zero SSP_PORT1
               (Some [190; 239; 1]))) SSP_PORT2
     = [190; 239; 1].
Proof.
  assert (H1 : MemBuf.indices_ok MemBuf.Hal_zero (MemBuf.loopback SSP_PORT1))
    by (unfold MemBuf.indices_ok; vm_compute; repeat split; discriminate).
  assert (H2 : [190; 239; 1] <> @nil Z) by discriminate.
  split; [exact H1|]. split; [exact H2|].
  destruct (membuf_send_appends MemBuf.Hal_zero SSP_PORT1 [190; 239; 1] H1 H2)
    as (A & B & _).
  split; [exact A | exact B].
Defined.

(** X20.  [SSPHAL_PortRecv] of the memory-buffer HAL: a receive hands
    over the oldest [maxLen] of the bytes that wait on the port, oldest
    first (all of them when fewer wait), also across the wrap-around of
    the ring indices, keeps the rest in order and always answers TRUE; the
    port then tests empty exactly when no more than [maxLen] bytes were
    waiting.  The other ports keep what they hold. *)
Theorem membuf_recv_fifo :
  forall h portId maxLen,
    MemBuf.indices_ok h portId -> 0 <= maxLen ->
    let r := MemBuf.SSPHAL_PortRecv h portId maxLen in
    fst (fst r) = true
    /\ snd (fst r) = firstn (Z.to_nat maxLen) (MemBuf.contents h portId)
    /\ MemBuf.contents (snd r) portId
       = skipn (Z.to_nat maxLen) (MemBuf.contents h portId)
    /\ MemBuf.indices_ok (snd r) portId
    /\ MemBuf.SSPHAL_IsRecvQueueEmpty (snd r) portId
       = (MemBuf.count h portId <=? maxLen)
    /\ (forall q, q <> portId ->
          MemBuf.contents (snd r) q = MemBuf.contents h q).
Proof.
  intros h p maxLen Hok Hm r.
  destruct (recv_loop_spec (Z.to_nat maxLen) h p Hok) as (A & B & C & D).
  unfold r, MemBuf.SSPHAL_PortRecv.
  destruct (MemBuf.recv_loop h p (Z.to_nat maxLen)) as [bytes h'].
  cbn [fst snd] in *.
  split; [reflexivity|]. split; [exact A|]. split; [exact C|].
  split; [exact B|]. split; [|exact D].
  rewrite (empty_count h' p B), <- (contents_length h' p), C, length_skipn.
  pose proof (contents_length h p) as L. pose proof (count_range h p).
  ring_cases.
Qed.

Lemma membuf_recv_fifo_witness :
  MemBuf.indices_ok
    (snd (MemBuf.SSPHAL_PortSend MemBuf.Hal_zero SSP_PORT1 (Some [190; 239; 1])))
    SSP_PORT2
  /\ 0 <= 2
  /\ snd (fst (MemBuf.SSPHAL_PortRecv
                 (snd (MemBuf.SSPHAL_PortSend MemBuf.Hal_zero SSP_PORT1
                         (Some [190; 239; 1]))) SSP_PORT2 2))
     = [190; 239].
Proof.
  assert (H1 : MemBuf.indices_ok
                 (snd (MemBuf.SSPHAL_PortSend MemBuf.Hal_zero SSP_PORT1
                         (Some [190; 239; 1]))) SSP_PORT2)
    by (unfold MemBuf.indices_ok; vm_compute; repeat split; discriminate).
  assert (H2 : 0 <= 2) by lia.
  split; [exact H1|]. split; [exact H2|].
  destruct (membuf_recv_fifo _ SSP_PORT2 2 H1 H2) as (_ & A & _).
  exact A.
Defined.

(** X21.  [SSPHAL_PortFlush], then [SSPHAL_PortSend], then
    [SSPHAL_PortRecv].  After a flush of the peer port, whatever waited
    there is gone: a send followed by a receive long enough for the buffer
    hands over the bytes sent and leaves the port empty.  The ring holds RECV_BUF_SIZE - 1
    bytes: the send answers TRUE exactly for buffers of at most that
    length, and of a longer one the first RECV_BUF_SIZE - 1 bytes
    arrive.  The flush keeps the ring indices inside the buffer. *)
Theorem membuf_loopback :
  forall h portId bytes maxLen,
    MemBuf.indices_ok h (MemBuf.loopback portId) ->
    bytes <> [] -> Z.of_nat (length bytes) <= maxLen ->
    let peer := MemBuf.loopback portId in
    let s := MemBuf.SSPHAL_PortSend (MemBuf.SSPHAL_PortFlush h peer) portId
                                    (Some bytes) in
    let r := MemBuf.SSPHAL_PortRecv (snd s) peer maxLen in
    fst s = (Z.of_nat (length bytes) <=? MemBuf.RECV_BUF_SIZE - 1)
    /\ snd (fst r) = firstn (Z.to_nat (MemBuf.RECV_BUF_SIZE - 1)) bytes
    /\ MemBuf.SSPHAL_IsRecvQueueEmpty (snd r) peer = true
    /\ MemBuf.indices_ok (MemBuf.SSPHAL_PortFlush h peer) peer.
Proof.
  intros h portId bytes maxLen Hok Hne Hm peer s r.
  destruct (flush_spec h peer Hok) as (F1 & F2 & F3).
  assert (Hs : s = MemBuf.send_loop (MemBuf.SSPHAL_PortFlush h peer) peer bytes).
  { unfold s, MemBuf.SSPHAL_PortSend. destruct bytes; [congruence|reflexivity]. }
  destruct (send_loop_spec bytes _ peer F1) as (A & B & C & _).
  rewrite <- Hs in A, B, C.
  assert (Hroom : MemBuf.room (MemBuf.SSPHAL_PortFlush h peer) peer
                  = MemBuf.RECV_BUF_SIZE - 1)
    by (unfold MemBuf.room; rewrite F2; lia).
  rewrite Hroom in A, C. rewrite F3 in C. cbn [app] in C.
  assert (Hm' : 0 <= maxLen) by lia.
  destruct (recv_loop_spec (Z.to_nat maxLen) (snd s) peer B)
    as (R1 & R2 & R3 & _).
  unfold r, MemBuf.SSPHAL_PortRecv.
  destruct (MemBuf.recv_loop (snd s) peer (Z.to_nat maxLen)) as [got h'].
  cbn [fst snd] in *.
  assert (Hlen : (length (firstn (Z.to_nat (MemBuf.RECV_BUF_SIZE - 1)) bytes)
                  <= Z.to_nat maxLen)%nat)
    by (rewrite length_firstn; lia).
  split; [exact A|]. split; [|split; [|exact F1]].
  - rewrite R1, C. apply firstn_all2. exact Hlen.
  - rewrite (empty_count h' peer R2), <- (contents_length h' peer), R3, C.
    rewrite skipn_all2 by exact Hlen. reflexivity.
Qed.

Lemma membuf_loopback_witness :
  MemBuf.indices_ok MemBuf.Hal_zero (MemBuf.loopback SSP_PORT2)
  /\ [190; 239; 1] <> @nil Z
  /\ Z.of_nat (length [190; 239; 1]) <= 16
  /\ snd (fst (MemBuf.SSPHAL_PortRecv
                 (snd (MemBuf.SSPHAL_PortSend
                         (MemBuf.SSPHAL_PortFlush MemBuf.Hal_zero SSP_PORT1)
                         SSP_PORT2 (Some [190; 239; 1]))) SSP_PORT1 16))
     = [190; 239; 1].
Proof.
  assert (H1 : MemBuf.indices_ok MemBuf.Hal_zero (MemBuf.loopback SSP_PORT2))
    by (unfold MemBuf.indices_ok; vm_compute; repeat split; discriminate).
  assert (H2 : [190; 239; 1] <> @nil Z) by discriminate.
  assert (H3 : Z.of_nat (length [190; 239; 1]) <= 16) by (cbn; lia).
  split; [exact H1|]. split; [exact H2|]. split; [exact H3|].
  destruct (membuf_loopback MemBuf.Hal_zero SSP_PORT2 [190; 239; 1] 16 H1 H2 H3)
    as (_ & A & _).
  exact A.
Defined.

(** * Power saving *)



Section HalFrames.

Variable pf : Platform.













End HalFrames.





